(** * search-api: the task poller, the Exa result shaping and the relevance score

    A shallow embedding of

    - [src/search/pws_search.py] : [run_search] (submit, poll, resolve),
    - [src/search/exa_search.py] : [run_search] (result list shaping),
    - [src/agent.py]             : [ClaudeAgent.score_sentence_relevance],

    followed by the properties of the specification that concern them.

    Python's [float] is IEEE 754 binary64: durations are modelled with Rocq's
    primitive [float], whose operations are the binary64 ones.  Effects
    (stderr lines, calls on the remote client, sleeps) are recorded in a
    trace; [sys.exit] and exceptions are outcomes of a computation. *)

From Stdlib Require Import ZArith List String Ascii Bool Lia Floats.
From Stdlib Require Import DecimalString.
From Stdlib Require Uint63.
Import ListNotations.

Set Warnings "-register-all,-inexact-float,-notation-for-abbreviation".

(* ================================================================== *)
(** * Python values, exceptions, outcomes *)

Module Py.

Set Implicit Arguments.

(** The values that cross the interfaces modelled here (JSON-like data). *)
Inductive pyval : Type :=
| PNone
| PBool (b : bool)
| PInt (z : Z)
| PFloat (f : float)
| PStr (s : string)
| PList (l : list pyval)
| PDict (kv : list (string * pyval)).

(** An exception object derived from [Exception]: class name and message. *)
Record pyexn : Type := PyExn { exn_class : string; exn_msg : string }.

(** How a block of code ends. [SysExit] is [SystemExit], which derives from
    [BaseException] and is therefore not caught by [except Exception].
    [OutOfFuel] is an artefact of the model: the loop bound was reached. *)
Inductive res (A : Type) : Type :=
| Val (a : A)
| Exc (e : pyexn)
| SysExit (code : Z)
| OutOfFuel.

Arguments Val {A} a.
Arguments Exc {A} e.
Arguments SysExit {A} code.
Arguments OutOfFuel {A}.

(** ** A computation: the trace of events it leaves and how it ends *)

Section Effects.

Variable E : Type.

Definition M (A : Type) : Type := (list E * res A)%type.

Definition ret {A} (a : A) : M A := ([], Val a).

Definition bind {A B} (m : M A) (k : A -> M B) : M B :=
  match m with
  | (t, Val a) => let (t', r) := k a in (t ++ t', r)
  | (t, Exc e) => (t, Exc e)
  | (t, SysExit c) => (t, SysExit c)
  | (t, OutOfFuel) => (t, OutOfFuel)
  end.

Definition emit (e : E) : M unit := ([e], Val tt).

(** [raise e] *)
Definition raise {A} (e : pyexn) : M A := ([], Exc e).

(** [sys.exit(code)] *)
Definition sys_exit {A} (code : Z) : M A := ([], SysExit code).

(** A call on a collaborator, which returns or raises, recorded as [ev]. *)
Definition call {A} (ev : E) (r : pyexn + A) : M A :=
  match r with
  | inl e => ([ev], Exc e)
  | inr a => ([ev], Val a)
  end.

(** [try: body  except Exception as e: handler(e)] *)
Definition try_except {A} (body : M A) (handler : pyexn -> M A) : M A :=
  match body with
  | (t, Exc e) => let (t', r) := handler e in (t ++ t', r)
  | other => other
  end.

End Effects.

Arguments ret {E A} a.
Arguments raise {E A} e.
Arguments sys_exit {E A} code.

Declare Scope py_scope.
Notation "x <- m ;; k" := (bind m (fun x => k))
  (at level 61, m at next level, right associativity) : py_scope.
Notation "m ;;; k" := (bind m (fun _ => k))
  (at level 61, right associativity) : py_scope.

(** Truth value of an optional string: [None] and [''] are falsy. *)
Definition truthy_str (o : option string) : bool :=
  match o with
  | Some (String _ _) => true
  | _ => false
  end.

(** [x or default] on an optional string. *)
Definition str_or (o : option string) (default : string) : string :=
  match o with
  | Some (String c s) => String c s
  | _ => default
  end.

(** [f"{n}"] for a non-negative integer. *)
Definition str_of_nat (n : nat) : string :=
  NilZero.string_of_uint (Nat.to_uint n).

Unset Implicit Arguments.

End Py.

Import Py.

(* ================================================================== *)
(** * src/search/pws_search.py *)

Module PwsSearch.

Open Scope string_scope.
Open Scope list_scope.
Open Scope py_scope.

(** ** The remote client (package [parallel], outside the repository) *)

(** [status] as returned by [client.task_run.retrieve]: the [status] string
    and the [error] attribute, which may be missing ([None] here). *)
Record task_status : Type := TaskStatus {
  status : string;
  error : option pyval
}.

(** [result.output] either carries a [content] attribute or is the payload. *)
Inductive output_obj : Type :=
| WithContent (content : pyval)
| Bare (payload : pyval).

Record task_result : Type := TaskResult { output : output_obj }.

(** One remote client. Calls either return or raise. [retrieve_resp k] is the
    answer to the [k]-th status poll (counted from 0): the service may answer
    differently each time. *)
Record client : Type := Client {
  create_resp : string -> string -> pyexn + string;
  retrieve_resp : nat -> string -> pyexn + task_status;
  result_resp : string -> pyexn + task_result
}.

(** ** Observable effects *)

(** Lines written to [sys.stderr], by template. *)
Inductive stderr_line : Type :=
| MsgSearching (query : string)
| MsgProcessor (processor : string)
| MsgPleaseWait
| MsgCreating
| MsgCreated (run_id : string)
| MsgCompleted
| MsgTaskFailed (error : pyval)
| MsgCancelled
| MsgStatus (status : string)
| MsgTimeout (max_wait_time : float)
| MsgError (e : pyexn)
| MsgTraceback (e : pyexn).

Inductive event : Type :=
| EvPrint (line : stderr_line)
| EvCreate (input processor : string) (resp : pyexn + string)
| EvRetrieve (poll : nat) (run_id : string) (resp : pyexn + task_status)
| EvResult (run_id : string) (resp : pyexn + task_result)
| EvSleep (secs : float).

Definition print (l : stderr_line) : M event unit := emit (EvPrint l).

(** ** [time.sleep] *)

(** [time.sleep(secs)] converts its argument to a number of nanoseconds held
    in 64 bits. It raises [ValueError] on NaN, [OverflowError] when the number
    of nanoseconds does not fit, and [ValueError] on a negative length. *)
Definition sleep_ok (secs : float) : bool :=
  ((0 <=? secs) && (secs * 1e9 <? 0x1p63))%float.

Definition sleep_error (secs : float) : pyexn :=
  if is_nan secs then
    PyExn "ValueError" "Invalid value NaN (not a number)"
  else if ((-0x1p63 <=? secs * 1e9) && (secs * 1e9 <? 0x1p63))%float then
    PyExn "ValueError" "sleep length must be non-negative"
  else
    PyExn "OverflowError" "timestamp too large to convert to C PyTime_t".

Definition time_sleep (secs : float) : M event unit :=
  if sleep_ok secs then emit (EvSleep secs) else raise (sleep_error secs).

(** ** [run_search] *)

(** The dictionary [run_search] returns. *)
Record search_dict : Type := SearchDict {
  d_run_id : string;
  d_status : string;
  d_output : pyval
}.

Definition task_input (query : string) : string :=
  ("Find the best matching products for: " ++ query
    ++ ". Return multiple product options.")%string.

(** [getattr(status, 'error', 'Unknown error')] *)
Definition getattr_error (st : task_status) : pyval :=
  match error st with
  | Some v => v
  | None => PStr "Unknown error"
  end.

Section WithJson.

(** [json.loads] of the standard library: returns the decoded value or
    raises. *)
Variable json_loads : string -> pyexn + pyval.

(** Lines 112-125: take [content] when the output has one, then decode a
    string payload, keeping it as it is when decoding raises (bare
    [except: pass]). *)
Definition decode_output (result : task_result) : M event pyval :=
  let output_data :=
    match output result with
    | WithContent content => content
    | Bare payload => payload
    end in
  match output_data with
  | PStr s =>
      try_except
        (match json_loads s with
         | inl e => raise e
         | inr v => ret v
         end)
        (fun _ => ret output_data)
  | _ => ret output_data
  end.

(** Lines 102-149: the [while] loop and the timeout exit after it. [polls]
    counts the status polls made so far; [fuel] bounds the number of times
    the loop condition is evaluated. *)
Fixpoint poll_loop (fuel : nat) (c : client) (run_id : string)
    (max_wait_time poll_interval : float) (polls : nat) (elapsed : float)
    : M event search_dict :=
  match fuel with
  | O => ([], OutOfFuel)
  | S fuel' =>
      if (elapsed <? max_wait_time)%float then
        let resp := retrieve_resp c polls run_id in
        st <- call (EvRetrieve polls run_id resp) resp ;;
        if status st =? "completed" then
          print MsgCompleted ;;;
          let rresp := result_resp c run_id in
          result <- call (EvResult run_id rresp) rresp ;;
          output_data <- decode_output result ;;
          ret (SearchDict run_id (status st) output_data)
        else if status st =? "failed" then
          print (MsgTaskFailed (getattr_error st)) ;;;
          sys_exit 1
        else if (status st =? "cancelled") || (status st =? "cancelling") then
          print MsgCancelled ;;;
          sys_exit 1
        else
          print (MsgStatus (status st)) ;;;
          time_sleep poll_interval ;;;
          poll_loop fuel' c run_id max_wait_time poll_interval
                    (S polls) (elapsed + poll_interval)%float
      else
        print (MsgTimeout max_wait_time) ;;;
        sys_exit 1
  end.

(** Lines 19-155. [output_format] is accepted and not used. *)
Definition run_search (fuel : nat) (c : client)
    (query processor output_format : string)
    (max_wait_time poll_interval : float) : M event search_dict :=
  print (MsgSearching query) ;;;
  print (MsgProcessor processor) ;;;
  print MsgPleaseWait ;;;
  try_except
    (print MsgCreating ;;;
     let cresp := create_resp c (task_input query) processor in
     run_id <- call (EvCreate (task_input query) processor cresp) cresp ;;
     print (MsgCreated run_id) ;;;
     poll_loop fuel c run_id max_wait_time poll_interval 0 0%float)
    (fun e =>
       print (MsgError e) ;;;
       print (MsgTraceback e) ;;;
       sys_exit 1).

End WithJson.

(** ** Reading traces *)

Definition is_retrieve (e : event) : bool :=
  match e with EvRetrieve _ _ _ => true | _ => false end.

Definition is_result (e : event) : bool :=
  match e with EvResult _ _ => true | _ => false end.

Definition is_sleep (e : event) : bool :=
  match e with EvSleep _ => true | _ => false end.

Definition is_create (e : event) : bool :=
  match e with EvCreate _ _ _ => true | _ => false end.

Definition count (p : event -> bool) (tr : list event) : nat :=
  List.length (filter p tr).

(** The statuses on which the loop sleeps and polls again: every string that
    is none of the four the loop tests for. *)
Definition is_pending (s : string) : bool :=
  negb ((s =? "completed") || (s =? "failed")
        || (s =? "cancelled") || (s =? "cancelling")).

(** [elapsed] after [k] passes through the loop body: [0.0] with
    [poll_interval] added [k] times in binary64. *)
Fixpoint elapsed_after (poll_interval : float) (k : nat) : float :=
  match k with
  | O => 0%float
  | S k' => (elapsed_after poll_interval k' + poll_interval)%float
  end.

(** The [k]-th pass through the loop goes all the way to the end of the
    body: the budget is not used up, the poll returns a status that is none
    of the four the loop tests for, and the sleep is accepted. *)
Definition pending_poll (c : client) (run_id : string)
    (max_wait_time poll_interval : float) (k : nat) : bool :=
  (elapsed_after poll_interval k <? max_wait_time)%float
  && match retrieve_resp c k run_id with
     | inr st => is_pending (status st)
     | inl _ => false
     end
  && sleep_ok poll_interval.

(** So do the first [n] passes. *)
Definition pending_through (c : client) (run_id : string)
    (max_wait_time poll_interval : float) (n : nat) : bool :=
  forallb (pending_poll c run_id max_wait_time poll_interval) (seq 0 n).

Definition resp_status (r : pyexn + task_status) : string :=
  match r with
  | inr st => status st
  | inl _ => ""
  end.

(** What such a pass leaves in the trace, and what [n] of them leave. *)
Definition pending_turn (c : client) (run_id : string)
    (poll_interval : float) (k : nat) : list event :=
  let resp := retrieve_resp c k run_id in
  [EvRetrieve k run_id resp; EvPrint (MsgStatus (resp_status resp));
   EvSleep poll_interval].

Definition pending_trace (c : client) (run_id : string)
    (poll_interval : float) (first n : nat) : list event :=
  flat_map (pending_turn c run_id poll_interval) (seq first n).

(** The trace up to the first poll when the task was created as [run_id]. *)
Definition header (query processor run_id : string) : list event :=
  [EvPrint (MsgSearching query); EvPrint (MsgProcessor processor);
   EvPrint MsgPleaseWait; EvPrint MsgCreating;
   EvCreate (task_input query) processor (inr run_id);
   EvPrint (MsgCreated run_id)].

(** What the [except Exception] handler adds to a block that ended in [r],
    and how the function then ends. *)
Definition handler_lines (r : res search_dict) : list event :=
  match r with
  | Exc e => [EvPrint (MsgError e); EvPrint (MsgTraceback e)]
  | _ => []
  end.

Definition handled (r : res search_dict) : res search_dict :=
  match r with
  | Exc _ => SysExit 1
  | other => other
  end.

(** The raw payload of a result, and the value the decode step yields for
    it, as a function. *)
Definition payload_of (result : task_result) : pyval :=
  match output result with
  | WithContent content => content
  | Bare payload => payload
  end.

Definition decoded (json_loads : string -> pyexn + pyval)
    (result : task_result) : pyval :=
  match payload_of result with
  | PStr s =>
      match json_loads s with
      | inr parsed => parsed
      | inl _ => PStr s
      end
  | other => other
  end.

(** ** Durations that are whole numbers of seconds *)

(** [float(n)] for an integer [0 <= n < 2^63], as [--timeout 300] gives. *)
Definition secs (n : Z) : float := of_uint63 (Uint63.of_Z n).

(** The ceiling of [x / y] for positive integers. *)
Definition ceil_div (x y : Z) : Z := (x + y - 1) / y.

(** The ceiling of the quotient of two positive finite binary64 numbers,
    taken on their exact values [m * 2^e] (and 0 for other arguments). *)
Definition ceil_ratio (x y : float) : Z :=
  match Prim2SF x, Prim2SF y with
  | S754_finite false mx ex, S754_finite false my ey =>
      let e := Z.min ex ey in
      ceil_div (Zpos mx * 2 ^ (ex - e)) (Zpos my * 2 ^ (ey - e))
  | _, _ => 0%Z
  end.

(** ** Scripted clients, to run the model *)

(** A client whose task is [run_id], that answers the [k]-th poll with the
    [k]-th status of [script] ([final] once the script is used up), and whose
    result payload is [payload]. *)
Definition scripted (run_id : string) (script : list string) (final : string)
    (payload : pyval) : client :=
  {| create_resp := fun _ _ => inr run_id;
     retrieve_resp := fun k _ => inr (TaskStatus (nth k script final) None);
     result_resp := fun _ => inr (TaskResult (Bare payload)) |}.

(** A decoder that knows a few JSON documents and raises on every other
    string; it stands for [json.loads] when the model is run on them. *)
Definition json_loads_table (s : string) : pyexn + pyval :=
  if s =? "null" then inr PNone
  else if s =? "true" then inr (PBool true)
  else if s =? "false" then inr (PBool false)
  else if s =? "[]" then inr (PList [])
  else if s =? "{}" then inr (PDict [])
  else if s =? "42" then inr (PInt 42)
  else inl (PyExn "JSONDecodeError" "Expecting value").

End PwsSearch.

(* ================================================================== *)
(** * src/search/exa_search.py *)

Module ExaSearch.

Open Scope string_scope.
Open Scope list_scope.
Open Scope py_scope.

(** One entry of [search_response.results] (package [exa_py]). [id], [title]
    and [url] may be [None]. The other attributes are read behind [hasattr]:
    the outer [None] stands for an attribute the object does not have. *)
Record exa_result : Type := ExaResult {
  id : option string;
  title : option string;
  url : option string;
  score : option pyval;
  published_date : option pyval;
  price : option pyval;
  text : option (option string);
  highlights : option pyval
}.

Record search_response : Type := SearchResponse { results : list exa_result }.

(** [client.search_and_contents(query, num_results=..., text=True,
    highlights=True)] returns or raises. *)
Record client : Type := Client {
  search_and_contents : string -> Z -> pyexn + search_response
}.

Inductive stderr_line : Type :=
| MsgSearching (query : string)
| MsgCompleted
| MsgError (e : pyexn)
| MsgTraceback (e : pyexn).

Inductive event : Type :=
| EvPrint (line : stderr_line)
| EvSearch (query : string) (num_results : Z) (resp : pyexn + search_response).

Definition print (l : stderr_line) : M event unit := emit (EvPrint l).

(** [x.attr if hasattr(x, 'attr') else None] *)
Definition attr_or_none (a : option pyval) : pyval :=
  match a with
  | Some v => v
  | None => PNone
  end.

(** [result.text[:500] if hasattr(result, 'text') and result.text else None] *)
Definition text_preview (t : option (option string)) : pyval :=
  match t with
  | Some (Some (String c s)) => PStr (substring 0 500 (String c s))
  | _ => PNone
  end.

(** Lines 53-62: the [product] dictionary of the result at position [idx]. *)
Definition product (idx : nat) (result : exa_result) : pyval :=
  PDict [ ("id", PStr (str_or (id result) ("result-" ++ str_of_nat idx)%string));
          ("title", PStr (str_or (title result) "No title"));
          ("url", PStr (str_or (url result) ""));
          ("score", attr_or_none (score result));
          ("published_date", attr_or_none (published_date result));
          ("price", attr_or_none (price result));
          ("text", text_preview (text result));
          ("highlights", attr_or_none (highlights result)) ].

(** Lines 51-63: [for idx, result in enumerate(...)] appending to [results];
    [idx] is the position reached and [results] the list built so far. *)
Fixpoint collect (idx : nat) (rs : list exa_result) (results : list pyval)
    : list pyval :=
  match rs with
  | [] => results
  | result :: rs' => collect (S idx) rs' (results ++ [product idx result])
  end.

(** [l[i]], which raises [IndexError] out of range. *)
Definition getitem (l : list pyval) (i : nat) : M event pyval :=
  match nth_error l i with
  | Some v => ret v
  | None => raise (PyExn "IndexError" "list index out of range")
  end.

(** The dictionary [run_search] returns. *)
Record search_dict : Type := SearchDict {
  d_query : string;
  d_matched_product : pyval;
  d_all_results : list pyval;
  d_total_results : Z
}.

(** Lines 13-79. [exa_api_key] is [os.getenv("EXA_API_KEY")];
    [output_format] is accepted and not used. *)
Definition run_search (exa_api_key : option string) (c : client)
    (query : string) (num_results : Z) (output_format : string)
    : M event search_dict :=
  if negb (truthy_str exa_api_key) then
    raise (PyExn "ValueError" "EXA_API_KEY environment variable is required")
  else
    print (MsgSearching query) ;;;
    try_except
      (let resp := search_and_contents c query num_results in
       search_response <- call (EvSearch query num_results resp) resp ;;
       print MsgCompleted ;;;
       let results := collect 0 (results search_response) [] in
       matched_product <-
         (if negb (Nat.eqb (List.length results) 0)
          then getitem results 0 else ret PNone) ;;
       ret (SearchDict query matched_product results
                       (Z.of_nat (List.length results))))
      (fun e =>
         print (MsgError e) ;;;
         print (MsgTraceback e) ;;;
         sys_exit 1).

End ExaSearch.

(* ================================================================== *)
(** * src/agent.py *)

Module Agent.

Open Scope string_scope.
Open Scope list_scope.

(** [str.lower] on the ASCII letters; other characters are kept. *)
Definition lower_char (c : ascii) : ascii :=
  let n := nat_of_ascii c in
  if (65 <=? n)%nat && (n <=? 90)%nat then ascii_of_nat (n + 32) else c.

Fixpoint lower (s : string) : string :=
  match s with
  | EmptyString => EmptyString
  | String c s' => String (lower_char c) (lower s')
  end.

(** [needle in hay] on strings: [needle] occurs in [hay] as a substring. *)
Fixpoint str_in (needle hay : string) : bool :=
  prefix needle hay ||
  match hay with
  | EmptyString => false
  | String _ hay' => str_in needle hay'
  end.

(** The two word lists of the bonus tests, lines 185 and 188. *)
Definition informative_words : list string :=
  ["founded"; "established"; "company"; "organization"; "known for";
   "specializes"].

Definition biography_words : list string :=
  ["born"; "elected"; "served"; "became"; "appointed"].

(** [any(word in sentence_lower for word in words)] *)
Definition any_in (words : list string) (sentence_lower : string) : bool :=
  existsb (fun word => str_in word sentence_lower) words.

Section Scoring.

(** [str.lower], a function on strings. A string stands for the text it
    encodes in UTF-8; a text occurs in another exactly when its bytes occur
    in the bytes of the other. *)
Variable str_lower : string -> string.

(** Lines 175-191. The [for] loop is a left fold over [keywords] with the
    running [score]. *)
Definition score_sentence_relevance_by (sentence : string)
    (keywords : list string) : Z :=
  let sentence_lower := str_lower sentence in
  let score := 0%Z in
  let score :=
    fold_left
      (fun score keyword =>
         if str_in keyword sentence_lower then (score + 1)%Z else score)
      keywords score in
  let score :=
    if any_in informative_words sentence_lower then (score + 2)%Z else score in
  let score :=
    if any_in biography_words sentence_lower then (score + 2)%Z else score in
  score.

End Scoring.

(** The same lines on ASCII text, where [str.lower] is [lower]. *)
Definition score_sentence_relevance (sentence : string)
    (keywords : list string) : Z :=
  score_sentence_relevance_by lower sentence keywords.

(** The number of entries of [keywords], repeated ones counted each time,
    that occur in [sentence_lower]. *)
Definition keyword_hits (sentence_lower : string) (keywords : list string)
    : nat :=
  List.length (filter (fun keyword => str_in keyword sentence_lower) keywords).

(** The bonus of a word list: 2 when a word of it occurs, 0 otherwise. *)
Definition bonus (words : list string) (sentence_lower : string) : Z :=
  if any_in words sentence_lower then 2%Z else 0%Z.

(** ** What the score is to count, stated without the code *)

(** [needle] is a substring of [hay]: [hay] is some text, then [needle],
    then some text. *)
Definition occurs_in (needle hay : string) : Prop :=
  exists before after, hay = (before ++ needle ++ after)%string.

(** [n] is the number of entries of [keywords] that are substrings of
    [hay], an entry that is repeated being counted each time. *)
Inductive occurring (hay : string) : list string -> nat -> Prop :=
| occurring_nil : occurring hay [] 0
| occurring_hit keyword keywords n :
    occurs_in keyword hay -> occurring hay keywords n ->
    occurring hay (keyword :: keywords) (S n)
| occurring_miss keyword keywords n :
    ~ occurs_in keyword hay -> occurring hay keywords n ->
    occurring hay (keyword :: keywords) n.

(** Some word of [words] is a substring of [hay]. *)
Definition member_present (words : list string) (hay : string) : Prop :=
  exists word, In word words /\ occurs_in word hay.

End Agent.

(* ================================================================== *)
(** * Python text and container operations

    [str] values are modelled as strings of bytes, and text is taken to be
    ASCII: the classes [\w], [\d], [\s] and [str.isspace] are the ASCII
    ones, and a length counts bytes. *)

Module PyText.

Open Scope string_scope.
Open Scope list_scope.

(** ['\n'] *)
Definition nl : ascii := ascii_of_nat 10.

Definition nls : string := String nl "".

(** [str.isspace] on one character: tab to carriage return, the four
    separators 28 to 31, and the space. *)
Definition is_space (c : ascii) : bool :=
  let n := nat_of_ascii c in
  ((9 <=? n)%nat && (n <=? 13)%nat) || ((28 <=? n)%nat && (n <=? 32)%nat).

(** [\d] and [\w] *)
Definition is_digit (c : ascii) : bool :=
  let n := nat_of_ascii c in (48 <=? n)%nat && (n <=? 57)%nat.

Definition is_word (c : ascii) : bool :=
  let n := nat_of_ascii c in
  is_digit c || ((65 <=? n)%nat && (n <=? 90)%nat)
  || ((97 <=? n)%nat && (n <=? 122)%nat) || (n =? 95)%nat.

(** [s.lstrip()], [s.rstrip()], [s.strip()] *)
Fixpoint lstrip (s : string) : string :=
  match s with
  | EmptyString => EmptyString
  | String c s' => if is_space c then lstrip s' else s
  end.

Fixpoint rstrip (s : string) : string :=
  match s with
  | EmptyString => EmptyString
  | String c s' =>
      match rstrip s' with
      | EmptyString => if is_space c then EmptyString else String c EmptyString
      | r => String c r
      end
  end.

Definition strip (s : string) : string := lstrip (rstrip s).

(** [s.split(sep)] for a separator of one character. *)
Fixpoint split (sep : ascii) (s : string) : list string :=
  match s with
  | EmptyString => [EmptyString]
  | String c s' =>
      if Ascii.eqb c sep then EmptyString :: split sep s'
      else
        match split sep s' with
        | field :: fields => String c field :: fields
        | [] => [String c EmptyString]
        end
  end.

(** [sep.join(l)] *)
Definition join (sep : string) (l : list string) : string :=
  String.concat sep l.

(** [s * n] *)
Fixpoint repeat_str (s : string) (n : nat) : string :=
  match n with
  | O => EmptyString
  | S n' => s ++ repeat_str s n'
  end.

(** [s[:n]] *)
Definition take (n : nat) (s : string) : string := substring 0 n s.

(** [needle in haystack] for a list of strings. *)
Definition mem (needle : string) (haystack : list string) : bool :=
  existsb (String.eqb needle) haystack.

(** Truth value of an object. *)
Definition truthy (v : pyval) : bool :=
  match v with
  | PNone => false
  | PBool b => b
  | PInt z => negb (z =? 0)%Z
  | PFloat f => negb (f =? 0)%float
  | PStr s => negb (String.length s =? 0)%nat
  | PList l => negb (List.length l =? 0)%nat
  | PDict kv => negb (List.length kv =? 0)%nat
  end.

(** Lookup in the items of a [dict] (whose keys are distinct). *)
Fixpoint dict_get (kv : list (string * pyval)) (key : string)
    : option pyval :=
  match kv with
  | [] => None
  | (k, v) :: kv' => if String.eqb k key then Some v else dict_get kv' key
  end.

Definition has_key (kv : list (string * pyval)) (key : string) : bool :=
  match dict_get kv key with
  | Some _ => true
  | None => false
  end.

Definition no_attribute_get : pyexn :=
  PyExn "AttributeError" "object has no attribute 'get'".

(** [v.get(key, default)]: only a [dict] has the method. *)
Definition get_or (v : pyval) (key : string) (default : pyval)
    : pyexn + pyval :=
  match v with
  | PDict kv =>
      inr (match dict_get kv key with
           | Some x => x
           | None => default
           end)
  | _ => inl no_attribute_get
  end.

(** [len(v)] *)
Definition py_len (v : pyval) : pyexn + nat :=
  match v with
  | PStr s => inr (String.length s)
  | PList l => inr (List.length l)
  | PDict kv => inr (List.length kv)
  | _ => inl (PyExn "TypeError" "object has no len()")
  end.

(** The objects that iterating over [v] yields: the elements of a list, the
    characters of a string, the keys of a dict. *)
Definition py_iter (v : pyval) : pyexn + list pyval :=
  match v with
  | PStr s => inr (map (fun c => PStr (String c EmptyString)) (list_ascii_of_string s))
  | PList l => inr l
  | PDict kv => inr (map (fun item => PStr (fst item)) kv)
  | _ => inl (PyExn "TypeError" "object is not iterable")
  end.

(** [v[:n]] *)
Definition py_slice (n : nat) (v : pyval) : pyexn + pyval :=
  match v with
  | PStr s => inr (PStr (take n s))
  | PList l => inr (PList (firstn n l))
  | _ => inl (PyExn "TypeError" "object is not subscriptable")
  end.

Definition is_dict (v : pyval) : bool :=
  match v with
  | PDict _ => true
  | _ => false
  end.

Section Rendering.

(** [str(v)] for the values whose text is not fixed below (floats, lists,
    dicts). *)
Variable py_str : pyval -> string.

(** [f"{v}"] *)
Definition fmt (v : pyval) : string :=
  match v with
  | PNone => "None"
  | PBool true => "True"
  | PBool false => "False"
  | PInt z => NilZero.string_of_int (Z.to_int z)
  | PStr s => s
  | other => py_str other
  end.

End Rendering.

End PyText.

(* ================================================================== *)
(** * src/search/pws_search.py: presentation *)

Module PwsPresent.

Import PwsSearch PyText.
Open Scope string_scope.
Open Scope list_scope.
Open Scope py_scope.

Section WithLibraries.

(** [str] on values without a fixed text, and [json.dumps(result,
    indent=2)], which returns the text or raises. *)
Variable py_str : pyval -> string.
Variable json_dumps : search_dict -> pyexn + string.

(** Lines 189-195: what one product appends to [output]; [n] is
    [len(products)] and [idx] the position, counted from 1. *)
Definition product_lines (n idx : nat) (product : pyval)
    : pyexn + list string :=
  match product with
  | PDict kv =>
      let field key default :=
        fmt py_str (match dict_get kv key with
                    | Some x => x
                    | None => PStr default
                    end) in
      inr ([nls ++ "✅ Product " ++ str_of_nat idx ++ ":";
            "   Title:    " ++ field "title" "N/A";
            "   ID:       " ++ field "id" "N/A";
            "   Price:    " ++ field "price" "N/A" ++ " "
              ++ field "currency" "";
            "   URL:      " ++ field "url" "N/A"]%string
             ++ (if (idx <? n)%nat then [EmptyString] else []))
  | _ => inl no_attribute_get
  end.

(** Lines 188-195: the loop over [enumerate(products, 1)]. *)
Fixpoint products_lines (n idx : nat) (products : list pyval)
    : pyexn + list string :=
  match products with
  | [] => inr []
  | product :: rest =>
      match product_lines n idx product with
      | inl e => inl e
      | inr lines =>
          match products_lines n (S idx) rest with
          | inl e => inl e
          | inr more => inr (lines ++ more)
          end
      end
  end.

(** Lines 173-204: the list [output] of the pretty format, before the join. *)
Definition pretty_lines (result : search_dict) : pyexn + list string :=
  let top := [repeat_str "=" 70; "SEARCH RESULTS"; repeat_str "=" 70] in
  let bottom := [nls ++ repeat_str "=" 70]%string in
  let data := d_output result in
  let fallback :=
    inr (top
         ++ [nls ++ "Run ID: " ++ d_run_id result;
             "Status: " ++ d_status result;
             nls ++ repeat_str "-" 70;
             nls ++ "Output:";
             fmt py_str data]%string
         ++ bottom) in
  match data with
  | PDict kv =>
      if has_key kv "matched_products" then
        let query :=
          match dict_get kv "query" with
          | Some q => q
          | None => PStr "N/A"
          end in
        let products :=
          match dict_get kv "matched_products" with
          | Some p => p
          | None => PList []
          end in
        match py_len products with
        | inl e => inl e
        | inr n =>
            match py_iter products with
            | inl e => inl e
            | inr items =>
                match products_lines n 1 items with
                | inl e => inl e
                | inr blocks =>
                    inr (top
                         ++ [nls ++ "🔍 Query: " ++ fmt py_str query;
                             "📊 Found " ++ str_of_nat n ++ " product(s)";
                             nls ++ repeat_str "-" 70]%string
                         ++ blocks ++ bottom)
                end
            end
        end
      else fallback
  | _ => fallback
  end.

(** Lines 158-205. *)
Definition format_output (result : search_dict) (format_type : string)
    : pyexn + string :=
  if format_type =? "json" then json_dumps result
  else
    match pretty_lines result with
    | inl e => inl e
    | inr output => inr (join nls output)
    end.

(** The texts of the fields that lines 190-193 show of one product. *)
Definition shown_fields (product : pyval) : list string :=
  match product with
  | PDict kv =>
      let field key default :=
        fmt py_str (match dict_get kv key with
                    | Some x => x
                    | None => PStr default
                    end) in
      [field "title" "N/A"; field "id" "N/A"; field "price" "N/A";
       field "currency" ""; field "url" "N/A"]
  | _ => []
  end.

(** The text of the query that line 182 shows. *)
Definition shown_query (kv : list (string * pyval)) : string :=
  fmt py_str (match dict_get kv "query" with
              | Some q => q
              | None => PStr "N/A"
              end).

End WithLibraries.





Section Main.

Variable py_str : pyval -> string.
Variable json_dumps : search_dict -> pyexn + string.


End Main.


(** The number of empty lines in a list of lines. *)
Definition blanks (lines : list string) : nat :=
  count_occ string_dec lines "".

(** [s] has no newline. *)
Definition one_line (s : string) : bool :=
  forallb (fun c => negb (Ascii.eqb c nl)) (list_ascii_of_string s).

End PwsPresent.

(* ================================================================== *)
(** * src/search/exa_search.py: presentation *)

Module ExaPresent.

Import ExaSearch PyText.
Open Scope string_scope.
Open Scope list_scope.
Open Scope py_scope.

Section WithLibraries.

Variable py_str : pyval -> string.
Variable json_dumps : search_dict -> pyexn + string.

(** [matched.get(key, default)] on the items of a dict. *)
Definition field (kv : list (string * pyval)) (key : string)
    (default : pyval) : pyval :=
  match dict_get kv key with
  | Some x => x
  | None => default
  end.

(** Lines 102-112: the block of the top result. *)
Definition matched_lines (matched : pyval) : pyexn + list string :=
  if truthy matched then
    match matched with
    | PDict kv =>
        let head :=
          ["Top Matched Result:";
           "Title: " ++ fmt py_str (field kv "title" (PStr "N/A"));
           "ID: " ++ fmt py_str (field kv "id" (PStr "N/A"));
           "URL: " ++ fmt py_str (field kv "url" (PStr "N/A"))]%string in
        let score :=
          if truthy (field kv "score" PNone)
          then ["   Score:    " ++ fmt py_str (field kv "score" PNone)]%string
          else [] in
        let published :=
          if truthy (field kv "published_date" PNone)
          then ["   Published: "
                  ++ fmt py_str (field kv "published_date" PNone)]%string
          else [] in
        if truthy (field kv "text" PNone) then
          match py_slice 200 (field kv "text" PNone) with
          | inl e => inl e
          | inr preview =>
              inr (head ++ score ++ published
                   ++ [nls ++ "   Preview:  " ++ fmt py_str preview
                         ++ "..."]%string)
          end
        else inr (head ++ score ++ published)
    | _ => inl no_attribute_get
    end
  else inr [].

(** Lines 119-121: the two lines of one entry of the summary. *)
Definition summary_entry (idx : nat) (res : pyval) : pyexn + list string :=
  match res with
  | PDict kv =>
      inr [nls ++ "   " ++ str_of_nat idx ++ ". "
             ++ fmt py_str (field kv "title" (PStr "No title"));
           "      " ++ fmt py_str (field kv "url" (PStr "No URL"))]%string
  | _ => inl no_attribute_get
  end.

Fixpoint summary_entries (idx : nat) (shown : list pyval)
    : pyexn + list string :=
  match shown with
  | [] => inr []
  | res :: rest =>
      match summary_entry idx res with
      | inl e => inl e
      | inr lines =>
          match summary_entries (S idx) rest with
          | inl e => inl e
          | inr more => inr (lines ++ more)
          end
      end
  end.

(** Lines 115-121: the summary, for more than one result, of the first
    five. *)
Definition summary_lines (all_results : list pyval) : pyexn + list string :=
  if (1 <? List.length all_results)%nat then
    match summary_entries 1 (firstn 5 all_results) with
    | inl e => inl e
    | inr entries =>
        inr ([nls ++ repeat_str "-" 70; nls ++ "All Results:"]%string
             ++ entries)
    end
  else inr [].

(** Lines 97-123: the list [output] of the pretty format, before the join. *)
Definition pretty_lines (result : search_dict) : pyexn + list string :=
  match matched_lines (d_matched_product result) with
  | inl e => inl e
  | inr top =>
      match summary_lines (d_all_results result) with
      | inl e => inl e
      | inr summary =>
          inr ([repeat_str "=" 70; "SEARCH RESULTS (EXA)"]
               ++ top ++ summary ++ [nls ++ repeat_str "=" 70]%string)
      end
  end.

(** Lines 82-124. *)
Definition format_output (result : search_dict) (format_type : string)
    : pyexn + string :=
  if format_type =? "json" then json_dumps result
  else
    match pretty_lines result with
    | inl e => inl e
    | inr output => inr (join nls output)
    end.

End WithLibraries.

End ExaPresent.

(* ================================================================== *)
(** * src/agent.py: text cleaning and extraction *)

Module AgentText.

Import Agent PyText.
Open Scope string_scope.
Open Scope list_scope.

(** ** [extract_keywords_from_task] *)

(** Line 167. *)
Definition common_words : list string :=
  ["what"; "is"; "the"; "who"; "where"; "when"; "how"; "about"; "of"; "in";
   "on"; "at"; "to"; "for"; "with"; "by"].

(** [re.findall(r'\b\w+\b', s)]: the maximal runs of word characters of [s],
    from left to right. *)
Fixpoint findall_words (s : string) : list string :=
  match s with
  | EmptyString => []
  | String c s' =>
      let rest := findall_words s' in
      if is_word c then
        match s' with
        | String c' _ =>
            if is_word c' then
              match rest with
              | word :: words => String c word :: words
              | [] => [String c EmptyString]
              end
            else String c EmptyString :: rest
        | EmptyString => [String c EmptyString]
        end
      else rest
  end.

(** Lines 162-173. *)
Definition extract_keywords_from_task (task_description : string)
    : list string :=
  let words := findall_words (lower task_description) in
  filter (fun word => negb (mem word common_words)
                      && (2 <? String.length word)%nat)
         words.

(** ** [re.sub] *)

(** [re.sub(pattern, repl, s)] for a pattern that matches no empty string.
    [match_len t] is the length of the match of the pattern at the start of
    [t], when there is one. The text is read from the left; a match is
    replaced by [repl] and reading goes on after it ([skip] characters of
    the match are still to be passed over). *)
Fixpoint re_sub_from (match_len : string -> option nat) (repl : string)
    (skip : nat) (s : string) : string :=
  match s with
  | EmptyString => EmptyString
  | String c s' =>
      match skip with
      | S k => re_sub_from match_len repl k s'
      | O =>
          match match_len s with
          | Some (S k) => repl ++ re_sub_from match_len repl k s'
          | _ => String c (re_sub_from match_len repl 0 s')
          end
      end
  end.

Definition re_sub (match_len : string -> option nat) (repl s : string)
    : string :=
  re_sub_from match_len repl 0 s.

(** The number of characters before the first [c] of [s], when [s] has one. *)
Fixpoint index_of (c : ascii) (s : string) : option nat :=
  match s with
  | EmptyString => None
  | String x s' => if Ascii.eqb x c then Some 0%nat else option_map S (index_of c s')
  end.

(** [<[^>]+>] : a ['<'], one character or more that are not ['>'], a ['>']. *)
Definition match_tag (s : string) : option nat :=
  match s with
  | String c s' =>
      if Ascii.eqb c "<" then
        match index_of ">" s' with
        | Some (S n) => Some (S n + 2)%nat
        | _ => None
        end
      else None
  | EmptyString => None
  end.

(** The number of characters before the first occurrence of [close] in [s];
    without [dotall], none of them may be a newline. *)
Fixpoint find_close (dotall : bool) (close s : string) : option nat :=
  if prefix close s then Some 0%nat
  else
    match s with
    | EmptyString => None
    | String c s' =>
        if negb dotall && Ascii.eqb c nl then None
        else option_map S (find_close dotall close s')
    end.

(** [open.*?close] for two literals: [open], then as few characters as
    possible, then [close]. *)
Definition match_lazy (dotall : bool) (open close s : string) : option nat :=
  if prefix open s then
    match find_close dotall close
                     (substring (String.length open) (String.length s) s) with
    | Some n => Some (String.length open + n + String.length close)%nat
    | None => None
    end
  else None.

(** A literal pattern. *)
Definition match_literal (lit s : string) : option nat :=
  if prefix lit s then Some (String.length lit) else None.

(** The length of the longest prefix of [s] whose characters satisfy [p]. *)
Fixpoint run_length (p : ascii -> bool) (s : string) : nat :=
  match s with
  | EmptyString => 0
  | String c s' => if p c then S (run_length p s') else 0
  end.

(** [\[\d+\]] *)
Definition match_reference (s : string) : option nat :=
  match s with
  | String c s' =>
      if Ascii.eqb c "[" then
        let digits := run_length is_digit s' in
        match digits with
        | O => None
        | S _ =>
            if prefix "]" (substring digits (String.length s') s')
            then Some (digits + 2)%nat
            else None
        end
      else None
  | EmptyString => None
  end.

(** [\s+] *)
Definition match_spaces (s : string) : option nat :=
  match run_length is_space s with
  | O => None
  | n => Some n
  end.

(** ** [clean_and_extract_content], lines 97-118 *)

Definition strip_tags (raw_text : string) : string :=
  re_sub match_tag "" raw_text.

Definition drop_scripts (s : string) : string :=
  re_sub (match_lazy true "<script" "</script>") "" s.

Definition drop_styles (s : string) : string :=
  re_sub (match_lazy true "<style" "</style>") "" s.

Definition drop_artifacts (s : string) : string :=
  let s := re_sub (match_literal "[edit]") "" s in
  let s := re_sub (match_literal "[citation needed]") "" s in
  let s := re_sub match_reference "" s in
  re_sub (match_lazy false "Jump to navigation" "Jump to search") "" s.

Definition squeeze_spaces (s : string) : string :=
  re_sub match_spaces " " s.

Definition clean_and_extract_content (raw_text : string) : string :=
  let clean_text := strip_tags raw_text in
  let clean_text := drop_scripts clean_text in
  let clean_text := drop_styles clean_text in
  let clean_text := drop_artifacts clean_text in
  let clean_text := squeeze_spaces clean_text in
  strip clean_text.

(** ** [extract_relevant_info], lines 120-160 *)

(** [.], [!] and [?] *)
Definition is_terminator (c : ascii) : bool :=
  Ascii.eqb c "." || Ascii.eqb c "!" || Ascii.eqb c "?".

(** [re.split(r'[.!?]+', text)] *)
Fixpoint split_sentences (text : string) : list string :=
  match text with
  | EmptyString => [EmptyString]
  | String c text' =>
      if is_terminator c then
        match text' with
        | String c' _ =>
            if is_terminator c' then split_sentences text'
            else EmptyString :: split_sentences text'
        | EmptyString => EmptyString :: split_sentences text'
        end
      else
        match split_sentences text' with
        | piece :: pieces => String c piece :: pieces
        | [] => [String c EmptyString]
        end
  end.

(** Lines 131-139: the loop that fills [scored_sentences]. *)
Definition score_step (task_keywords : list string)
    (scored_sentences : list (Z * string)) (sentence : string)
    : list (Z * string) :=
  let sentence := strip sentence in
  if (String.length sentence <? 20)%nat || (300 <? String.length sentence)%nat
  then scored_sentences
  else
    let score := score_sentence_relevance sentence task_keywords in
    if (0 <? score)%Z then scored_sentences ++ [(score, sentence)]
    else scored_sentences.

Definition scored_sentences (sentences task_keywords : list string)
    : list (Z * string) :=
  fold_left (score_step task_keywords) sentences [].

(** [list.sort(key=lambda x: x[0], reverse=True)]: by decreasing score,
    entries of equal score staying in their order. *)
Fixpoint insert_by_score (x : Z * string) (sorted : list (Z * string))
    : list (Z * string) :=
  match sorted with
  | [] => [x]
  | y :: sorted' =>
      if (fst x <=? fst y)%Z then y :: insert_by_score x sorted'
      else x :: sorted
  end.

Definition sort_by_score (l : list (Z * string)) : list (Z * string) :=
  fold_left (fun sorted x => insert_by_score x sorted) l [].

(** Line 143. *)
Definition top_sentences (sentences task_keywords : list string)
    : list string :=
  map snd (firstn 5 (sort_by_score (scored_sentences sentences task_keywords))).

(** Lines 149-155: the fallback loop, which stops at three sentences. *)
Fixpoint fallback_loop (sentences fallback_sentences : list string)
    : list string :=
  match sentences with
  | [] => fallback_sentences
  | sentence :: rest =>
      let sentence := strip sentence in
      if (30 <? String.length sentence)%nat
         && (String.length sentence <? 200)%nat
      then
        let fallback_sentences := fallback_sentences ++ [sentence] in
        if (3 <=? List.length fallback_sentences)%nat then fallback_sentences
        else fallback_loop rest fallback_sentences
      else fallback_loop rest fallback_sentences
  end.

Definition bullet (sentence : string) : string := "• " ++ sentence.

Definition extract_relevant_info (text task_description : string) : string :=
  let task_keywords := extract_keywords_from_task task_description in
  let sentences := split_sentences text in
  let top := top_sentences sentences task_keywords in
  match top with
  | _ :: _ =>
      "📋 **Key Information:**" ++ nls
        ++ join nls (map (fun sentence => bullet (strip sentence)) top)
  | [] =>
      let fallback_sentences := fallback_loop (firstn 10 sentences) [] in
      match fallback_sentences with
      | _ :: _ =>
          "📄 **Summary:**" ++ nls ++ join nls (map bullet fallback_sentences)
      | [] =>
          if (500 <? String.length text)%nat
          then "📄 **Content:**" ++ nls ++ take 500 text ++ "..."
          else text
      end
  end.

(** Lines 85-95. Neither step raises, so the [except] branch is not taken. *)
Definition format_output (raw_output task_description : string) : string :=
  let clean_text := clean_and_extract_content raw_output in
  extract_relevant_info clean_text task_description.

(** ** Shapes of texts *)

(** The pattern matches at no position of [t]. *)
Fixpoint matches_nowhere (match_len : string -> option nat) (t : string)
    : bool :=
  match t with
  | EmptyString => true
  | String _ t' =>
      match match_len t with
      | Some (S _) => false
      | _ => matches_nowhere match_len t'
      end
  end.

(** Every whitespace character of [t] is a space that stands before a
    character that is not whitespace ([at_end] tells whether it may also
    stand last). *)
Fixpoint single_spaced (at_end : bool) (t : string) : bool :=
  match t with
  | EmptyString => true
  | String c t' =>
      (if is_space c then
         Ascii.eqb c " " &&
         match t' with
         | String c' _ => negb (is_space c')
         | EmptyString => at_end
         end
       else true)
      && single_spaced at_end t'
  end.

(** [t] does not start with whitespace. *)
Definition starts_clean (t : string) : bool :=
  match t with
  | String c _ => negb (is_space c)
  | EmptyString => true
  end.

(** No whitespace at either end, and single spaces as only whitespace. *)
Definition tidy (t : string) : bool :=
  starts_clean t && single_spaced false t.

(** The scores of [l] never go up from one entry to a later one. *)
Fixpoint descending (l : list (Z * string)) : Prop :=
  match l with
  | [] => True
  | x :: l' => (forall y, In y l' -> (fst y <= fst x)%Z) /\ descending l'
  end.

(** A sentence that the scoring loop keeps: between 20 and 300 characters
    and of positive score. *)
Definition qualifies (task_keywords : list string) (sentence : string)
    : Prop :=
  (20 <= String.length sentence <= 300)%nat /\
  (0 < score_sentence_relevance sentence task_keywords)%Z.

End AgentText.

(* ================================================================== *)
(** * src/agent.py: asking for commands and running them *)

Module AgentRun.

Import Agent PyText AgentText.
Open Scope string_scope.
Open Scope list_scope.
Open Scope py_scope.

(** What [subprocess.run(..., capture_output=True, text=True)] returns. *)
Record completed_process : Type := CompletedProcess {
  stdout : string;
  stderr : string
}.

(** The two collaborators: [client.messages.create], which returns the texts
    of the content blocks of the response or raises, and [subprocess.run],
    whose answer may depend on the number of commands run before. *)
Record world : Type := World {
  messages_create : string -> pyexn + list string;
  subprocess_run : nat -> string -> pyexn + completed_process
}.

(** Lines printed on the standard output, by template. *)
Inductive stdout_line : Type :=
| MsgPerforming (task_description : string)
| MsgInstructions (instructions : string)
| MsgExecuting (command : string)
| MsgResults (formatted_output : string)
| MsgStderr (text : string)
| MsgCompleted
| MsgTheEnd
| MsgErrorExecuting (e : pyexn).

Inductive event : Type :=
| EvPrint (line : stdout_line)
| EvMessages (prompt : string) (resp : pyexn + list string)
| EvSubprocess (command : string) (resp : pyexn + completed_process).

Definition print (l : stdout_line) : M event unit := emit (EvPrint l).

(** Lines 24-31: the prompt, a text of eight lines indented by twelve
    spaces. *)
Definition prompt_for (task_description : string) : string :=
  let indent := repeat_str " " 12 in
  nls ++ indent ++ "You are a helpful AI agent that can perform terminal tasks."
  ++ nls ++ indent
  ++ nls ++ indent ++ "Task: " ++ task_description
  ++ nls ++ indent
  ++ nls ++ indent
  ++ "Please provide the exact terminal commands needed to complete this task."
  ++ nls ++ indent ++ "Only provide the commands, no explanations."
  ++ nls ++ indent.

(** Lines 20-48. [response.content[0].text] raises [IndexError] on a
    response without content; every exception becomes the returned text. *)
Definition perform_task (w : world) (task_description : string)
    : M event string :=
  try_except
    (let prompt := prompt_for task_description in
     let resp := messages_create w prompt in
     content <- call (EvMessages prompt resp) resp ;;
     match content with
     | text :: _ => ret text
     | [] => raise (PyExn "IndexError" "list index out of range")
     end)
    (fun e => ret ("Error calling Claude: " ++ exn_msg e)%string).

(** Lines 66-77: the loop over the lines of the instructions; [calls] counts
    the commands run so far. *)
Fixpoint run_commands (w : world) (task_description : string) (calls : nat)
    (commands : list string) : M event unit :=
  match commands with
  | [] => ret tt
  | command :: rest =>
      let command := strip command in
      if negb (String.length command =? 0)%nat && negb (prefix "#" command)
      then
        print (MsgExecuting command) ;;;
        let resp := subprocess_run w calls command in
        result <- call (EvSubprocess command resp) resp ;;
        (if negb (String.length (stdout result) =? 0)%nat
         then print (MsgResults (format_output (stdout result)
                                               task_description))
         else ret tt) ;;;
        (if negb (String.length (stderr result) =? 0)%nat
         then print (MsgStderr (stderr result))
         else ret tt) ;;;
        run_commands w task_description (S calls) rest
      else run_commands w task_description calls rest
  end.

(** Lines 50-83. *)
Definition execute_task (w : world) (task_description : string)
    : M event unit :=
  print (MsgPerforming task_description) ;;;
  instructions <- perform_task w task_description ;;
  print (MsgInstructions instructions) ;;;
  try_except
    (let commands := split nl (strip instructions) in
     run_commands w task_description 0 commands ;;;
     print MsgCompleted ;;;
     print MsgTheEnd)
    (fun e => print (MsgErrorExecuting e)).

(** The commands handed to [subprocess.run] in a trace, in order. *)
Fixpoint commands_run (tr : list event) : list string :=
  match tr with
  | [] => []
  | EvSubprocess command _ :: tr' => command :: commands_run tr'
  | _ :: tr' => commands_run tr'
  end.


(** A world in which the call to the model raises [e] and every command
    prints [out]. *)
Definition failing_api (e : pyexn) (out : string) : world :=
  {| messages_create := fun _ => inl e;
     subprocess_run := fun _ _ => inr (CompletedProcess out EmptyString) |}.

End AgentRun.

(* ================================================================== *)
(** * Integers in binary64

    Python adds and compares [float]s in IEEE 754 binary64, rounding to
    nearest even. On integers below [2^53] both are exact: this is shown
    from the specification of the primitive operations ([FloatAxioms]). *)

Module Binary64.

Import PwsSearch.

(** [m] with [k] zero bits appended: [m * 2^k]. *)
Definition shl (m : positive) (k : nat) : positive := Nat.iter k xO m.

(** The number of bits of [n]. *)
Definition dig (n : positive) : nat := Pos.to_nat (digits2_pos n).

(** The binary64 number that holds the integer [n < 2^53]: a mantissa of 53
    bits and the exponent that goes with it. *)
Definition canon (n : positive) : spec_float :=
  S754_finite false (shl n (53 - dig n)) (Z.of_nat (dig n) - 53).

Lemma shl_S m k : shl m (S k) = xO (shl m k).
Proof. reflexivity. Qed.

Lemma shl_shl m j k : shl (shl m j) k = shl m (k + j).
Proof. unfold shl. symmetry. apply Nat.iter_add. Qed.

Lemma shl_Z m k : Zpos (shl m k) = (Zpos m * 2 ^ Z.of_nat k)%Z.
Proof.
  induction k as [| k IH].
  - cbn. lia.
  - rewrite shl_S, Nat2Z.inj_succ, Z.pow_succ_r by lia.
    rewrite Pos2Z.inj_xO, IH. lia.
Qed.

Lemma shl_plus a b k : (shl a k + shl b k)%positive = shl (a + b) k.
Proof.
  apply Pos2Z.inj. rewrite Pos2Z.inj_add, !shl_Z, Pos2Z.inj_add. lia.
Qed.

Lemma shl_compare a b k : (shl a k ?= shl b k)%positive = (a ?= b)%positive.
Proof.
  induction k as [| k IH]; [reflexivity |].
  rewrite !shl_S, Pos.compare_xO_xO. exact IH.
Qed.

Lemma digits2_dig n : Zpos (digits2_pos n) = Z.of_nat (dig n).
Proof. unfold dig. symmetry. apply positive_nat_Z. Qed.

Lemma dig_pos n : (1 <= dig n)%nat.
Proof. unfold dig. lia. Qed.

Lemma dig_shl m k : dig (shl m k) = (dig m + k)%nat.
Proof.
  induction k as [| k IH]; [cbn; lia |].
  rewrite shl_S. unfold dig in *. cbn [digits2_pos].
  rewrite Pos2Nat.inj_succ, IH. lia.
Qed.

Lemma dig_bounds n :
  (2 ^ (Z.of_nat (dig n) - 1) <= Zpos n < 2 ^ Z.of_nat (dig n))%Z.
Proof.
  unfold dig.
  induction n as [n IH | n IH |]; cbn [digits2_pos].
  - rewrite Pos2Nat.inj_succ, Nat2Z.inj_succ.
    replace (Z.succ (Z.of_nat (Pos.to_nat (digits2_pos n))) - 1)%Z
      with (Z.succ (Z.of_nat (Pos.to_nat (digits2_pos n)) - 1)) by lia.
    rewrite !Z.pow_succ_r by lia. lia.
  - rewrite Pos2Nat.inj_succ, Nat2Z.inj_succ.
    replace (Z.succ (Z.of_nat (Pos.to_nat (digits2_pos n))) - 1)%Z
      with (Z.succ (Z.of_nat (Pos.to_nat (digits2_pos n)) - 1)) by lia.
    rewrite !Z.pow_succ_r by lia. lia.
  - cbn. lia.
Qed.

Lemma dig_lt a b : (dig a < dig b)%nat -> (a < b)%positive.
Proof.
  intros H.
  pose proof (dig_bounds a) as [_ Ha]. pose proof (dig_bounds b) as [Hb _].
  assert (2 ^ Z.of_nat (dig a) <= 2 ^ (Z.of_nat (dig b) - 1))%Z
    by (apply Z.pow_le_mono_r; lia).
  lia.
Qed.

Lemma dig_mono a b : (a <= b)%positive -> (dig a <= dig b)%nat.
Proof.
  intros H. destruct (Nat.le_gt_cases (dig a) (dig b)) as [L | G];
    [assumption |].
  apply dig_lt in G. lia.
Qed.

Lemma dig_le_53 n : (Zpos n < 2 ^ 53)%Z -> (dig n <= 53)%nat.
Proof.
  intros H. pose proof (dig_bounds n) as [L _].
  destruct (Nat.le_gt_cases (dig n) 53) as [K | K]; [assumption |].
  exfalso.
  assert (2 ^ 53 <= 2 ^ (Z.of_nat (dig n) - 1))%Z
    by (apply Z.pow_le_mono_r; lia).
  lia.
Qed.

Lemma pos_iter_shl m d : Pos.iter xO m d = shl m (Pos.to_nat d).
Proof. apply Pos2Nat.inj_iter. Qed.

Lemma iter_pos_nat {A} (f : A -> A) p : forall x,
  iter_pos f p x = Nat.iter (Pos.to_nat p) f x.
Proof.
  induction p as [p IH | p IH |]; intros x; cbn [iter_pos].
  - rewrite !IH, Pos2Nat.inj_xI, <- Nat.iter_add, <- Nat.iter_succ_r.
    f_equal. lia.
  - rewrite !IH, Pos2Nat.inj_xO, <- Nat.iter_add. f_equal. lia.
  - reflexivity.
Qed.

Lemma shr_exact m k :
  Nat.iter k shr_1 (Build_shr_record (Zpos (shl m k)) false false)
  = Build_shr_record (Zpos m) false false.
Proof.
  induction k as [| k IH]; [reflexivity |].
  rewrite Nat.iter_succ_r, shl_S. cbn [shr_1 orb]. exact IH.
Qed.

Lemma shl_align_down m e e' :
  (e' <= e)%Z -> shl_align m e e' = (shl m (Z.to_nat (e - e')), e').
Proof.
  intros H. unfold shl_align.
  destruct (e' - e)%Z as [| d | d] eqn:D; try lia.
  - replace (e - e')%Z with 0%Z by lia. cbn. f_equal. lia.
  - rewrite pos_iter_shl. do 2 f_equal. lia.
Qed.

Lemma shl_align_up m e e' : (e <= e')%Z -> shl_align m e e' = (m, e).
Proof.
  intros H. unfold shl_align.
  destruct (e' - e)%Z as [| d | d] eqn:D; try lia; reflexivity.
Qed.

Lemma fexp_53 d : (1 <= d <= 1000)%Z -> fexp 53 1024 d = (d - 53)%Z.
Proof. intros H. unfold fexp, emin. lia. Qed.

(** No shift is due on a mantissa of 53 bits. *)
Lemma shr_fexp_53 m e :
  dig m = 53%nat -> (-1074 <= e)%Z ->
  shr_fexp 53 1024 (Zpos m) e loc_Exact
  = (Build_shr_record (Zpos m) false false, e).
Proof.
  intros D He. unfold shr_fexp.
  cbn [Zdigits2 shr_record_of_loc]. rewrite digits2_dig, D.
  replace (fexp 53 1024 (Z.of_nat 53 + e) - e)%Z with 0%Z
    by (unfold fexp, emin; lia).
  reflexivity.
Qed.

(** Low zero bits in excess are shifted out, exactly. *)
Lemma shr_fexp_shifted n k :
  (dig n <= 53)%nat -> (53 < dig n + k)%nat -> (k <= 53)%nat ->
  shr_fexp 53 1024 (Zpos (shl n k)) (- Z.of_nat k) loc_Exact
  = (Build_shr_record (Zpos (shl n (53 - dig n))) false false,
     (Z.of_nat (dig n) - 53)%Z).
Proof.
  intros Dn G Hk. unfold shr_fexp.
  cbn [Zdigits2 shr_record_of_loc]. rewrite digits2_dig, dig_shl.
  rewrite fexp_53 by lia.
  remember (dig n + k - 53)%nat as j eqn:J.
  replace (Z.of_nat (dig n + k) + - Z.of_nat k - 53 - - Z.of_nat k)%Z
    with (Z.of_nat j) by lia.
  destruct j as [| j]; [lia |].
  cbn [Z.of_nat shr].
  rewrite iter_pos_nat, SuccNat2Pos.id_succ.
  replace (shl n k) with (shl (shl n (53 - dig n)) (S j))
    by (rewrite shl_shl; f_equal; lia).
  rewrite shr_exact. f_equal. lia.
Qed.

(** A mantissa of 53 bits with an exponent in range is left as it is. *)
Lemma round_aux_exact s m e :
  dig m = 53%nat -> (-1074 <= e <= 971)%Z ->
  binary_round_aux 53 1024 s (Zpos m) e loc_Exact = S754_finite s m e.
Proof.
  intros D He. unfold binary_round_aux.
  rewrite shr_fexp_53 by (assumption || lia).
  cbn [shr_m loc_of_shr_record round_nearest_even].
  rewrite shr_fexp_53 by (assumption || lia).
  cbn [shr_m].
  replace (e <=? 1024 - 53)%Z with true by (symmetry; apply Z.leb_le; lia).
  reflexivity.
Qed.

Lemma round_aux_first s mx ex mx' ex' :
  shr_fexp 53 1024 mx ex loc_Exact = shr_fexp 53 1024 mx' ex' loc_Exact ->
  binary_round_aux 53 1024 s mx ex loc_Exact
  = binary_round_aux 53 1024 s mx' ex' loc_Exact.
Proof. intros E. unfold binary_round_aux. rewrite E. reflexivity. Qed.

(** The integer [n], written with [k] more low bits and the exponent [-k],
    normalises to [canon n]. *)
Lemma normalize_shifted n k :
  (dig n <= 53)%nat -> (k <= 53)%nat ->
  binary_normalize 53 1024 (Zpos (shl n k)) (- Z.of_nat k) false = canon n.
Proof.
  intros Dn Hk. pose proof (dig_pos n) as D1.
  assert (Dc : dig (shl n (53 - dig n)) = 53%nat) by (rewrite dig_shl; lia).
  cbn [binary_normalize]. unfold binary_round.
  rewrite digits2_dig, dig_shl.
  rewrite fexp_53 by lia.
  destruct (Nat.le_gt_cases (dig n + k) 53) as [L | G].
  - (* not enough bits yet: shift left *)
    rewrite shl_align_down by lia. rewrite shl_shl.
    replace (Z.to_nat (- Z.of_nat k - (Z.of_nat (dig n + k) + - Z.of_nat k - 53)) + k)%nat
      with (53 - dig n)%nat by lia.
    rewrite round_aux_exact by (assumption || lia).
    unfold canon. f_equal. lia.
  - (* too many bits: the low ones are zeros and are shifted out *)
    rewrite shl_align_up by lia.
    rewrite (round_aux_first false _ _ (Zpos (shl n (53 - dig n)))
               (Z.of_nat (dig n) - 53)%Z).
    + rewrite round_aux_exact by (assumption || lia). reflexivity.
    + rewrite shr_fexp_shifted, shr_fexp_53 by (assumption || lia).
      reflexivity.
Qed.

(** ** Addition and comparison of integers held in binary64 *)

Lemma SFadd_canon a b :
  (dig (a + b) <= 53)%nat ->
  SFadd 53 1024 (canon a) (canon b) = canon (a + b).
Proof.
  intros D.
  assert (Da : (dig a <= dig (a + b))%nat) by (apply dig_mono; lia).
  assert (Db : (dig b <= dig (a + b))%nat) by (apply dig_mono; lia).
  pose proof (dig_pos a) as Pa. pose proof (dig_pos b) as Pb.
  unfold canon at 1 2. cbn [SFadd cond_Zopp].
  set (ez := Z.min (Z.of_nat (dig a) - 53) (Z.of_nat (dig b) - 53)).
  rewrite !shl_align_down by (unfold ez; lia).
  cbn [fst]. rewrite !shl_shl.
  set (k := (53 - Nat.min (dig a) (dig b))%nat).
  replace (Z.to_nat (Z.of_nat (dig a) - 53 - ez) + (53 - dig a))%nat
    with k by (unfold ez, k; lia).
  replace (Z.to_nat (Z.of_nat (dig b) - 53 - ez) + (53 - dig b))%nat
    with k by (unfold ez, k; lia).
  rewrite <- Pos2Z.inj_add, shl_plus.
  replace ez with (- Z.of_nat k)%Z by (unfold ez, k; lia).
  apply normalize_shifted; [assumption | unfold k; lia].
Qed.

Lemma SFcompare_canon a b :
  (dig a <= 53)%nat -> (dig b <= 53)%nat ->
  SFcompare (canon a) (canon b) = Some (a ?= b)%positive.
Proof.
  intros Da Db. unfold canon. cbn [SFcompare]. f_equal.
  destruct (Z.compare_spec (Z.of_nat (dig a) - 53) (Z.of_nat (dig b) - 53))
    as [E | L | G].
  - rewrite Pos.compare_cont_spec. cbn [Pos.switch_Eq].
    replace (dig b) with (dig a) by lia.
    rewrite shl_compare.
    destruct (a ?= b)%positive; reflexivity.
  - symmetry. apply Pos.compare_lt_iff, dig_lt. lia.
  - symmetry. apply Pos.compare_gt_iff, dig_lt. lia.
Qed.

(** ** Whole numbers of seconds as [float] *)

Lemma Prim2SF_secs_pos n :
  (Zpos n < 2 ^ 53)%Z -> Prim2SF (secs (Zpos n)) = canon n.
Proof.
  intros H. unfold secs. rewrite of_uint63_spec, Uint63.of_Z_spec.
  rewrite Z.mod_small by (change Uint63.wB with (2 ^ 63)%Z; lia).
  change prec with 53%Z. change emax with 1024%Z.
  apply (normalize_shifted n 0); [apply dig_le_53; assumption | lia].
Qed.

Lemma Prim2SF_secs_0 : Prim2SF (secs 0) = S754_zero false.
Proof. reflexivity. Qed.

Lemma secs_add a b :
  (0 <= a)%Z -> (0 <= b)%Z -> (a + b < 2 ^ 53)%Z ->
  (secs a + secs b)%float = secs (a + b).
Proof.
  intros Ha Hb H. apply Prim2SF_inj. rewrite FloatAxioms.add_spec.
  unfold SF64add. change prec with 53%Z. change emax with 1024%Z.
  destruct a as [| a | a]; [| | lia]; destruct b as [| b | b]; try lia.
  - reflexivity.
  - rewrite Prim2SF_secs_0, Z.add_0_l, Prim2SF_secs_pos by lia. reflexivity.
  - rewrite Prim2SF_secs_0, Z.add_0_r, Prim2SF_secs_pos by lia. reflexivity.
  - rewrite <- Pos2Z.inj_add, !Prim2SF_secs_pos by lia.
    apply SFadd_canon, dig_le_53. lia.
Qed.

Lemma secs_compare a b :
  (0 <= a < 2 ^ 53)%Z -> (0 <= b < 2 ^ 53)%Z ->
  SFcompare (Prim2SF (secs a)) (Prim2SF (secs b)) = Some (a ?= b)%Z.
Proof.
  intros Ha Hb.
  destruct a as [| a | a]; [| | lia]; destruct b as [| b | b]; try lia.
  - reflexivity.
  - rewrite Prim2SF_secs_0, Prim2SF_secs_pos by lia. reflexivity.
  - rewrite Prim2SF_secs_0, Prim2SF_secs_pos by lia. reflexivity.
  - rewrite !Prim2SF_secs_pos by lia.
    apply SFcompare_canon; apply dig_le_53; lia.
Qed.

Lemma secs_ltb a b :
  (0 <= a < 2 ^ 53)%Z -> (0 <= b < 2 ^ 53)%Z ->
  (secs a <? secs b)%float = (a <? b)%Z.
Proof.
  intros Ha Hb. rewrite FloatAxioms.ltb_spec. unfold SFltb, Z.ltb.
  rewrite secs_compare by assumption. reflexivity.
Qed.

Lemma secs_leb a b :
  (0 <= a < 2 ^ 53)%Z -> (0 <= b < 2 ^ 53)%Z ->
  (secs a <=? secs b)%float = (a <=? b)%Z.
Proof.
  intros Ha Hb. rewrite FloatAxioms.leb_spec. unfold SFleb, Z.leb.
  rewrite secs_compare by assumption. reflexivity.
Qed.

(** ** The ceiling of a quotient *)

Local Open Scope Z_scope.

(** [ceil_div x y] is the least [q] with [x <= q * y]. *)
Lemma ceil_div_spec x y :
  0 < y -> (ceil_div x y - 1) * y < x <= ceil_div x y * y.
Proof.
  intros Hy. unfold ceil_div.
  pose proof (Z.div_mod (x + y - 1) y ltac:(lia)) as E.
  pose proof (Z.mod_pos_bound (x + y - 1) y Hy) as B.
  nia.
Qed.

Lemma ceil_div_unique x y q :
  0 < y -> (q - 1) * y < x <= q * y -> ceil_div x y = q.
Proof.
  intros Hy Hq. pose proof (ceil_div_spec x y Hy) as Hc. nia.
Qed.

Lemma ceil_div_scale x y c :
  0 < y -> 0 < c -> ceil_div (x * c) (y * c) = ceil_div x y.
Proof.
  intros Hy Hc. apply ceil_div_unique; [nia |].
  pose proof (ceil_div_spec x y Hy) as H. nia.
Qed.

Lemma ceil_ratio_secs b p :
  0 < b < 2 ^ 53 -> 0 < p < 2 ^ 53 ->
  ceil_ratio (secs b) (secs p) = ceil_div b p.
Proof.
  intros Hb Hp.
  destruct b as [| b | b]; try lia. destruct p as [| p | p]; try lia.
  unfold ceil_ratio. rewrite !Prim2SF_secs_pos by lia. unfold canon.
  pose proof (dig_le_53 b ltac:(lia)) as Db.
  pose proof (dig_le_53 p ltac:(lia)) as Dp.
  cbv zeta. rewrite !shl_Z.
  set (e := Z.min (Z.of_nat (dig b) - 53) (Z.of_nat (dig p) - 53)).
  rewrite <- !Z.mul_assoc, <- !Z.pow_add_r by (unfold e; lia).
  replace (Z.of_nat (53 - dig b) + (Z.of_nat (dig b) - 53 - e)) with (- e)
    by lia.
  replace (Z.of_nat (53 - dig p) + (Z.of_nat (dig p) - 53 - e)) with (- e)
    by lia.
  apply ceil_div_scale; [lia |].
  apply Z.pow_pos_nonneg; unfold e; lia.
Qed.

End Binary64.

(* ================================================================== *)
(** * Properties of [PwsSearch.run_search] *)

Module PwsSearchFacts.

Import PwsSearch Binary64.
Open Scope string_scope.
Open Scope list_scope.
Open Scope py_scope.

(** ** Comparisons with [0.0] *)

Lemma Prim2SF_zero : Prim2SF 0%float = S754_zero false.
Proof. reflexivity. Qed.

(** A duration that is [<= 0] is not [> 0]: the loop is not entered. *)
Lemma leb_zero_not_ltb (x : float) :
  (x <=? 0)%float = true -> (0 <? x)%float = false.
Proof.
  rewrite leb_spec, ltb_spec, Prim2SF_zero.
  destruct (Prim2SF x) as [s | s | | s m e]; try destruct s; cbn;
    congruence.
Qed.

(** ** The tests on the status string *)

Lemma is_pending_tests s :
  is_pending s = true ->
  (s =? "completed") = false /\ (s =? "failed") = false /\
  (s =? "cancelled") = false /\ (s =? "cancelling") = false.
Proof.
  unfold is_pending. rewrite negb_true_iff, !orb_false_iff. tauto.
Qed.

(** Every status string falls in exactly one of the loop's branches. *)
Lemma status_cases s :
  s = "completed" \/ s = "failed" \/ s = "cancelled" \/ s = "cancelling"
  \/ is_pending s = true.
Proof.
  unfold is_pending.
  destruct (String.eqb_spec s "completed"); [tauto |].
  destruct (String.eqb_spec s "failed"); [tauto |].
  destruct (String.eqb_spec s "cancelled"); [tauto |].
  destruct (String.eqb_spec s "cancelling"); [tauto |].
  right; right; right; right. reflexivity.
Qed.

(** Take one event off the front of [pre] in [H : l = pre ++ x :: post]. *)
Ltac peel H pre :=
  destruct pre as [| ? pre]; cbn [app] in H;
  [ try discriminate H
  | first [ discriminate H | injection H as ? H; subst ] ].

(** ** One turn of the loop *)

Section Loop.

Variable json_loads : string -> pyexn + pyval.
Variable c : client.
Variable run_id : string.
Variables max_wait_time poll_interval : float.

Notation loop fuel := (poll_loop json_loads fuel c run_id max_wait_time poll_interval).

(** Budget used up: the timeout line, then [sys.exit(1)]. *)
Lemma poll_loop_timeout fuel polls elapsed :
  (elapsed <? max_wait_time)%float = false ->
  loop (S fuel) polls elapsed = ([EvPrint (MsgTimeout max_wait_time)], SysExit 1).
Proof. intros H. cbn. rewrite H. reflexivity. Qed.

Lemma poll_loop_retrieve_raises fuel polls elapsed e :
  (elapsed <? max_wait_time)%float = true ->
  retrieve_resp c polls run_id = inl e ->
  loop (S fuel) polls elapsed = ([EvRetrieve polls run_id (inl e)], Exc e).
Proof. intros H R. cbn. rewrite H, R. reflexivity. Qed.

Lemma poll_loop_failed fuel polls elapsed st :
  (elapsed <? max_wait_time)%float = true ->
  retrieve_resp c polls run_id = inr st ->
  status st = "failed" ->
  loop (S fuel) polls elapsed =
    ([EvRetrieve polls run_id (inr st); EvPrint (MsgTaskFailed (getattr_error st))],
     SysExit 1).
Proof. intros H R S. cbn. rewrite H, R. cbn. rewrite S. reflexivity. Qed.

Lemma poll_loop_cancelled fuel polls elapsed st :
  (elapsed <? max_wait_time)%float = true ->
  retrieve_resp c polls run_id = inr st ->
  status st = "cancelled" \/ status st = "cancelling" ->
  loop (S fuel) polls elapsed =
    ([EvRetrieve polls run_id (inr st); EvPrint MsgCancelled], SysExit 1).
Proof.
  intros H R [S | S]; cbn; rewrite H, R; cbn; rewrite S; reflexivity.
Qed.

(** A status that is none of the four tested for: status line, sleep, and
    the loop goes on with one more poll counted and [poll_interval] added. *)
Lemma poll_loop_pending fuel polls elapsed st :
  (elapsed <? max_wait_time)%float = true ->
  retrieve_resp c polls run_id = inr st ->
  is_pending (status st) = true ->
  sleep_ok poll_interval = true ->
  loop (S fuel) polls elapsed =
    (EvRetrieve polls run_id (inr st) :: EvPrint (MsgStatus (status st))
       :: EvSleep poll_interval
       :: fst (loop fuel (S polls) (elapsed + poll_interval)%float),
     snd (loop fuel (S polls) (elapsed + poll_interval)%float)).
Proof.
  intros H R P Sl. apply is_pending_tests in P as (P1 & P2 & P3 & P4).
  cbn [poll_loop]. rewrite H, R. cbn [call bind]. rewrite P1, P2, P3, P4.
  unfold time_sleep. rewrite Sl. cbn.
  destruct (poll_loop _ _ _ _ _ _ _ _) as [t [d | e | k | ]]; reflexivity.
Qed.

(** The decode step leaves no event and always yields a value. *)
Lemma decode_output_eq result :
  decode_output json_loads result = ([], Val (decoded json_loads result)).
Proof.
  unfold decode_output, decoded, payload_of.
  destruct (output result) as [v | v]; destruct v; try reflexivity;
    destruct (json_loads s); reflexivity.
Qed.

Lemma poll_loop_completed fuel polls elapsed st :
  (elapsed <? max_wait_time)%float = true ->
  retrieve_resp c polls run_id = inr st ->
  status st = "completed" ->
  loop (S fuel) polls elapsed =
    ([EvRetrieve polls run_id (inr st); EvPrint MsgCompleted;
      EvResult run_id (result_resp c run_id)],
     match result_resp c run_id with
     | inr result =>
         Val (SearchDict run_id "completed" (decoded json_loads result))
     | inl e => Exc e
     end).
Proof.
  intros H R S. cbn [poll_loop]. rewrite H, R. cbn [call bind]. rewrite S.
  cbn. destruct (result_resp c run_id) as [e | result]; cbn.
  - reflexivity.
  - rewrite decode_output_eq. reflexivity.
Qed.

Lemma poll_loop_sleep_raises fuel polls elapsed st :
  (elapsed <? max_wait_time)%float = true ->
  retrieve_resp c polls run_id = inr st ->
  is_pending (status st) = true ->
  sleep_ok poll_interval = false ->
  loop (S fuel) polls elapsed =
    ([EvRetrieve polls run_id (inr st); EvPrint (MsgStatus (status st))],
     Exc (sleep_error poll_interval)).
Proof.
  intros H R P Sl. apply is_pending_tests in P as (P1 & P2 & P3 & P4).
  cbn [poll_loop]. rewrite H, R. cbn [call bind]. rewrite P1, P2, P3, P4.
  unfold time_sleep. rewrite Sl. reflexivity.
Qed.

(** More fuel does not change a run that did not run out of it. *)
Lemma poll_loop_fuel_mono fuel : forall extra polls elapsed,
  snd (loop fuel polls elapsed) <> OutOfFuel ->
  loop (fuel + extra) polls elapsed = loop fuel polls elapsed.
Proof.
  induction fuel as [| fuel IH]; intros extra polls elapsed Hne.
  - cbn in Hne. congruence.
  - change (S fuel + extra) with (S (fuel + extra)).
    destruct (elapsed <? max_wait_time)%float eqn:H.
    2:{ rewrite !poll_loop_timeout by assumption. reflexivity. }
    destruct (retrieve_resp c polls run_id) as [e | st] eqn:R.
    { rewrite !(poll_loop_retrieve_raises _ _ _ _ H R). reflexivity. }
    destruct (status_cases (status st)) as [S | [S | [S | [S | S]]]].
    + rewrite !(poll_loop_completed _ _ _ _ H R S). reflexivity.
    + rewrite !(poll_loop_failed _ _ _ _ H R S). reflexivity.
    + rewrite !(poll_loop_cancelled _ _ _ _ H R (or_introl S)). reflexivity.
    + rewrite !(poll_loop_cancelled _ _ _ _ H R (or_intror S)). reflexivity.
    + destruct (sleep_ok poll_interval) eqn:Sl.
      * rewrite (poll_loop_pending _ _ _ _ H R S Sl) in Hne. cbn [snd] in Hne.
        rewrite !(poll_loop_pending _ _ _ _ H R S Sl).
        rewrite (IH extra _ _ Hne). reflexivity.
      * rewrite !(poll_loop_sleep_raises _ _ _ _ H R S Sl). reflexivity.
Qed.

Lemma pending_poll_inv k :
  pending_poll c run_id max_wait_time poll_interval k = true ->
  (elapsed_after poll_interval k <? max_wait_time)%float = true /\
  (exists st, retrieve_resp c k run_id = inr st /\ is_pending (status st) = true) /\
  sleep_ok poll_interval = true.
Proof.
  unfold pending_poll. rewrite !andb_true_iff. intros [[H P] Sl].
  repeat split; try assumption.
  destruct (retrieve_resp c k run_id) as [e | st]; [discriminate |].
  exists st. split; [reflexivity | assumption].
Qed.

Lemma pending_through_inv n k :
  pending_through c run_id max_wait_time poll_interval n = true ->
  (k < n)%nat ->
  pending_poll c run_id max_wait_time poll_interval k = true.
Proof.
  unfold pending_through. rewrite forallb_forall. intros H Hk.
  apply H, in_seq. lia.
Qed.

(** [n] passes that all reach the end of the loop body, starting at the
    pass number [first]: the loop leaves their trace and carries on from the
    pass [first + n]. *)
Lemma poll_loop_pending_run n : forall fuel first,
  (forall k, (first <= k < first + n)%nat ->
             pending_poll c run_id max_wait_time poll_interval k = true) ->
  loop (n + fuel) first (elapsed_after poll_interval first) =
    (pending_trace c run_id poll_interval first n
       ++ fst (loop fuel (first + n) (elapsed_after poll_interval (first + n))),
     snd (loop fuel (first + n) (elapsed_after poll_interval (first + n)))).
Proof.
  induction n as [| n IH]; intros fuel first Hp.
  - rewrite Nat.add_0_r. cbn [Nat.add pending_trace seq flat_map app].
    apply surjective_pairing.
  - destruct (pending_poll_inv first) as (H & (st & R & P) & Sl).
    { apply Hp. lia. }
    change (S n + fuel) with (S (n + fuel)).
    rewrite (poll_loop_pending _ _ _ _ H R P Sl).
    change (elapsed_after poll_interval first + poll_interval)%float
      with (elapsed_after poll_interval (S first)).
    rewrite (IH fuel (S first)) by (intros k Hk; apply Hp; lia).
    cbn [fst snd]. rewrite Nat.add_succ_r.
    unfold pending_trace. cbn [seq flat_map].
    change (pending_turn c run_id poll_interval first)
      with [EvRetrieve first run_id (retrieve_resp c first run_id);
            EvPrint (MsgStatus (resp_status (retrieve_resp c first run_id)));
            EvSleep poll_interval].
    rewrite R. reflexivity.
Qed.

Lemma poll_loop_pending_through n fuel :
  pending_through c run_id max_wait_time poll_interval n = true ->
  loop (n + fuel) 0 0%float =
    (pending_trace c run_id poll_interval 0 n
       ++ fst (loop fuel n (elapsed_after poll_interval n)),
     snd (loop fuel n (elapsed_after poll_interval n))).
Proof.
  intros Hp.
  apply (poll_loop_pending_run n fuel 0).
  intros k Hk. apply (pending_through_inv n k Hp). lia.
Qed.

(** ** The whole function *)

Lemma run_search_created fuel query processor output_format :
  create_resp c (task_input query) processor = inr run_id ->
  run_search json_loads fuel c query processor output_format
             max_wait_time poll_interval =
    (header query processor run_id
       ++ fst (loop fuel 0 0%float) ++ handler_lines (snd (loop fuel 0 0%float)),
     handled (snd (loop fuel 0 0%float))).
Proof.
  intros C. unfold run_search. rewrite C. cbn.
  destruct (poll_loop _ _ _ _ _ _ _ _) as [t [d | e | k | ]]; cbn;
    rewrite ?app_nil_r; reflexivity.
Qed.

Lemma run_search_create_raises fuel query processor output_format e :
  create_resp c (task_input query) processor = inl e ->
  run_search json_loads fuel c query processor output_format
             max_wait_time poll_interval =
    ([EvPrint (MsgSearching query); EvPrint (MsgProcessor processor);
      EvPrint MsgPleaseWait; EvPrint MsgCreating;
      EvCreate (task_input query) processor (inl e);
      EvPrint (MsgError e); EvPrint (MsgTraceback e)],
     SysExit 1).
Proof. intros C. unfold run_search. rewrite C. reflexivity. Qed.

(** The run after [n] passes that reached the end of the loop body. *)
Lemma run_search_pending_through n fuel query processor output_format :
  create_resp c (task_input query) processor = inr run_id ->
  pending_through c run_id max_wait_time poll_interval n = true ->
  run_search json_loads (n + fuel) c query processor output_format
             max_wait_time poll_interval =
    (header query processor run_id
       ++ pending_trace c run_id poll_interval 0 n
       ++ fst (loop fuel n (elapsed_after poll_interval n))
       ++ handler_lines (snd (loop fuel n (elapsed_after poll_interval n))),
     handled (snd (loop fuel n (elapsed_after poll_interval n)))).
Proof.
  intros C Hp. rewrite (run_search_created _ _ _ _ C).
  rewrite (poll_loop_pending_through _ _ Hp). cbn [fst snd].
  rewrite <- app_assoc. reflexivity.
Qed.

(** ** Where a result fetch can stand in a trace *)

Lemma poll_loop_fetch_guarded fuel : forall polls elapsed pre rid r post,
  fst (loop fuel polls elapsed) = pre ++ EvResult rid r :: post ->
  exists pre' k st,
    pre = pre' ++ [EvRetrieve k run_id (inr st); EvPrint MsgCompleted] /\
    retrieve_resp c k run_id = inr st /\ status st = "completed" /\
    rid = run_id.
Proof.
  induction fuel as [| fuel IH]; intros polls elapsed pre rid r post E.
  - cbn in E. destruct pre; discriminate.
  - destruct (elapsed <? max_wait_time)%float eqn:H.
    2:{ rewrite poll_loop_timeout in E by assumption. cbn [fst] in E.
        do 2 peel E pre. }
    destruct (retrieve_resp c polls run_id) as [e | st] eqn:R.
    { rewrite (poll_loop_retrieve_raises _ _ _ _ H R) in E. cbn [fst] in E.
      do 2 peel E pre. }
    destruct (status_cases (status st)) as [S | [S | [S | [S | S]]]].
    + rewrite (poll_loop_completed _ _ _ _ H R S) in E. cbn [fst] in E.
      do 3 peel E pre.
      * exists [], polls, st. injection E as E1 _ _. auto.
      * destruct pre; discriminate.
    + rewrite (poll_loop_failed _ _ _ _ H R S) in E. cbn [fst] in E.
      do 3 peel E pre.
    + rewrite (poll_loop_cancelled _ _ _ _ H R (or_introl S)) in E.
      cbn [fst] in E. do 3 peel E pre.
    + rewrite (poll_loop_cancelled _ _ _ _ H R (or_intror S)) in E.
      cbn [fst] in E. do 3 peel E pre.
    + destruct (sleep_ok poll_interval) eqn:Sl.
      * rewrite (poll_loop_pending _ _ _ _ H R S Sl) in E. cbn [fst] in E.
        do 3 peel E pre.
        apply IH in E as (pre' & k & st' & -> & R' & S' & ->).
        exists (EvRetrieve polls run_id (inr st)
                  :: EvPrint (MsgStatus (status st))
                  :: EvSleep poll_interval :: pre'), k, st'.
        auto.
      * rewrite (poll_loop_sleep_raises _ _ _ _ H R S Sl) in E.
        cbn [fst] in E. do 3 peel E pre.
Qed.

End Loop.

(** ** Task-level terminal states *)

(** C1 (amended). When the poll loop of [run_search] ends in a task-level
    terminal state after [n] passes that slept and polled again, the function
    returns nothing to its caller: it prints one line to stderr and leaves
    through [sys.exit(1)], which the [except Exception] handler does not
    intercept. This holds when the budget is used up ([elapsed] no longer
    below [max_wait_time]: the timeout line), when the poll reports [failed]
    (the failure line with the error detail or ['Unknown error']) and when it
    reports [cancelled] or [cancelling] (the cancellation line). *)
Theorem C1_terminal_states_exit_the_process :
  forall json_loads c query processor output_format max_wait_time
         poll_interval run_id n fuel,
  create_resp c (task_input query) processor = inr run_id ->
  pending_through c run_id max_wait_time poll_interval n = true ->
  let run :=
    run_search json_loads (n + S fuel) c query processor output_format
               max_wait_time poll_interval in
  let before :=
    header query processor run_id ++ pending_trace c run_id poll_interval 0 n in
  ((elapsed_after poll_interval n <? max_wait_time)%float = false ->
   run = (before ++ [EvPrint (MsgTimeout max_wait_time)], SysExit 1))
  /\
  (forall st,
     (elapsed_after poll_interval n <? max_wait_time)%float = true ->
     retrieve_resp c n run_id = inr st ->
     status st = "failed" ->
     run = (before ++ [EvRetrieve n run_id (inr st);
                       EvPrint (MsgTaskFailed (getattr_error st))],
            SysExit 1))
  /\
  (forall st,
     (elapsed_after poll_interval n <? max_wait_time)%float = true ->
     retrieve_resp c n run_id = inr st ->
     status st = "cancelled" \/ status st = "cancelling" ->
     run = (before ++ [EvRetrieve n run_id (inr st); EvPrint MsgCancelled],
            SysExit 1)).
Proof.
  intros json_loads c query processor output_format max_wait_time
         poll_interval run_id n fuel C Hp run before.
  subst run before.
  rewrite (run_search_pending_through json_loads c run_id max_wait_time
             poll_interval n (S fuel) query processor output_format C Hp).
  repeat split.
  - intros H. rewrite poll_loop_timeout by assumption. cbn [fst snd].
    cbn [handler_lines handled]. rewrite app_nil_r, app_assoc. reflexivity.
  - intros st H R S. rewrite (poll_loop_failed _ _ _ _ _ _ _ _ _ H R S).
    cbn [fst snd handler_lines handled].
    rewrite app_nil_r, app_assoc. reflexivity.
  - intros st H R S. rewrite (poll_loop_cancelled _ _ _ _ _ _ _ _ _ H R S).
    cbn [fst snd handler_lines handled].
    rewrite app_nil_r, app_assoc. reflexivity.
Qed.

(** The three cases on scripted clients: two polls [running] and a budget of
    4 s at 2 s per poll; a [failed] first poll; one [running] poll and then
    [cancelling]. *)
Lemma C1_terminal_states_exit_the_process_witness :
  snd (run_search json_loads_table 3
         (scripted "run-1" [] "running" PNone)
         "black couch" "base" "pretty" 4 2) = SysExit 1
  /\ snd (run_search json_loads_table 1
            (scripted "run-1" [] "failed" PNone)
            "black couch" "base" "pretty" 4 2) = SysExit 1
  /\ snd (run_search json_loads_table 2
            (scripted "run-1" ["running"] "cancelling" PNone)
            "black couch" "base" "pretty" 4 2) = SysExit 1.
Proof.
  split; [| split].
  - destruct (C1_terminal_states_exit_the_process json_loads_table
                (scripted "run-1" [] "running" PNone)
                "black couch" "base" "pretty" 4 2 "run-1" 2 0
                eq_refl eq_refl) as [T _].
    exact (f_equal snd (T eq_refl)).
  - destruct (C1_terminal_states_exit_the_process json_loads_table
                (scripted "run-1" [] "failed" PNone)
                "black couch" "base" "pretty" 4 2 "run-1" 0 0
                eq_refl eq_refl) as [_ [F _]].
    exact (f_equal snd (F _ eq_refl eq_refl eq_refl)).
  - destruct (C1_terminal_states_exit_the_process json_loads_table
                (scripted "run-1" ["running"] "cancelling" PNone)
                "black couch" "base" "pretty" 4 2 "run-1" 1 0
                eq_refl eq_refl) as [_ [_ K]].
    exact (f_equal snd (K _ eq_refl eq_refl (or_intror eq_refl))).
Defined.

(** C1, as stated, fails: with the task [running] at every poll, a budget of
    4 s and 2 s between polls, [run_search] ends in [sys.exit(1)], and with
    no amount of fuel does it return a value. *)
Lemma C1_counterexample :
  snd (run_search json_loads_table 3
         (scripted "run-1" [] "running" PNone)
         "black couch" "base" "pretty" 4 2) = SysExit 1
  /\ ~ exists fuel d,
        snd (run_search json_loads_table fuel
               (scripted "run-1" [] "running" PNone)
               "black couch" "base" "pretty" 4 2) = Val d.
Proof.
  split; [reflexivity |].
  intros (fuel & d & H).
  destruct fuel as [| [| [| fuel]]]; discriminate H.
Qed.

(** The run of the specification's example: [running], [running], then
    [completed], with a budget of 10 s and 2 s between polls. *)
Example run_running_running_completed :
  run_search json_loads_table 3
    (scripted "run-1" ["running"; "running"] "completed" (PStr "{}"))
    "find couches" "base" "pretty" 10 2 =
    (header "find couches" "base" "run-1"
       ++ pending_trace (scripted "run-1" ["running"; "running"] "completed"
                           (PStr "{}")) "run-1" 2 0 2
       ++ [EvRetrieve 2 "run-1" (inr (TaskStatus "completed" None));
           EvPrint MsgCompleted;
           EvResult "run-1" (inr (TaskResult (Bare (PStr "{}"))))],
     Val (SearchDict "run-1" "completed" (PDict []))).
Proof. reflexivity. Qed.

(** ** Statuses outside the enumeration *)

(** C2 (amended). A status that is none of [queued], [running], [completed],
    [failed], [cancelled], [cancelling] is handled as [queued] and [running]
    are: the pass prints the status, sleeps for [poll_interval], adds it to
    [elapsed] and the loop polls again. No protocol error is raised. *)
Theorem C2_unknown_status_is_polled_again :
  forall json_loads c run_id max_wait_time poll_interval fuel polls elapsed st,
  (elapsed <? max_wait_time)%float = true ->
  retrieve_resp c polls run_id = inr st ->
  ~ In (status st)
       ["queued"; "running"; "completed"; "failed"; "cancelled"; "cancelling"] ->
  sleep_ok poll_interval = true ->
  poll_loop json_loads (S fuel) c run_id max_wait_time poll_interval
            polls elapsed =
    (EvRetrieve polls run_id (inr st) :: EvPrint (MsgStatus (status st))
       :: EvSleep poll_interval
       :: fst (poll_loop json_loads fuel c run_id max_wait_time poll_interval
                 (S polls) (elapsed + poll_interval)%float),
     snd (poll_loop json_loads fuel c run_id max_wait_time poll_interval
            (S polls) (elapsed + poll_interval)%float)).
Proof.
  intros json_loads c run_id max_wait_time poll_interval fuel polls elapsed st
         H R Hn Sl.
  apply poll_loop_pending; try assumption.
  destruct (status_cases (status st)) as [S | [S | [S | [S | S]]]];
    try assumption; exfalso; apply Hn; rewrite S; cbn; tauto.
Qed.

Lemma C2_unknown_status_is_polled_again_witness :
  poll_loop json_loads_table 2
            (scripted "run-1" ["weird-state"] "completed" (PStr "{}"))
            "run-1" 10 2 0 0%float =
    ([EvRetrieve 0 "run-1" (inr (TaskStatus "weird-state" None));
      EvPrint (MsgStatus "weird-state"); EvSleep 2;
      EvRetrieve 1 "run-1" (inr (TaskStatus "completed" None));
      EvPrint MsgCompleted;
      EvResult "run-1" (inr (TaskResult (Bare (PStr "{}"))))],
     Val (SearchDict "run-1" "completed" (PDict []))).
Proof.
  rewrite (C2_unknown_status_is_polled_again json_loads_table
             (scripted "run-1" ["weird-state"] "completed" (PStr "{}"))
             "run-1" 10 2 1 0 0%float (TaskStatus "weird-state" None)
             eq_refl eq_refl).
  - reflexivity.
  - cbn. intros [H | [H | [H | [H | [H | [H | []]]]]]]; discriminate H.
  - reflexivity.
Defined.

(** C2, as stated, fails: a first poll answering ["weird-state"] raises
    nothing; the loop sleeps, polls a second time and, the task being
    [completed] by then, returns its result. *)
Lemma C2_counterexample :
  run_search json_loads_table 2
    (scripted "run-1" ["weird-state"] "completed" (PStr "{}"))
    "black couch" "base" "pretty" 10 2 =
    (header "black couch" "base" "run-1"
       ++ [EvRetrieve 0 "run-1" (inr (TaskStatus "weird-state" None));
           EvPrint (MsgStatus "weird-state"); EvSleep 2;
           EvRetrieve 1 "run-1" (inr (TaskStatus "completed" None));
           EvPrint MsgCompleted;
           EvResult "run-1" (inr (TaskResult (Bare (PStr "{}"))))],
     Val (SearchDict "run-1" "completed" (PDict []))).
Proof. reflexivity. Qed.

(** ** Configuration *)

(** C3 (amended). [run_search] does not validate [max_wait_time] or
    [poll_interval]: whatever their values, the first thing it does after its
    opening lines is to submit the task. With [max_wait_time <= 0] and a task
    created, it makes no status poll, prints the timeout line and leaves
    through [sys.exit(1)]. *)
Theorem C3_task_submitted_whatever_the_configuration :
  forall json_loads fuel c query processor output_format max_wait_time
         poll_interval,
  (exists rest,
     fst (run_search json_loads fuel c query processor output_format
            max_wait_time poll_interval) =
       [EvPrint (MsgSearching query); EvPrint (MsgProcessor processor);
        EvPrint MsgPleaseWait; EvPrint MsgCreating;
        EvCreate (task_input query) processor
                 (create_resp c (task_input query) processor)] ++ rest)
  /\
  (forall run_id,
     (max_wait_time <=? 0)%float = true ->
     create_resp c (task_input query) processor = inr run_id ->
     run_search json_loads (S fuel) c query processor output_format
                max_wait_time poll_interval =
       (header query processor run_id ++ [EvPrint (MsgTimeout max_wait_time)],
        SysExit 1)).
Proof.
  intros json_loads fuel c query processor output_format max_wait_time
         poll_interval.
  split.
  - destruct (create_resp c (task_input query) processor) as [e | run_id] eqn:C.
    + rewrite (run_search_create_raises json_loads c max_wait_time
                 poll_interval fuel query processor output_format e C).
      eexists. cbn [fst app]. reflexivity.
    + rewrite (run_search_created json_loads c run_id max_wait_time
                 poll_interval fuel query processor output_format C).
      eexists. cbn [fst app header]. reflexivity.
  - intros run_id Hle C.
    rewrite (run_search_created json_loads c run_id max_wait_time
               poll_interval (S fuel) query processor output_format C).
    rewrite poll_loop_timeout by (apply leb_zero_not_ltb; assumption).
    reflexivity.
Qed.

Lemma C3_task_submitted_whatever_the_configuration_witness :
  run_search json_loads_table 1 (scripted "run-1" [] "running" PNone)
             "black couch" "base" "pretty" (-1) 2 =
    (header "black couch" "base" "run-1" ++ [EvPrint (MsgTimeout (-1))],
     SysExit 1).
Proof.
  exact (proj2 (C3_task_submitted_whatever_the_configuration
                  json_loads_table 0 (scripted "run-1" [] "running" PNone)
                  "black couch" "base" "pretty" (-1) 2)
               "run-1" eq_refl eq_refl).
Defined.

(** C3, as stated, fails. With [poll_interval = 2 > max_wait_time = 1], and
    with [poll_interval = 0], the call is not rejected: the task is submitted
    and, [completed] at the first poll, its result is returned. With
    [max_wait_time = 0] the task is submitted all the same, before the
    timeout exit. *)
Lemma C3_counterexample :
  (let run := run_search json_loads_table 1
                (scripted "run-1" [] "completed" (PStr "{}"))
                "black couch" "base" "pretty" 1 2 in
   count is_create (fst run) = 1%nat /\
   snd run = Val (SearchDict "run-1" "completed" (PDict [])))
  /\
  (let run := run_search json_loads_table 1
                (scripted "run-1" [] "completed" (PStr "{}"))
                "black couch" "base" "pretty" 10 0 in
   count is_create (fst run) = 1%nat /\
   snd run = Val (SearchDict "run-1" "completed" (PDict [])))
  /\
  (let run := run_search json_loads_table 1
                (scripted "run-1" [] "completed" (PStr "{}"))
                "black couch" "base" "pretty" 0 2 in
   count is_create (fst run) = 1%nat /\ snd run = SysExit 1).
Proof. repeat split. Qed.

(** ** Polling until the budget is used up *)

Open Scope Z_scope.

Lemma count_app p (a b : list event) :
  count p (a ++ b) = (count p a + count p b)%nat.
Proof. unfold count. rewrite filter_app, length_app. reflexivity. Qed.

Lemma count_pending_trace c run_id poll_interval n : forall first,
  count is_retrieve (pending_trace c run_id poll_interval first n) = n /\
  count is_sleep (pending_trace c run_id poll_interval first n) = n.
Proof.
  unfold pending_trace.
  induction n as [| n IH]; intros first; [split; reflexivity |].
  cbn [seq flat_map]. rewrite !count_app.
  destruct (IH (S first)) as [-> ->]. split; reflexivity.
Qed.

(** With whole seconds below [2^53], [elapsed] is exact. *)
Lemma elapsed_after_secs p k :
  0 <= p -> Z.of_nat k * p < 2 ^ 53 ->
  elapsed_after (secs p) k = secs (Z.of_nat k * p).
Proof.
  intros Hp. induction k as [| k IH]; intros H.
  - reflexivity.
  - cbn [elapsed_after]. rewrite IH by nia.
    rewrite secs_add by nia. f_equal. lia.
Qed.

(** C4 (amended). Let the budget and the interval be whole numbers of
    seconds, [0 < budget], [0 < interval], [budget + interval < 2^53], the
    interval being one [time.sleep] accepts. If the task is created and every
    poll reports [running] or [queued], the loop makes exactly
    [ceil(max_wait_time / poll_interval)] status polls and as many sleeps,
    and leaves with [elapsed] equal to that many intervals, which is at least
    [max_wait_time]; [run_search] then prints the timeout line and leaves
    through [sys.exit(1)]. *)
Theorem C4_polls_until_timeout_whole_seconds :
  forall json_loads c query processor output_format budget interval run_id
         fuel,
  0 < budget -> 0 < interval -> budget + interval < 2 ^ 53 ->
  sleep_ok (secs interval) = true ->
  create_resp c (task_input query) processor = inr run_id ->
  (forall k, exists st,
     retrieve_resp c k run_id = inr st /\
     (status st = "running" \/ status st = "queued")) ->
  let max_wait_time := secs budget in
  let poll_interval := secs interval in
  let n := Z.to_nat (ceil_ratio max_wait_time poll_interval) in
  let run :=
    run_search json_loads (n + S fuel) c query processor output_format
               max_wait_time poll_interval in
  Z.of_nat n = ceil_div budget interval /\
  run = (header query processor run_id
           ++ pending_trace c run_id poll_interval 0 n
           ++ [EvPrint (MsgTimeout max_wait_time)],
         SysExit 1) /\
  count is_retrieve (fst run) = n /\
  count is_sleep (fst run) = n /\
  elapsed_after poll_interval n = secs (Z.of_nat n * interval) /\
  (max_wait_time <=? elapsed_after poll_interval n)%float = true.
Proof.
  intros json_loads c query processor output_format budget interval run_id
         fuel Hb Hi Hsum Sl C Hrun max_wait_time poll_interval n run.
  pose proof (ceil_div_spec budget interval Hi) as [Hlo Hhi].
  assert (Hn : Z.of_nat n = ceil_div budget interval).
  { subst n max_wait_time poll_interval.
    rewrite ceil_ratio_secs by lia. apply Z2Nat.id. nia. }
  rewrite <- Hn in Hlo, Hhi.
  assert (He : forall k, (k <= n)%nat ->
            elapsed_after poll_interval k = secs (Z.of_nat k * interval)).
  { intros k Hk. apply elapsed_after_secs; nia. }
  assert (Hp : pending_through c run_id max_wait_time poll_interval n = true).
  { unfold pending_through. apply forallb_forall. intros k Hk.
    apply in_seq in Hk. unfold pending_poll.
    rewrite He by lia. subst max_wait_time.
    rewrite secs_ltb by nia.
    destruct (Hrun k) as (st & -> & Hst).
    assert (is_pending (status st) = true) as ->
      by (destruct Hst as [-> | ->]; reflexivity).
    fold poll_interval. subst poll_interval. rewrite Sl.
    rewrite !andb_true_r. apply Z.ltb_lt. nia. }
  assert (Ht : (elapsed_after poll_interval n <? max_wait_time)%float = false).
  { rewrite He by lia. subst max_wait_time. rewrite secs_ltb by nia.
    apply Z.ltb_ge. lia. }
  assert (Hr : run =
    (header query processor run_id
       ++ pending_trace c run_id poll_interval 0 n
       ++ [EvPrint (MsgTimeout max_wait_time)], SysExit 1)).
  { subst run.
    rewrite (run_search_pending_through json_loads c run_id max_wait_time
               poll_interval n (S fuel) query processor output_format C Hp).
    rewrite poll_loop_timeout by assumption. reflexivity. }
  split; [assumption |]. split; [assumption |].
  rewrite Hr. cbn [fst]. rewrite !count_app.
  destruct (count_pending_trace c run_id poll_interval n 0) as [-> ->].
  repeat split.
  - cbn. lia.
  - cbn. lia.
  - apply He. lia.
  - rewrite He by lia. subst max_wait_time. rewrite secs_leb by nia.
    apply Z.leb_le. lia.
Qed.

(** The default ratio of the specification's example: 10 s at 2 s a poll. *)
Lemma C4_polls_until_timeout_whole_seconds_witness :
  let run := run_search json_loads_table 6
               (scripted "run-1" [] "running" PNone)
               "black couch" "base" "pretty" 10 2 in
  count is_retrieve (fst run) = 5%nat /\ snd run = SysExit 1.
Proof.
  destruct (C4_polls_until_timeout_whole_seconds json_loads_table
              (scripted "run-1" [] "running" PNone)
              "black couch" "base" "pretty" 10 2 "run-1" 0
              eq_refl eq_refl eq_refl eq_refl eq_refl)
    as (_ & Hr & Hc & _).
  - intros k. exists (TaskStatus "running" None).
    split; [destruct k; reflexivity | left; reflexivity].
  - split; [exact Hc | exact (f_equal snd Hr)].
Defined.

(** C4, as stated, fails. With a budget of [1.0] and an interval of [0.1]
    (the binary64 number nearest to one tenth), the ceiling of the quotient
    is 10, on the exact values as on the binary64 quotient; ten additions of
    the interval leave [elapsed] just below [1.0], so the loop polls an
    eleventh time. And the run ends in [sys.exit(1)], not in a value. *)
Lemma C4_counterexample :
  let run := run_search json_loads_table 12
               (scripted "run-1" [] "running" PNone)
               "black couch" "base" "pretty" 1 0.1 in
  ceil_ratio 1 0.1 = 10 /\
  (1 / 0.1)%float = 10%float /\
  (elapsed_after 0.1 10 <? 1)%float = true /\
  count is_retrieve (fst run) = 11%nat /\
  snd run = SysExit 1.
Proof. vm_compute. repeat split. Qed.

Close Scope Z_scope.

(** ** Decoding the payload *)

(** C5. The decode step of [run_search] never raises and leaves no trace: for
    every result it yields a value. When the payload is a string that
    [json.loads] decodes, that value is the decoded object; when it is a
    string on which [json.loads] raises, it is the string itself; and it is
    the value stored under [output] in the dictionary that [run_search]
    returns on a [completed] poll. *)
Theorem C5_decode_never_raises :
  forall json_loads result,
  decode_output json_loads result = ([], Val (decoded json_loads result))
  /\
  (forall s parsed,
     payload_of result = PStr s -> json_loads s = inr parsed ->
     decoded json_loads result = parsed)
  /\
  (forall s e,
     payload_of result = PStr s -> json_loads s = inl e ->
     decoded json_loads result = PStr s)
  /\
  (forall c run_id max_wait_time poll_interval fuel polls elapsed st,
     (elapsed <? max_wait_time)%float = true ->
     retrieve_resp c polls run_id = inr st ->
     status st = "completed" ->
     result_resp c run_id = inr result ->
     snd (poll_loop json_loads (S fuel) c run_id max_wait_time poll_interval
            polls elapsed) =
       Val (SearchDict run_id "completed" (decoded json_loads result))).
Proof.
  intros json_loads result. repeat split.
  - apply decode_output_eq.
  - intros s parsed P L. unfold decoded. rewrite P, L. reflexivity.
  - intros s e P L. unfold decoded. rewrite P, L. reflexivity.
  - intros c run_id max_wait_time poll_interval fuel polls elapsed st H R Hs F.
    rewrite (poll_loop_completed json_loads c run_id max_wait_time
               poll_interval fuel polls elapsed st H R Hs).
    rewrite F. reflexivity.
Qed.

(** A payload that decodes and one that does not. *)
Lemma C5_decode_never_raises_witness :
  decoded json_loads_table (TaskResult (WithContent (PStr "{}"))) = PDict []
  /\ decoded json_loads_table (TaskResult (Bare (PStr "not json")))
      = PStr "not json".
Proof.
  split.
  - exact (proj1 (proj2 (C5_decode_never_raises json_loads_table
                           (TaskResult (WithContent (PStr "{}")))))
                 "{}" (PDict []) eq_refl eq_refl).
  - exact (proj1 (proj2 (proj2 (C5_decode_never_raises json_loads_table
                                  (TaskResult (Bare (PStr "not json"))))))
                 "not json" _ eq_refl eq_refl).
Defined.

(** ** Completion at the first poll *)

(** C6. When the task is created, the loop is entered and the first poll
    reports [completed], [run_search] polls once, fetches the result once and
    never sleeps; with the result fetched, it returns the dictionary holding
    the run id, the status [completed] and the decoded payload. *)
Theorem C6_completed_on_first_poll :
  forall json_loads c query processor output_format max_wait_time
         poll_interval run_id st fuel,
  create_resp c (task_input query) processor = inr run_id ->
  (0 <? max_wait_time)%float = true ->
  retrieve_resp c 0 run_id = inr st ->
  status st = "completed" ->
  let run :=
    run_search json_loads (S fuel) c query processor output_format
               max_wait_time poll_interval in
  count is_result (fst run) = 1%nat /\
  count is_sleep (fst run) = 0%nat /\
  count is_retrieve (fst run) = 1%nat /\
  (forall result,
     result_resp c run_id = inr result ->
     run = (header query processor run_id
              ++ [EvRetrieve 0 run_id (inr st); EvPrint MsgCompleted;
                  EvResult run_id (inr result)],
            Val (SearchDict run_id "completed" (decoded json_loads result)))).
Proof.
  intros json_loads c query processor output_format max_wait_time
         poll_interval run_id st fuel C H R Hs run.
  subst run.
  rewrite (run_search_created json_loads c run_id max_wait_time
             poll_interval (S fuel) query processor output_format C).
  rewrite (poll_loop_completed json_loads c run_id max_wait_time
             poll_interval fuel 0 0%float st H R Hs).
  cbn [fst snd].
  destruct (result_resp c run_id) as [e | result]; cbn; repeat split;
    intros result' E; congruence.
Qed.

Lemma C6_completed_on_first_poll_witness :
  run_search json_loads_table 1
    (scripted "run-1" [] "completed" (PStr "{}"))
    "black couch" "base" "pretty" 10 2 =
    (header "black couch" "base" "run-1"
       ++ [EvRetrieve 0 "run-1" (inr (TaskStatus "completed" None));
           EvPrint MsgCompleted;
           EvResult "run-1" (inr (TaskResult (Bare (PStr "{}"))))],
     Val (SearchDict "run-1" "completed" (PDict []))).
Proof.
  exact (proj2 (proj2 (proj2
           (C6_completed_on_first_poll json_loads_table
              (scripted "run-1" [] "completed" (PStr "{}"))
              "black couch" "base" "pretty" 10 2 "run-1"
              (TaskStatus "completed" None) 0
              eq_refl eq_refl eq_refl eq_refl)))
           (TaskResult (Bare (PStr "{}"))) eq_refl).
Defined.

(** ** No fetch before completion *)

(** C7. In the trace of any run of [run_search], with any client and any
    durations, a result fetch comes right after a status poll that reported
    [completed] and the line announcing it: the fetch is never made on
    another status, nor before a poll. *)
Theorem C7_fetch_only_after_completed :
  forall json_loads fuel c query processor output_format max_wait_time
         poll_interval pre rid r post,
  fst (run_search json_loads fuel c query processor output_format
         max_wait_time poll_interval) = pre ++ EvResult rid r :: post ->
  exists pre' k st,
    pre = pre' ++ [EvRetrieve k rid (inr st); EvPrint MsgCompleted] /\
    retrieve_resp c k rid = inr st /\
    status st = "completed".
Proof.
  intros json_loads fuel c query processor output_format max_wait_time
         poll_interval pre rid r post E.
  destruct (create_resp c (task_input query) processor) as [e | run_id] eqn:C.
  - rewrite (run_search_create_raises json_loads c max_wait_time
               poll_interval fuel query processor output_format e C) in E.
    cbn [fst] in E. do 8 peel E pre.
  - rewrite (run_search_created json_loads c run_id max_wait_time
               poll_interval fuel query processor output_format C) in E.
    cbn [fst header app] in E. do 6 peel E pre.
    apply app_eq_app in E as [l [[E1 E2] | [E1 E2]]].
    + destruct l as [| x l].
      * rewrite app_nil_r in E1. cbn [app] in E2.
        destruct (snd (poll_loop _ _ _ _ _ _ _ _)); discriminate E2.
      * cbn [app] in E2. injection E2 as <- E2.
        assert (G := E1).
        apply poll_loop_fetch_guarded in G as (pre' & k & st & -> & R & Hs & ->).
        eexists (_ :: _ :: _ :: _ :: _ :: _ :: pre'), k, st.
        cbn [app]. auto.
    + destruct (snd (poll_loop _ _ _ _ _ _ _ _)); cbn [handler_lines] in E2;
        do 3 peel E2 l.
Qed.

(** On the run [running], [running], [completed]: the fetch stands after
    the third poll. *)
Lemma C7_fetch_only_after_completed_witness :
  exists pre' k st,
    header "find couches" "base" "run-1"
      ++ pending_trace (scripted "run-1" ["running"; "running"] "completed"
                          (PStr "{}")) "run-1" 2 0 2
      ++ [EvRetrieve 2 "run-1" (inr (TaskStatus "completed" None));
          EvPrint MsgCompleted]
    = pre' ++ [EvRetrieve k "run-1" (inr st); EvPrint MsgCompleted] /\
    retrieve_resp (scripted "run-1" ["running"; "running"] "completed"
                     (PStr "{}")) k "run-1" = inr st /\
    status st = "completed".
Proof.
  exact (C7_fetch_only_after_completed json_loads_table 3
           (scripted "run-1" ["running"; "running"] "completed" (PStr "{}"))
           "find couches" "base" "pretty" 10 2
           (header "find couches" "base" "run-1"
              ++ pending_trace (scripted "run-1" ["running"; "running"]
                                  "completed" (PStr "{}")) "run-1" 2 0 2
              ++ [EvRetrieve 2 "run-1" (inr (TaskStatus "completed" None));
                  EvPrint MsgCompleted])
           "run-1" (inr (TaskResult (Bare (PStr "{}")))) [] eq_refl).
Defined.

(** ** Cancellation *)

(** C8. At any pass of the loop, a poll that reports [cancelling] is handled
    as one that reports [cancelled]: after the poll, the same cancellation
    line is printed, the function leaves through the same [sys.exit(1)], and
    no further poll is made. *)
Theorem C8_cancelling_handled_as_cancelled :
  forall json_loads c1 c2 run_id max_wait_time poll_interval fuel polls
         elapsed st1 st2,
  (elapsed <? max_wait_time)%float = true ->
  retrieve_resp c1 polls run_id = inr st1 ->
  retrieve_resp c2 polls run_id = inr st2 ->
  status st1 = "cancelled" ->
  status st2 = "cancelling" ->
  exists rest out,
    poll_loop json_loads (S fuel) c1 run_id max_wait_time poll_interval
              polls elapsed = (EvRetrieve polls run_id (inr st1) :: rest, out)
    /\
    poll_loop json_loads (S fuel) c2 run_id max_wait_time poll_interval
              polls elapsed = (EvRetrieve polls run_id (inr st2) :: rest, out)
    /\ rest = [EvPrint MsgCancelled]
    /\ out = SysExit 1
    /\ count is_retrieve rest = 0%nat.
Proof.
  intros json_loads c1 c2 run_id max_wait_time poll_interval fuel polls
         elapsed st1 st2 H R1 R2 S1 S2.
  exists [EvPrint MsgCancelled], (SysExit 1).
  rewrite (poll_loop_cancelled json_loads c1 run_id max_wait_time
             poll_interval fuel polls elapsed st1 H R1 (or_introl S1)).
  rewrite (poll_loop_cancelled json_loads c2 run_id max_wait_time
             poll_interval fuel polls elapsed st2 H R2 (or_intror S2)).
  repeat split.
Qed.

Lemma C8_cancelling_handled_as_cancelled_witness :
  exists rest out,
    poll_loop json_loads_table 1 (scripted "run-1" [] "cancelled" PNone)
              "run-1" 10 2 0 0%float
      = (EvRetrieve 0 "run-1" (inr (TaskStatus "cancelled" None)) :: rest, out)
    /\
    poll_loop json_loads_table 1 (scripted "run-1" [] "cancelling" PNone)
              "run-1" 10 2 0 0%float
      = (EvRetrieve 0 "run-1" (inr (TaskStatus "cancelling" None)) :: rest, out)
    /\ rest = [EvPrint MsgCancelled]
    /\ out = SysExit 1
    /\ count is_retrieve rest = 0%nat.
Proof.
  exact (C8_cancelling_handled_as_cancelled json_loads_table
           (scripted "run-1" [] "cancelled" PNone)
           (scripted "run-1" [] "cancelling" PNone)
           "run-1" 10 2 0 0 0%float
           (TaskStatus "cancelled" None) (TaskStatus "cancelling" None)
           eq_refl eq_refl eq_refl eq_refl eq_refl).
Defined.

End PwsSearchFacts.

(* ================================================================== *)
(** * Properties of [ExaSearch.run_search] *)

Module ExaSearchFacts.

Import ExaSearch.
Open Scope string_scope.
Open Scope list_scope.

(** The loop appends one product per result, in order. *)
Lemma collect_app rs : forall idx results,
  collect idx rs results =
    results ++ map (fun ir => product (fst ir) (snd ir))
                   (combine (seq idx (List.length rs)) rs).
Proof.
  induction rs as [| r rs IH]; intros idx results; cbn [collect].
  - cbn. rewrite app_nil_r. reflexivity.
  - rewrite IH. cbn [List.length seq combine map fst snd].
    rewrite <- app_assoc. reflexivity.
Qed.

Lemma collect_length rs idx results :
  List.length (collect idx rs results)
  = (List.length results + List.length rs)%nat.
Proof.
  rewrite collect_app, length_app, length_map, length_combine, length_seq.
  lia.
Qed.

(** C9. With an API key set and a search that returns, [run_search] returns
    a dictionary in which [total_results] is the length of [all_results]
    (one entry per result of the response), and [matched_product] is the
    first entry of [all_results], or [None] when there is none. *)
Theorem C9_result_dictionary_invariant :
  forall exa_api_key c query num_results output_format response,
  truthy_str exa_api_key = true ->
  search_and_contents c query num_results = inr response ->
  exists d,
    snd (run_search exa_api_key c query num_results output_format) = Val d /\
    d_total_results d = Z.of_nat (List.length (d_all_results d)) /\
    List.length (d_all_results d) = List.length (results response) /\
    d_matched_product d =
      match d_all_results d with
      | first :: _ => first
      | [] => PNone
      end.
Proof.
  intros exa_api_key c query num_results output_format response K R.
  unfold run_search. rewrite K, R. cbn [negb call bind print emit try_except].
  pose proof (collect_length (results response) 0 []) as L.
  destruct (collect 0 (results response) []) as [| first rest] eqn:E.
  - cbn. eexists. repeat split. cbn [d_all_results]. exact L.
  - cbn. eexists. repeat split. cbn [d_all_results]. exact L.
Qed.

Lemma C9_result_dictionary_invariant_witness :
  exists d,
    snd (run_search (Some "key")
           (Client (fun _ _ =>
              inr (SearchResponse
                     [ExaResult None (Some "Sofa") None None None None
                                (Some (Some "A black couch")) None;
                      ExaResult (Some "p2") None (Some "https://e.x/2")
                                None None None None None])))
           "black couch" 10 "pretty") = Val d /\
    d_total_results d = 2%Z /\
    d_matched_product d =
      PDict [("id", PStr "result-0"); ("title", PStr "Sofa");
             ("url", PStr ""); ("score", PNone); ("published_date", PNone);
             ("price", PNone); ("text", PStr "A black couch");
             ("highlights", PNone)].
Proof.
  destruct (C9_result_dictionary_invariant (Some "key")
              (Client (fun _ _ =>
                 inr (SearchResponse
                        [ExaResult None (Some "Sofa") None None None None
                                   (Some (Some "A black couch")) None;
                         ExaResult (Some "p2") None (Some "https://e.x/2")
                                   None None None None None])))
              "black couch" 10 "pretty" _ eq_refl eq_refl)
    as (d & Hd & _).
  exists d. split; [exact Hd |].
  injection Hd as <-. split; reflexivity.
Defined.

End ExaSearchFacts.

(* ================================================================== *)
(** * Properties of [ClaudeAgent.score_sentence_relevance] *)

Module AgentFacts.

Import Agent.
Open Scope string_scope.
Open Scope list_scope.
Open Scope Z_scope.

(** The keyword loop adds the number of hits to the running score. *)
Lemma keyword_loop_counts sentence_lower keywords : forall score,
  fold_left
    (fun score keyword =>
       if str_in keyword sentence_lower then score + 1 else score)
    keywords score
  = score + Z.of_nat (keyword_hits sentence_lower keywords).
Proof.
  unfold keyword_hits.
  induction keywords as [| keyword keywords IH]; intros score;
    cbn [fold_left filter].
  - cbn. lia.
  - rewrite IH. destruct (str_in keyword sentence_lower);
      cbn [List.length]; lia.
Qed.

(** [prefix] and [str_in] decide what they are named after. *)
Lemma prefix_occurs needle : forall hay,
  prefix needle hay = true <-> exists after, hay = (needle ++ after)%string.
Proof.
  induction needle as [| c needle IH]; intros hay.
  - split; [intros _; exists hay; reflexivity | intros _].
    destruct hay; reflexivity.
  - destruct hay as [| d hay]; cbn [prefix].
    + split; [discriminate | intros [after E]; discriminate E].
    + destruct (ascii_dec c d) as [<- | N].
      * rewrite IH. split; intros [after E]; exists after.
        -- cbn. rewrite <- E. reflexivity.
        -- cbn in E. injection E as E. exact E.
      * split; [discriminate | intros [after E]].
        cbn in E. injection E as E _. congruence.
Qed.

Lemma str_in_occurs needle : forall hay,
  str_in needle hay = true <-> occurs_in needle hay.
Proof.
  unfold occurs_in.
  induction hay as [| d hay IH].
  - cbn [str_in]. rewrite orb_false_r, prefix_occurs. split.
    + intros [after E]. exists "", after. exact E.
    + intros [[| b before] [after E]]; [exists after; exact E |].
      discriminate E.
  - cbn [str_in]. rewrite orb_true_iff, prefix_occurs, IH. split.
    + intros [[after E] | (before & after & E)].
      * exists "", after. exact E.
      * exists (String d before), after. cbn. rewrite E. reflexivity.
    + intros [[| b before] [after E]].
      * left. exists after. exact E.
      * right. cbn in E. injection E as _ E. exists before, after. exact E.
Qed.

Lemma str_in_misses needle hay :
  str_in needle hay = false <-> ~ occurs_in needle hay.
Proof.
  rewrite <- str_in_occurs. destruct (str_in needle hay); split; intros H;
    try reflexivity; try discriminate; [exfalso; apply H; reflexivity].
Qed.

Lemma any_in_present words hay :
  any_in words hay = true <-> member_present words hay.
Proof.
  unfold any_in, member_present. rewrite existsb_exists.
  split; intros (word & I & O); exists word; split; try exact I;
    apply str_in_occurs; exact O.
Qed.

Lemma keyword_hits_occurring hay keywords :
  occurring hay keywords (keyword_hits hay keywords).
Proof.
  unfold keyword_hits.
  induction keywords as [| keyword keywords IH]; cbn [filter].
  - constructor.
  - destruct (str_in keyword hay) eqn:E; cbn [List.length].
    + apply occurring_hit; [apply str_in_occurs; exact E | exact IH].
    + apply occurring_miss; [apply str_in_misses; exact E | exact IH].
Qed.

Lemma occurring_unique hay keywords : forall n m,
  occurring hay keywords n -> occurring hay keywords m -> n = m.
Proof.
  induction keywords as [| keyword keywords IH]; intros n m Hn Hm;
    inversion Hn; subst; inversion Hm; subst;
    try reflexivity; try contradiction;
    try (f_equal; apply IH; assumption); apply IH; assumption.
Qed.

(** C10. Whatever [str.lower] makes of the sentence, the score is the
    number of keywords that are substrings of the lowercased sentence, a
    repeated keyword being counted each time, plus 2 when some informative
    word is a substring of it, plus 2 when some biography word is; so it is
    non-negative and at least that number of keywords. The number and the
    two tests are stated on substrings as such: a text, then the word, then
    a text. *)
Theorem C10_score_sentence_relevance :
  forall str_lower sentence keywords,
  let sentence_lower := str_lower sentence in
  let score := score_sentence_relevance_by str_lower sentence keywords in
  exists hits informative biography,
    occurring sentence_lower keywords hits /\
    (forall n, occurring sentence_lower keywords n -> n = hits) /\
    (member_present informative_words sentence_lower -> informative = 2) /\
    (~ member_present informative_words sentence_lower -> informative = 0) /\
    (member_present biography_words sentence_lower -> biography = 2) /\
    (~ member_present biography_words sentence_lower -> biography = 0) /\
    score = Z.of_nat hits + informative + biography /\
    0 <= score /\
    Z.of_nat hits <= score.
Proof.
  intros str_lower sentence keywords sentence_lower score.
  exists (keyword_hits sentence_lower keywords),
         (bonus informative_words sentence_lower),
         (bonus biography_words sentence_lower).
  pose proof (keyword_hits_occurring sentence_lower keywords) as H.
  split; [exact H |].
  split; [intros n Hn; exact (occurring_unique _ _ _ _ Hn H) |].
  subst score. unfold score_sentence_relevance_by, bonus.
  fold sentence_lower. rewrite keyword_loop_counts.
  pose proof (any_in_present informative_words sentence_lower) as I.
  pose proof (any_in_present biography_words sentence_lower) as B.
  destruct (any_in informative_words sentence_lower);
    destruct (any_in biography_words sentence_lower);
    repeat split; try lia; intros P;
    try reflexivity;
    try (exfalso; apply P; apply I; reflexivity);
    try (exfalso; apply P; apply B; reflexivity);
    try (apply I in P; discriminate P);
    try (apply B in P; discriminate P).
Qed.

End AgentFacts.

(* ================================================================== *)
(** * Properties of the text functions of [ClaudeAgent] *)

Module AgentTextFacts.

Import Agent PyText AgentText.
Open Scope string_scope.
Open Scope list_scope.

(** ** Substrings *)

Lemma prefix_refl s : prefix s s = true.
Proof.
  induction s as [| c s IH]; cbn; [reflexivity |].
  destruct (ascii_dec c c); [assumption | contradiction].
Qed.

Lemma prefix_cons c s t : prefix (String c s) (String c t) = prefix s t.
Proof. cbn. destruct (ascii_dec c c); [reflexivity | contradiction]. Qed.

Lemma prefix_inv a s b t :
  prefix (String a s) (String b t) = true -> a = b /\ prefix s t = true.
Proof.
  cbn. destruct (ascii_dec a b); [auto | discriminate].
Qed.

Lemma str_in_prefix w s : prefix w s = true -> str_in w s = true.
Proof. intros H. destruct s; cbn [str_in]; rewrite H; reflexivity. Qed.

Lemma str_in_tail w c s : str_in w s = true -> str_in w (String c s) = true.
Proof. intros H. cbn [str_in]. rewrite H. apply orb_true_r. Qed.

(** ** The words of a text *)

(** The words of [s] after its first character are words of [s], but for
    the one that goes on from that character. *)
Lemma findall_words_step c s :
  findall_words (String c s) =
    if is_word c then
      match s with
      | String c' _ =>
          if is_word c' then
            match findall_words s with
            | word :: words => String c word :: words
            | [] => [String c ""]
            end
          else String c "" :: findall_words s
      | "" => [String c ""]
      end
    else findall_words s.
Proof. reflexivity. Qed.

(** A text that starts with a word character starts with its first word. *)
Lemma findall_words_head c s :
  is_word c = true ->
  exists word words,
    findall_words (String c s) = String c word :: words /\
    prefix word s = true /\
    forallb is_word (list_ascii_of_string word) = true.
Proof.
  revert c. induction s as [| c' s IH]; intros c Hc;
    rewrite findall_words_step, Hc.
  - exists "", []. repeat split.
  - destruct (is_word c') eqn:Hc'.
    + destruct (IH c' Hc') as (word & words & E & P & W).
      rewrite E. exists (String c' word), words.
      rewrite prefix_cons. cbn. rewrite Hc'. auto.
    + exists "", (findall_words (String c' s)). repeat split.
Qed.

(** Every word found occurs in the text and is made of word characters. *)
Lemma findall_words_spec s : forall word,
  In word (findall_words s) ->
  str_in word s = true /\
  word <> "" /\
  forallb is_word (list_ascii_of_string word) = true.
Proof.
  induction s as [| c s IH]; intros word Hin; [destruct Hin |].
  rewrite findall_words_step in Hin.
  destruct (is_word c) eqn:Hc.
  - destruct s as [| c' s'].
    + destruct Hin as [<- | []]. cbn. rewrite Hc.
      destruct (ascii_dec c c); [| contradiction]. repeat split. discriminate.
    + destruct (is_word c') eqn:Hc'.
      * destruct (findall_words_head c' s' Hc') as (w & ws & E & P & W).
        rewrite E in Hin. destruct Hin as [<- | Hin].
        -- repeat split.
           ++ apply str_in_prefix. rewrite !prefix_cons. exact P.
           ++ discriminate.
           ++ cbn. rewrite Hc, Hc'. exact W.
        -- destruct (IH word) as (I & N & W'); [rewrite E; right; exact Hin |].
           repeat split; try assumption. apply str_in_tail, I.
      * destruct Hin as [<- | Hin].
        -- repeat split.
           ++ apply str_in_prefix. rewrite prefix_cons. reflexivity.
           ++ discriminate.
           ++ cbn. rewrite Hc. reflexivity.
        -- destruct (IH word Hin) as (I & N & W').
           repeat split; try assumption. apply str_in_tail, I.
  - destruct (IH word Hin) as (I & N & W').
    repeat split; try assumption. apply str_in_tail, I.
Qed.

(** ** Lower case *)

Lemma lower_char_idem c : lower_char (lower_char c) = lower_char c.
Proof. destruct c as [[] [] [] [] [] [] [] []]; reflexivity. Qed.

Lemma prefix_lower w : forall s, prefix w (lower s) = true -> lower w = w.
Proof.
  induction w as [| a w IH]; intros s H; [reflexivity |].
  destruct s as [| b s]; cbn in H; [discriminate |].
  destruct (ascii_dec a (lower_char b)) as [-> | _]; [| discriminate].
  cbn. rewrite lower_char_idem, (IH s H). reflexivity.
Qed.

Lemma str_in_lower w s : str_in w (lower s) = true -> lower w = w.
Proof.
  induction s as [| c s IH]; intros H.
  - apply (prefix_lower w ""). cbn in H. rewrite orb_false_r in H. exact H.
  - change (lower (String c s)) with (String (lower_char c) (lower s)) in H.
    cbn [str_in] in H. apply orb_true_iff in H as [H | H].
    + apply (prefix_lower w (String c s)). exact H.
    + apply IH, H.
Qed.

(** ** Keywords *)

(** X1. Every keyword that [extract_keywords_from_task] returns is longer
    than two characters, is none of the common words, is made of word
    characters, is in lower case, and occurs in the lowercased task
    description. *)
Theorem keywords_are_long_uncommon_words_of_the_task :
  forall task_description word,
  In word (extract_keywords_from_task task_description) ->
  (2 < String.length word)%nat /\
  mem word common_words = false /\
  forallb is_word (list_ascii_of_string word) = true /\
  lower word = word /\
  str_in word (lower task_description) = true.
Proof.
  intros task word Hin. unfold extract_keywords_from_task in Hin.
  apply filter_In in Hin as [Hin Hf].
  apply andb_true_iff in Hf as [Hc Hl].
  apply findall_words_spec in Hin as (I & _ & W).
  repeat split.
  - apply Nat.ltb_lt, Hl.
  - apply negb_true_iff, Hc.
  - exact W.
  - apply (str_in_lower word task), I.
  - exact I.
Qed.

Lemma keywords_are_long_uncommon_words_of_the_task_witness :
  (2 < String.length "printer")%nat /\
  mem "printer" common_words = false /\
  forallb is_word (list_ascii_of_string "printer") = true /\
  lower "printer" = "printer" /\
  str_in "printer" (lower "What is the_best 3D-printer? OK") = true.
Proof.
  apply (keywords_are_long_uncommon_words_of_the_task
           "What is the_best 3D-printer? OK" "printer").
  right. left. reflexivity.
Defined.

Lemma filter_all {A} (p : A -> bool) l :
  (forall x, In x l -> p x = true) -> filter p l = l.
Proof.
  induction l as [| x l IH]; intros H; [reflexivity |].
  cbn. rewrite (H x (or_introl eq_refl)), IH; [reflexivity |].
  intros y Hy. apply H. right. exact Hy.
Qed.

(** X2. Scored against its own keywords, a task description gets at least
    one point per keyword: each keyword occurs in it. *)
Theorem task_scores_all_its_keywords :
  forall task_description,
  (Z.of_nat (List.length (extract_keywords_from_task task_description))
   <= score_sentence_relevance task_description
        (extract_keywords_from_task task_description))%Z.
Proof.
  intros task. unfold score_sentence_relevance, score_sentence_relevance_by.
  rewrite AgentFacts.keyword_loop_counts. unfold keyword_hits.
  rewrite filter_all.
  - destruct (any_in informative_words (lower task));
      destruct (any_in biography_words (lower task)); lia.
  - intros word Hin. unfold extract_keywords_from_task in Hin.
    apply filter_In in Hin as [Hin _].
    apply findall_words_spec in Hin as (I & _). exact I.
Qed.

(** ** Substitution *)

Lemma re_sub_unmatched match_len repl t :
  matches_nowhere match_len t = true -> re_sub match_len repl t = t.
Proof.
  unfold re_sub. induction t as [| c t IH]; intros H; [reflexivity |].
  cbn [matches_nowhere] in H. cbn [re_sub_from].
  destruct (match_len (String c t)) as [[| k] |]; try discriminate;
    rewrite (IH H); reflexivity.
Qed.

(** Deleting matches brings in no character. *)
Lemma index_of_deleted c match_len s : forall skip,
  index_of c s = None ->
  index_of c (re_sub_from match_len "" skip s) = None.
Proof.
  induction s as [| x s IH]; intros skip H; [reflexivity |].
  cbn [index_of] in H. destruct (Ascii.eqb x c) eqn:E; [discriminate |].
  destruct (index_of c s) eqn:I; [discriminate |].
  cbn [re_sub_from]. destruct skip as [| k]; [| apply IH; reflexivity].
  destruct (match_len (String x s)) as [[| k] |]; cbn [append index_of];
    rewrite ?E, ?IH; reflexivity.
Qed.

Lemma match_tag_cons c s :
  match_tag (String c s) =
    if Ascii.eqb c "<" then
      match index_of ">" s with
      | Some (S n) => Some (S n + 2)%nat
      | _ => None
      end
    else None.
Proof. reflexivity. Qed.

(** After the tags are deleted, the tag pattern matches nowhere. *)
Lemma strip_tags_leaves_no_tag s : forall skip,
  matches_nowhere match_tag (re_sub_from match_tag "" skip s) = true.
Proof.
  induction s as [| c s IH]; intros skip; [reflexivity |].
  cbn [re_sub_from]. destruct skip as [| k]; [| apply IH].
  destruct (match_tag (String c s)) as [[| k] |] eqn:M; cbn [append];
    try apply IH.
  - (* a match of length 0 does not arise *)
    rewrite match_tag_cons in M. destruct (Ascii.eqb c "<"); [| discriminate].
    destruct (index_of ">" s) as [[| n] |]; discriminate.
  - cbn [matches_nowhere]. rewrite IH.
    replace (match_tag (String c (re_sub_from match_tag "" 0 s))) with
      (@None nat); [reflexivity |].
    symmetry. rewrite match_tag_cons in *.
    destruct (Ascii.eqb c "<"); [| reflexivity].
    destruct (index_of ">" s) as [[| n] |] eqn:I; try discriminate.
    + (* "<>": the '>' stays where it is *)
      destruct s as [| x s']; [discriminate |].
      cbn [index_of] in I. destruct (Ascii.eqb x ">") eqn:X.
      * assert (match_tag (String x s') = None) as Mx.
        { rewrite match_tag_cons. apply Ascii.eqb_eq in X. subst x.
          reflexivity. }
        cbn [re_sub_from]. rewrite Mx. cbn [index_of]. rewrite X.
        reflexivity.
      * destruct (index_of ">" s'); discriminate.
    + (* no '>' further on *)
      rewrite index_of_deleted by assumption. reflexivity.
Qed.

Lemma index_of_prefix c lit : forall s,
  prefix lit s = true -> index_of c lit <> None -> index_of c s <> None.
Proof.
  induction lit as [| a lit IH]; intros s P H; [contradiction |].
  destruct s as [| b s]; cbn in P; [discriminate |].
  destruct (ascii_dec a b) as [<- | _]; [| discriminate].
  cbn [index_of] in *. destruct (Ascii.eqb a c); [discriminate |].
  specialize (IH s P).
  destruct (index_of c lit); [| contradiction].
  destruct (index_of c s); [discriminate |].
  exfalso. apply IH; [discriminate | reflexivity].
Qed.

Lemma index_of_find_close c dotall close : forall s n,
  find_close dotall close s = Some n ->
  index_of c close <> None -> index_of c s <> None.
Proof.
  induction s as [| x s IH]; intros n F H.
  - cbn [find_close] in F.
    destruct (prefix close "") eqn:P; [| discriminate].
    apply (index_of_prefix c close "" P H).
  - cbn [find_close] in F.
    destruct (prefix close (String x s)) eqn:P.
    + apply (index_of_prefix c close _ P H).
    + destruct (negb dotall && Ascii.eqb x nl); [discriminate |].
      destruct (find_close dotall close s) as [m |] eqn:F'; [| discriminate].
      specialize (IH m eq_refl H). cbn [index_of].
      destruct (Ascii.eqb x c); [discriminate |].
      destruct (index_of c s); [discriminate | contradiction].
Qed.

Lemma index_of_substring c : forall n m s,
  index_of c (substring n m s) <> None -> index_of c s <> None.
Proof.
  induction n as [| n IH]; intros m s H.
  - revert m H. induction s as [| x s IHs]; intros m H.
    + destruct m; exact H.
    + destruct m as [| m]; [contradiction |].
      cbn [substring index_of] in *.
      destruct (Ascii.eqb x c); [discriminate |].
      specialize (IHs m).
      destruct (index_of c (substring 0 m s)); [| contradiction].
      destruct (index_of c s); [discriminate |].
      exfalso. apply IHs; [discriminate | reflexivity].
  - destruct s as [| x s]; [exact H |].
    cbn [substring] in H. specialize (IH m s H). cbn [index_of].
    destruct (Ascii.eqb x c); [discriminate |].
    destruct (index_of c s); [discriminate | contradiction].
Qed.

(** Where [<word ... </word>] matches, so does the tag pattern. *)
Lemma lazy_match_is_a_tag dotall x open close s n :
  Ascii.eqb x ">" = false ->
  index_of ">" close <> None ->
  match_lazy dotall (String "<" (String x open)) close s = Some n ->
  exists k, match_tag s = Some (S k).
Proof.
  intros X C M. unfold match_lazy in M.
  destruct (prefix (String "<" (String x open)) s) eqn:P; [| discriminate].
  destruct (find_close _ _ _) as [m |] eqn:F; [| discriminate].
  apply (index_of_find_close ">") in F; [| assumption].
  apply index_of_substring in F.
  destruct s as [| a s]; [discriminate |].
  apply prefix_inv in P as [<- P].
  destruct s as [| b s]; [discriminate |].
  apply prefix_inv in P as [<- P].
  rewrite match_tag_cons. cbn [index_of] in *. rewrite X in *.
  destruct (index_of ">" s) as [i |]; [| contradiction].
  cbn. eexists. reflexivity.
Qed.

Lemma no_tag_no_lazy_match dotall x open close t :
  Ascii.eqb x ">" = false ->
  index_of ">" close <> None ->
  matches_nowhere match_tag t = true ->
  matches_nowhere (match_lazy dotall (String "<" (String x open)) close) t
  = true.
Proof.
  intros X C. induction t as [| c t IH]; intros H; [reflexivity |].
  cbn [matches_nowhere] in *.
  destruct (match_tag (String c t)) as [[| k] |] eqn:T; try discriminate;
    destruct (match_lazy _ _ _ (String c t)) as [[| j] |] eqn:L;
    try (apply IH, H);
    destruct (lazy_match_is_a_tag _ _ _ _ _ _ X C L) as [k' E];
    congruence.
Qed.

(** X3. In [clean_and_extract_content] the two substitutions that are to
    remove scripts and style sheets never change the text: once the tags
    are deleted, no [<script] or [<style] is left that is followed by its
    closing tag. What stood between the tags stays in the result. *)
Theorem script_and_style_removal_changes_nothing :
  forall raw_text,
  drop_scripts (strip_tags raw_text) = strip_tags raw_text /\
  drop_styles (strip_tags raw_text) = strip_tags raw_text /\
  clean_and_extract_content raw_text
  = strip (squeeze_spaces (drop_artifacts (strip_tags raw_text))).
Proof.
  intros raw.
  assert (S1 : drop_scripts (strip_tags raw) = strip_tags raw).
  { apply re_sub_unmatched, no_tag_no_lazy_match;
      [reflexivity | discriminate | apply strip_tags_leaves_no_tag]. }
  assert (S2 : drop_styles (strip_tags raw) = strip_tags raw).
  { apply re_sub_unmatched, no_tag_no_lazy_match;
      [reflexivity | discriminate | apply strip_tags_leaves_no_tag]. }
  repeat split; try assumption.
  unfold clean_and_extract_content. cbv zeta. rewrite S1, S2. reflexivity.
Qed.

(** ** Whitespace *)

Lemma match_spaces_run s :
  match_spaces s =
    match run_length is_space s with
    | O => None
    | S n => Some (S n)
    end.
Proof. unfold match_spaces. destruct (run_length is_space s); reflexivity. Qed.

(** Squeezing leaves single spaces, each before a character that is not
    whitespace or at the very end; past a whole run of whitespace, the
    result does not start with whitespace. *)
Lemma squeeze_single_spaced s :
  single_spaced true (re_sub_from match_spaces " " 0 s) = true /\
  (single_spaced true
     (re_sub_from match_spaces " " (run_length is_space s) s) = true /\
   starts_clean
     (re_sub_from match_spaces " " (run_length is_space s) s) = true).
Proof.
  induction s as [| c s (IH1 & IH2 & IH3)]; [repeat split |].
  assert (N : is_space c = false ->
              single_spaced true
                (String c (re_sub_from match_spaces " " 0 s)) = true).
  { intros Hc. cbn [single_spaced]. rewrite Hc, IH1. reflexivity. }
  cbn [re_sub_from run_length]. rewrite match_spaces_run.
  cbn [run_length]. destruct (is_space c) eqn:Hc.
  - repeat split; try assumption.
    cbn [append single_spaced]. rewrite IH2.
    destruct (re_sub_from match_spaces " " (run_length is_space s) s);
      [reflexivity |].
    cbn [starts_clean] in IH3. rewrite IH3. reflexivity.
  - repeat split; try (apply N; reflexivity).
    cbn [starts_clean]. rewrite Hc. reflexivity.
Qed.

Lemma rstrip_head c s r : rstrip s = String c r -> exists s', s = String c s'.
Proof.
  destruct s as [| x s]; [discriminate |]. cbn [rstrip].
  destruct (rstrip s); [destruct (is_space x); [discriminate |] |];
    intros E; injection E as -> _; eexists; reflexivity.
Qed.

Lemma rstrip_single_spaced s :
  single_spaced true s = true -> single_spaced false (rstrip s) = true.
Proof.
  induction s as [| c s IH]; intros H; [reflexivity |].
  cbn [single_spaced] in H. apply andb_true_iff in H as [Hc Hs].
  specialize (IH Hs). cbn [rstrip].
  destruct (rstrip s) as [| d r] eqn:R.
  - destruct (is_space c) eqn:Sc; [reflexivity |].
    cbn [single_spaced]. rewrite Sc. reflexivity.
  - destruct (rstrip_head d s r R) as [s' ->].
    cbn [single_spaced]. cbn [single_spaced] in IH. rewrite IH, andb_true_r.
    exact Hc.
Qed.

Lemma lstrip_tidy s :
  single_spaced false s = true -> tidy (lstrip s) = true.
Proof.
  unfold tidy. induction s as [| c s IH]; intros H; [reflexivity |].
  cbn [lstrip]. destruct (is_space c) eqn:Sc.
  - apply IH. cbn [single_spaced] in H.
    apply andb_true_iff in H as [_ H]. exact H.
  - rewrite H. cbn [starts_clean]. rewrite Sc. reflexivity.
Qed.

Lemma lstrip_clean s : starts_clean s = true -> lstrip s = s.
Proof.
  destruct s as [| c s]; [reflexivity |]. cbn [starts_clean lstrip].
  destruct (is_space c); [discriminate | reflexivity].
Qed.

Lemma rstrip_single s : single_spaced false s = true -> rstrip s = s.
Proof.
  induction s as [| c s IH]; intros H; [reflexivity |].
  cbn [single_spaced] in H. apply andb_true_iff in H as [Hc Hs].
  cbn [rstrip]. rewrite (IH Hs).
  destruct s as [| d s]; [| reflexivity].
  destruct (is_space c); [| reflexivity].
  rewrite andb_false_r in Hc. discriminate.
Qed.

(** X4. The text that [clean_and_extract_content] returns has no whitespace
    at either end, and its only whitespace characters are single spaces:
    no newline, no tab, no two spaces in a row. Stripping it again changes
    nothing. *)
Theorem cleaned_text_is_tidy :
  forall raw_text,
  tidy (clean_and_extract_content raw_text) = true /\
  strip (clean_and_extract_content raw_text)
  = clean_and_extract_content raw_text.
Proof.
  intros raw.
  assert (T : tidy (clean_and_extract_content raw) = true).
  { unfold clean_and_extract_content. cbv zeta.
    unfold strip. apply lstrip_tidy, rstrip_single_spaced.
    unfold squeeze_spaces, re_sub. apply squeeze_single_spaced. }
  split; [exact T |].
  unfold tidy in T. apply andb_true_iff in T as [T1 T2].
  unfold strip at 1. rewrite (rstrip_single _ T2). apply lstrip_clean, T1.
Qed.

(** ** Sorting by score *)

Lemma insert_by_score_In x l : forall y,
  In y (insert_by_score x l) <-> y = x \/ In y l.
Proof.
  induction l as [| z l IH]; intros y; cbn [insert_by_score].
  - cbn. intuition congruence.
  - destruct (fst x <=? fst z)%Z; cbn [In]; [rewrite IH |]; intuition congruence.
Qed.

Lemma insert_by_score_length x l :
  List.length (insert_by_score x l) = S (List.length l).
Proof.
  induction l as [| z l IH]; cbn [insert_by_score]; [reflexivity |].
  destruct (fst x <=? fst z)%Z; cbn [List.length]; [rewrite IH |];
    reflexivity.
Qed.

Lemma insert_by_score_descending x l :
  descending l -> descending (insert_by_score x l).
Proof.
  induction l as [| z l IH]; intros D; cbn [insert_by_score].
  - cbn. intuition.
  - destruct D as [Dz Dl]. destruct (fst x <=? fst z)%Z eqn:L.
    + apply Z.leb_le in L. cbn [descending]. split; [| apply IH, Dl].
      intros y Hy. apply insert_by_score_In in Hy as [-> | Hy];
        [exact L | apply Dz, Hy].
    + apply Z.leb_gt in L. cbn [descending]. repeat split; try assumption.
      intros y [<- | Hy]; [lia |]. specialize (Dz y Hy). lia.
Qed.

Lemma sort_by_score_spec l :
  descending (sort_by_score l) /\
  (forall y, In y (sort_by_score l) <-> In y l) /\
  List.length (sort_by_score l) = List.length l.
Proof.
  unfold sort_by_score.
  assert (G : forall l acc,
    descending acc ->
    descending (fold_left (fun sorted x => insert_by_score x sorted) l acc) /\
    (forall y, In y (fold_left (fun sorted x => insert_by_score x sorted) l acc)
               <-> In y acc \/ In y l) /\
    List.length (fold_left (fun sorted x => insert_by_score x sorted) l acc)
    = (List.length acc + List.length l)%nat).
  { clear l. induction l as [| x l IH]; intros acc D; cbn [fold_left].
    - repeat split; try assumption; cbn; intuition.
    - destruct (IH (insert_by_score x acc)) as (D' & I' & L');
        [apply insert_by_score_descending, D |].
      repeat split; try assumption.
      + intros H. apply I' in H as [H | H].
        * apply insert_by_score_In in H as [-> | H]; cbn; auto.
        * cbn; auto.
      + intros H. apply I'. rewrite insert_by_score_In.
        cbn in H. intuition.
      + rewrite L', insert_by_score_length. cbn [List.length]. lia. }
  destruct (G l [] I) as (D & In' & L). repeat split; try assumption.
  - intros H. apply In' in H as [[] | H]. exact H.
  - intros H. apply In'. right. exact H.
Qed.

Lemma In_firstn {A} (y : A) n : forall l, In y (firstn n l) -> In y l.
Proof.
  induction n as [| n IH]; intros [| x l] H; cbn in *; try contradiction.
  destruct H as [H | H]; [left; exact H | right; apply IH, H].
Qed.

Lemma In_skipn {A} (y : A) n : forall l, In y (skipn n l) -> In y l.
Proof.
  induction n as [| n IH]; intros [| x l] H; cbn in *; try assumption.
  right. apply IH, H.
Qed.

Lemma descending_firstn n : forall l,
  descending l -> descending (firstn n l).
Proof.
  induction n as [| n IH]; intros [| x l] D; cbn; try exact I.
  destruct D as [Dx Dl]. split; [| apply IH, Dl].
  intros y Hy. apply Dx. apply (In_firstn _ _ _ Hy).
Qed.

Lemma descending_split n : forall l a b,
  descending l -> In a (firstn n l) -> In b (skipn n l) ->
  (fst b <= fst a)%Z.
Proof.
  induction n as [| n IH]; intros l a b D Ha Hb; [destruct Ha |].
  destruct l as [| x l]; [destruct Ha |].
  destruct D as [Dx Dl]. cbn [firstn skipn] in *.
  destruct Ha as [<- | Ha].
  - apply Dx. apply (In_skipn _ _ _ Hb).
  - apply (IH l a b Dl Ha Hb).
Qed.

(** ** The scoring loop *)

Lemma score_step_In task_keywords acc piece x :
  In x (score_step task_keywords acc piece) <->
  In x acc \/
  (snd x = strip piece /\
   fst x = score_sentence_relevance (snd x) task_keywords /\
   qualifies task_keywords (snd x)).
Proof.
  unfold score_step, qualifies. cbv zeta.
  remember (strip piece) as s eqn:Es. clear Es.
  destruct (String.length s <? 20)%nat eqn:L1; cbn [orb].
  { apply Nat.ltb_lt in L1. split; [auto |].
    intros [H | (E & _ & Q & _)]; [exact H | rewrite E in Q; lia]. }
  apply Nat.ltb_ge in L1.
  destruct (300 <? String.length s)%nat eqn:L2.
  { apply Nat.ltb_lt in L2. split; [auto |].
    intros [H | (E & _ & Q & _)]; [exact H | rewrite E in Q; lia]. }
  apply Nat.ltb_ge in L2.
  destruct (0 <? score_sentence_relevance s task_keywords)%Z eqn:L3.
  - apply Z.ltb_lt in L3. rewrite in_app_iff. cbn [In].
    split.
    + intros [H | [<- | []]]; [left; exact H |].
      right. cbn [fst snd]. repeat split; assumption.
    + intros [H | (E & F & _)]; [left; exact H |].
      right. left. destruct x as [sc t]. cbn [fst snd] in *. subst.
      reflexivity.
  - apply Z.ltb_ge in L3. split; [auto |].
    intros [H | (E & _ & _ & Q)]; [exact H | rewrite E in Q; lia].
Qed.

Lemma scored_sentences_spec task_keywords sentences : forall x,
  In x (scored_sentences sentences task_keywords) <->
  exists piece,
    In piece sentences /\ snd x = strip piece /\
    fst x = score_sentence_relevance (snd x) task_keywords /\
    qualifies task_keywords (snd x).
Proof.
  unfold scored_sentences.
  assert (G : forall l acc x,
    In x (fold_left (score_step task_keywords) l acc) <->
    In x acc \/
    exists piece,
      In piece l /\ snd x = strip piece /\
      fst x = score_sentence_relevance (snd x) task_keywords /\
      qualifies task_keywords (snd x)).
  { induction l as [| piece l IH]; intros acc x; cbn [fold_left].
    - split; [auto |]. intros [H | (p & [] & _)]. exact H.
    - rewrite IH, score_step_In. split.
      + intros [[H | H] | (p & Hp & H)].
        * left. exact H.
        * right. exists piece. split; [left; reflexivity | exact H].
        * right. exists p. split; [right; exact Hp | exact H].
      + intros [H | (p & [<- | Hp] & H)].
        * left. left. exact H.
        * left. right. exact H.
        * right. exists p. split; assumption. }
  intros x. rewrite G. split; [intros [[] | H]; exact H | auto].
Qed.

(** X5. [top_sentences], the sentences that [extract_relevant_info] lists
    under the key information heading: there are at most five; each is a
    stripped piece of the text, of 20 to 300 characters and of positive
    score; their scores never go up along the list; and a piece that
    qualifies and is not listed scores no more than any listed one. *)
Theorem top_sentences_are_the_best_five :
  forall sentences task_keywords,
  let score s := score_sentence_relevance s task_keywords in
  let top := top_sentences sentences task_keywords in
  (List.length top <= 5)%nat /\
  (forall s, In s top ->
     (exists piece, In piece sentences /\ s = strip piece) /\
     qualifies task_keywords s) /\
  descending (map (fun s => (score s, s)) top) /\
  (forall piece,
     In piece sentences -> qualifies task_keywords (strip piece) ->
     In (strip piece) top \/
     (List.length top = 5%nat /\
      forall s, In s top -> (score (strip piece) <= score s)%Z)).
Proof.
  intros sentences kws score top.
  set (scored := scored_sentences sentences kws).
  destruct (sort_by_score_spec scored) as (D & Hin & Hlen).
  set (sorted := sort_by_score scored) in *.
  assert (top = map snd (firstn 5 sorted)) as Etop by reflexivity.
  assert (Hfst : forall x, In x sorted ->
            fst x = score (snd x) /\
            (exists piece, In piece sentences /\ snd x = strip piece) /\
            qualifies kws (snd x)).
  { intros x Hx. apply Hin, scored_sentences_spec in Hx
      as (piece & Hp & E & F & Q).
    repeat split; try assumption; try apply Q. exists piece. auto. }
  assert (Emap : map (fun s => (score s, s)) top = firstn 5 sorted).
  { rewrite Etop, map_map.
    rewrite <- (map_id (firstn 5 sorted)) at 2.
    apply map_ext_in. intros x Hx. apply In_firstn in Hx.
    destruct (Hfst x Hx) as (F & _). destruct x as [sc s].
    cbn [fst snd] in *. rewrite F. reflexivity. }
  split; [| split; [| split]].
  - rewrite Etop, length_map, length_firstn. lia.
  - intros s H. rewrite Etop in H. apply in_map_iff in H as (x & <- & Hx).
    apply In_firstn in Hx. apply (Hfst x Hx).
  - rewrite Emap. apply descending_firstn, D.
  - intros piece Hp Q.
    assert (Hs : In (score (strip piece), strip piece) sorted).
    { apply Hin, scored_sentences_spec. exists piece. auto. }
    rewrite <- (firstn_skipn 5 sorted) in Hs.
    apply in_app_iff in Hs as [Hs | Hs].
    + left. rewrite Etop. apply in_map_iff.
      exists (score (strip piece), strip piece). auto.
    + right. split.
      * rewrite Etop, length_map, length_firstn.
        destruct (Nat.le_gt_cases 5 (List.length sorted)) as [L | L];
          [lia |].
        rewrite skipn_all2 in Hs by lia. destruct Hs.
      * intros s Hs'. rewrite Etop in Hs'.
        apply in_map_iff in Hs' as (x & <- & Hx).
        pose proof (descending_split 5 sorted x _ D Hx Hs) as Le.
        cbn [fst] in Le. destruct (Hfst x (In_firstn _ _ _ Hx)) as (F & _).
        rewrite <- F. exact Le.
Qed.

(** ** Texts without a sentence of 20 characters *)

Lemma lstrip_length s : (String.length (lstrip s) <= String.length s)%nat.
Proof.
  induction s as [| c s IH]; cbn [lstrip]; [lia |].
  destruct (is_space c); cbn [String.length]; lia.
Qed.

Lemma rstrip_length s : (String.length (rstrip s) <= String.length s)%nat.
Proof.
  induction s as [| c s IH]; cbn [rstrip]; [lia |].
  destruct (rstrip s); [destruct (is_space c) |]; cbn [String.length] in *;
    lia.
Qed.

Lemma strip_length s : (String.length (strip s) <= String.length s)%nat.
Proof.
  unfold strip. pose proof (lstrip_length (rstrip s)).
  pose proof (rstrip_length s). lia.
Qed.

Lemma split_sentences_step c text :
  split_sentences (String c text) =
    if is_terminator c then
      match text with
      | String c' _ =>
          if is_terminator c' then split_sentences text
          else "" :: split_sentences text
      | "" => "" :: split_sentences text
      end
    else
      match split_sentences text with
      | piece :: pieces => String c piece :: pieces
      | [] => [String c ""]
      end.
Proof. reflexivity. Qed.

Lemma split_sentences_length text : forall piece,
  In piece (split_sentences text) ->
  (String.length piece <= String.length text)%nat.
Proof.
  induction text as [| c text IH]; intros piece H.
  - destruct H as [<- | []]. cbn. lia.
  - rewrite split_sentences_step in H. cbn [String.length].
    destruct (is_terminator c).
    + assert (In piece ("" :: split_sentences text)) as H'.
      { destruct text as [| c' text']; [exact H |].
        destruct (is_terminator c'); [right; exact H | exact H]. }
      destruct H' as [<- | H']; [cbn; lia |].
      specialize (IH piece H'). lia.
    + destruct (split_sentences text) as [| p ps] eqn:E.
      * destruct H as [<- | []]. cbn. lia.
      * destruct H as [<- | H].
        -- specialize (IH p (or_introl eq_refl)). cbn [String.length]. lia.
        -- specialize (IH piece (or_intror H)). lia.
Qed.

Lemma fallback_loop_short sentences :
  (forall piece, In piece sentences ->
                 (String.length (strip piece) < 20)%nat) ->
  fallback_loop sentences [] = [].
Proof.
  induction sentences as [| piece l IH]; intros H; [reflexivity |].
  cbn [fallback_loop].
  assert (String.length (strip piece) < 20)%nat as L
    by (apply H; left; reflexivity).
  replace (30 <? String.length (strip piece))%nat with false
    by (symmetry; apply Nat.ltb_ge; lia).
  cbn [andb]. apply IH. intros p Hp. apply H. right. exact Hp.
Qed.

(** X6. When no piece of the text between full stops, exclamation and
    question marks has 20 characters once stripped, [extract_relevant_info]
    lists nothing: a text longer than 500 characters is cut to 500 under the
    content heading, and any other text is returned as it is, without a
    heading. A text shorter than 20 characters is such a text. *)
Theorem text_without_long_sentence_is_returned_bare :
  forall text task_description,
  ((forall piece, In piece (split_sentences text) ->
                  (String.length (strip piece) < 20)%nat) ->
   extract_relevant_info text task_description =
     if (500 <? String.length text)%nat
     then ("📄 **Content:**" ++ nls ++ take 500 text ++ "...")%string
     else text)
  /\
  ((String.length text < 20)%nat ->
   extract_relevant_info text task_description = text).
Proof.
  intros text task.
  assert (G : (forall piece, In piece (split_sentences text) ->
                 (String.length (strip piece) < 20)%nat) ->
              extract_relevant_info text task =
                if (500 <? String.length text)%nat
                then ("📄 **Content:**" ++ nls ++ take 500 text ++ "...")%string
                else text).
  { intros H. unfold extract_relevant_info. cbv zeta.
    assert (scored_sentences (split_sentences text)
              (extract_keywords_from_task task) = []) as E.
    { destruct (scored_sentences _ _) as [| x l] eqn:E; [reflexivity |].
      assert (In x (scored_sentences (split_sentences text)
                      (extract_keywords_from_task task))) as Hx
        by (rewrite E; left; reflexivity).
      apply scored_sentences_spec in Hx as (piece & Hp & Es & _ & Q & _).
      specialize (H piece Hp). rewrite Es in Q. lia. }
    unfold top_sentences. rewrite E. unfold sort_by_score.
    cbn [fold_left]. rewrite firstn_nil. cbn [map].
    rewrite fallback_loop_short; [reflexivity |].
    intros piece Hp. apply H. apply (In_firstn _ _ _ Hp). }
  split; [exact G |].
  intros L. rewrite G.
  - replace (500 <? String.length text)%nat with false
      by (symmetry; apply Nat.ltb_ge; lia).
    reflexivity.
  - intros piece Hp. pose proof (split_sentences_length text piece Hp).
    pose proof (strip_length piece). lia.
Qed.

Lemma text_without_long_sentence_is_returned_bare_witness :
  extract_relevant_info "short text. tiny" "what is it" = "short text. tiny".
Proof.
  apply (proj2 (text_without_long_sentence_is_returned_bare
                  "short text. tiny" "what is it")).
  cbn. lia.
Defined.

End AgentTextFacts.

(* ================================================================== *)
(** * Properties of [ClaudeAgent.execute_task] *)

Module AgentRunFacts.

Import Agent PyText AgentText AgentRun AgentTextFacts.
Open Scope string_scope.
Open Scope list_scope.
Open Scope py_scope.

(** ** Stripping *)

Lemma lstrip_starts_clean s : starts_clean (lstrip s) = true.
Proof.
  induction s as [| c s IH]; [reflexivity |]. cbn [lstrip].
  destruct (is_space c) eqn:Sc; [exact IH |]. cbn. rewrite Sc. reflexivity.
Qed.

Lemma rstrip_cons c s :
  rstrip (String c s) =
    match rstrip s with
    | "" => if is_space c then "" else String c ""
    | r => String c r
    end.
Proof. reflexivity. Qed.

Lemma rstrip_idem s : rstrip (rstrip s) = rstrip s.
Proof.
  induction s as [| c s IH]; [reflexivity |].
  rewrite rstrip_cons. destruct (rstrip s) as [| d r] eqn:R.
  - destruct (is_space c) eqn:Sc; [reflexivity |].
    rewrite rstrip_cons. cbn [rstrip]. rewrite Sc. reflexivity.
  - rewrite rstrip_cons, IH. reflexivity.
Qed.

Lemma rstrip_lstrip s : rstrip (lstrip s) = lstrip (rstrip s).
Proof.
  induction s as [| c s IH]; [reflexivity |].
  cbn [lstrip]. rewrite (rstrip_cons c s).
  destruct (is_space c) eqn:Sc.
  - rewrite IH. destruct (rstrip s); [reflexivity |].
    cbn [lstrip]. rewrite Sc. reflexivity.
  - rewrite rstrip_cons.
    destruct (rstrip s); cbn [lstrip]; rewrite Sc; reflexivity.
Qed.

Lemma strip_idem s : strip (strip s) = strip s.
Proof.
  unfold strip. rewrite rstrip_lstrip, rstrip_idem.
  apply lstrip_clean, lstrip_starts_clean.
Qed.

Lemma index_of_lstrip c s : index_of c s = None -> index_of c (lstrip s) = None.
Proof.
  induction s as [| x s IH]; intros H; [reflexivity |].
  cbn [lstrip]. destruct (is_space x); [| exact H].
  apply IH. cbn [index_of] in H.
  destruct (Ascii.eqb x c); [discriminate |].
  destruct (index_of c s); [discriminate | reflexivity].
Qed.

Lemma index_of_rstrip c s : index_of c s = None -> index_of c (rstrip s) = None.
Proof.
  induction s as [| x s IH]; intros H; [reflexivity |].
  cbn [index_of] in H. destruct (Ascii.eqb x c) eqn:E; [discriminate |].
  destruct (index_of c s) eqn:I; [discriminate |].
  rewrite rstrip_cons. specialize (IH eq_refl).
  destruct (rstrip s) as [| d r].
  - destruct (is_space x); cbn [index_of]; rewrite ?E; reflexivity.
  - cbn [index_of] in *. rewrite E. 
    destruct (Ascii.eqb d c); [discriminate |].
    destruct (index_of c r); [discriminate | reflexivity].
Qed.

Lemma index_of_strip c s : index_of c s = None -> index_of c (strip s) = None.
Proof. intros H. apply index_of_lstrip, index_of_rstrip, H. Qed.

(** ** Lines *)

Lemma split_cons sep c s :
  split sep (String c s) =
    if Ascii.eqb c sep then "" :: split sep s
    else
      match split sep s with
      | field :: fields => String c field :: fields
      | [] => [String c ""]
      end.
Proof. reflexivity. Qed.


(** A text without the separator is its own single field. *)
Lemma split_none sep s : index_of sep s = None -> split sep s = [s].
Proof.
  induction s as [| c s IH]; intros H; [reflexivity |].
  cbn [index_of] in H. rewrite split_cons.
  destruct (Ascii.eqb c sep); [discriminate |].
  destruct (index_of sep s); [discriminate |].
  rewrite IH; reflexivity.
Qed.

(** ** Commands *)

Lemma commands_run_app t1 t2 :
  commands_run (t1 ++ t2) = commands_run t1 ++ commands_run t2.
Proof.
  induction t1 as [| e t1 IH]; [reflexivity |].
  destruct e; cbn [app commands_run]; rewrite IH; reflexivity.
Qed.

(** The trace and the end of a computation that is a sequence. *)
Lemma bind_fst_snd {E A B} (m : M E A) (k : A -> M E B) :
  bind m k =
    match snd m with
    | Val a => (fst m ++ fst (k a), snd (k a))
    | Exc e => (fst m, Exc e)
    | SysExit c => (fst m, SysExit c)
    | OutOfFuel => (fst m, OutOfFuel)
    end.
Proof.
  destruct m as [t [a | e | c |]]; cbn; try reflexivity.
  destruct (k a); reflexivity.
Qed.


(** [perform_task] always returns a text, and runs no command. *)
Lemma perform_task_returns w task :
  exists instructions,
    perform_task w task =
      ([EvMessages (prompt_for task) (messages_create w (prompt_for task))],
       Val instructions) /\
    instructions =
      match messages_create w (prompt_for task) with
      | inr (text :: _) => text
      | inr [] => "Error calling Claude: list index out of range"
      | inl e => ("Error calling Claude: " ++ exn_msg e)%string
      end.
Proof.
  unfold perform_task. cbv zeta.
  destruct (messages_create w (prompt_for task)) as [e | [| text content]];
    eexists; split; reflexivity.
Qed.

Lemma execute_task_unfold w task :
  exists instructions,
    perform_task w task =
      ([EvMessages (prompt_for task) (messages_create w (prompt_for task))],
       Val instructions) /\
    let loop := run_commands w task 0 (split nl (strip instructions)) in
    commands_run (fst (execute_task w task)) = commands_run (fst loop) /\
    (snd loop = Val tt \/ (exists e, snd loop = Exc e) ->
     snd (execute_task w task) = Val tt).
Proof.
  destruct (perform_task_returns w task) as (instructions & P & _).
  exists instructions. split; [exact P |].
  unfold execute_task. rewrite P. cbv zeta.
  set (loop := run_commands w task 0 (split nl (strip instructions))).
  cbn [print emit bind app]. rewrite (bind_fst_snd loop).
  destruct loop as [t [[] | e | c |]]; cbn; rewrite ?commands_run_app;
    cbn; rewrite ?app_nil_r; split; try reflexivity;
    intros [H | [e' H]]; discriminate.
Qed.


Lemma rstrip_nonspace c s :
  is_space c = false -> rstrip (String c s) = String c (rstrip s).
Proof.
  intros H. rewrite rstrip_cons, H. destruct (rstrip s); reflexivity.
Qed.

(** X8. When the call to the model raises, the text of the error is taken
    for the instructions: if the message of the exception has no newline,
    [execute_task] hands exactly one command to the shell, the line
    [Error calling Claude: ...] made of that message. *)
Theorem api_error_text_is_run_as_a_command :
  forall w task_description e,
  messages_create w (prompt_for task_description) = inl e ->
  index_of nl (exn_msg e) = None ->
  commands_run (fst (execute_task w task_description))
  = [strip ("Error calling Claude: " ++ exn_msg e)%string] /\
  prefix "Error" (strip ("Error calling Claude: " ++ exn_msg e)%string) = true.
Proof.
  intros w task e C N.
  destruct (execute_task_unfold w task) as (instructions & P & E & _).
  destruct (perform_task_returns w task) as (i' & P' & I).
  rewrite P in P'. injection P' as <-. rewrite C in I. subst instructions.
  cbv zeta in E. rewrite E. clear E P.
  set (text := ("Error calling Claude: " ++ exn_msg e)%string).
  assert (Nt : index_of nl text = None).
  { subst text. cbn [append index_of]. cbn. unfold nl in N. cbn in N.
    rewrite N. reflexivity. }
  assert (St : exists r, strip text = String "E" r /\
                         prefix "Error" (String "E" r) = true).
  { subst text. unfold strip. cbn [append].
    rewrite !rstrip_nonspace by reflexivity. cbn [lstrip].
    eexists. split; [reflexivity |]. rewrite !prefix_cons.
    destruct (rstrip _); reflexivity. }
  destruct St as (r & St & Pt).
  rewrite (split_none nl (strip text)) by (apply index_of_strip, Nt).
  split; [| rewrite St; exact Pt].
  cbn [run_commands]. rewrite strip_idem, St.
  cbn [String.length Nat.eqb negb andb].
  replace (prefix "#" (String "E" r)) with false by reflexivity.
  cbn [negb]. rewrite !bind_fst_snd. cbn [print emit fst snd].
  destruct (subprocess_run w 0 (String "E" r)) as [x | result];
    cbn [call fst snd app commands_run]; [reflexivity |].
  rewrite !bind_fst_snd.
  destruct (negb (String.length (stdout result) =? 0)%nat);
    destruct (negb (String.length (stderr result) =? 0)%nat);
    cbn [print emit ret fst snd app commands_run];
    rewrite ?bind_fst_snd; cbn [print emit ret fst snd app commands_run];
    rewrite ?commands_run_app; reflexivity.
Qed.

Lemma api_error_text_is_run_as_a_command_witness :
  commands_run
    (fst (execute_task (failing_api (PyExn "APIError" "401 unauthorized") "")
                       "list the files"))
  = ["Error calling Claude: 401 unauthorized"].
Proof.
  exact (proj1 (api_error_text_is_run_as_a_command
                  (failing_api (PyExn "APIError" "401 unauthorized") "")
                  "list the files" (PyExn "APIError" "401 unauthorized")
                  eq_refl eq_refl)).
Defined.

End AgentRunFacts.

(* ================================================================== *)
(** * More properties of [PwsSearch.run_search] *)
(* ================================================================== *)

Module PwsSearchMore.

Import PwsSearch Binary64 PwsSearchFacts.
Open Scope string_scope.
Open Scope list_scope.
Open Scope py_scope.

(** Settle the five facts on a loop that ends at once. *)
Ltac ends :=
  cbn;
  split;
  [ intros d E; try discriminate E;
    try (injection E as <-; cbn; repeat split)
  | split;
    [ intros code E; try discriminate E;
      try (injection E as <-; reflexivity)
    | repeat split; lia ] ].

Section Run.

Variable json_loads : string -> pyexn + pyval.
Variable c : client.
Variables max_wait_time poll_interval : float.

(** ** How the loop can end, and what it has done by then *)

Lemma poll_loop_ends run_id fuel : forall polls elapsed,
  let r := poll_loop json_loads fuel c run_id max_wait_time poll_interval
                     polls elapsed in
  (forall d, snd r = Val d ->
     d_status d = "completed" /\ d_run_id d = run_id /\
     count is_result (fst r) = 1%nat) /\
  (forall code, snd r = SysExit code -> code = 1%Z) /\
  (count is_result (fst r) <= 1)%nat /\
  count is_create (fst r) = 0%nat /\
  (count is_sleep (fst r) <= count is_retrieve (fst r)
   <= S (count is_sleep (fst r)))%nat.
Proof.
  induction fuel as [| fuel IH]; intros polls elapsed r; subst r.
  - cbn. ends.
  - destruct (elapsed <? max_wait_time)%float eqn:H.
    2:{ rewrite poll_loop_timeout by assumption. ends. }
    destruct (retrieve_resp c polls run_id) as [e | st] eqn:R.
    { rewrite (poll_loop_retrieve_raises _ _ _ _ _ _ _ _ _ H R). ends. }
    destruct (status_cases (status st)) as [Hs | [Hs | [Hs | [Hs | Hs]]]].
    + rewrite (poll_loop_completed _ _ _ _ _ _ _ _ _ H R Hs).
      destruct (result_resp c run_id); ends.
    + rewrite (poll_loop_failed _ _ _ _ _ _ _ _ _ H R Hs). ends.
    + rewrite (poll_loop_cancelled _ _ _ _ _ _ _ _ _ H R (or_introl Hs)).
      ends.
    + rewrite (poll_loop_cancelled _ _ _ _ _ _ _ _ _ H R (or_intror Hs)).
      ends.
    + destruct (sleep_ok poll_interval) eqn:Sl.
      * rewrite (poll_loop_pending _ _ _ _ _ _ _ _ _ H R Hs Sl).
        specialize (IH (S polls) (elapsed + poll_interval)%float).
        cbv zeta in IH. destruct IH as (V & X & F & C & S').
        cbn [fst snd]. unfold count in *.
        cbn [filter is_result is_create is_sleep is_retrieve List.length].
        split; [exact V | split; [exact X | repeat split; lia]].
      * rewrite (poll_loop_sleep_raises _ _ _ _ _ _ _ _ _ H R Hs Sl). ends.
Qed.


End Run.

Lemma count_handler_lines p r :
  (forall l, p (EvPrint l) = false) -> count p (handler_lines r) = 0%nat.
Proof.
  intros H. destruct r; cbn; rewrite ?H; reflexivity.
Qed.


(** X10. In every run of [run_search], whatever the client does, one task
    is created and no more, the result is fetched at most once, and the
    sleeps are as many as the status polls or one fewer. *)
Theorem run_search_creates_once_and_sleeps_between_polls :
  forall json_loads fuel c query processor output_format max_wait_time
         poll_interval,
  let trace := fst (run_search json_loads fuel c query processor
                               output_format max_wait_time poll_interval) in
  count is_create trace = 1%nat /\
  (count is_result trace <= 1)%nat /\
  (count is_sleep trace <= count is_retrieve trace
   <= S (count is_sleep trace))%nat.
Proof.
  intros json_loads fuel c query processor output_format max_wait_time
         poll_interval trace. subst trace.
  destruct (create_resp c (task_input query) processor) as [e | run_id] eqn:C.
  - rewrite (run_search_create_raises json_loads c max_wait_time
               poll_interval fuel query processor output_format e C).
    unfold count. cbn. lia.
  - rewrite (run_search_created json_loads c run_id max_wait_time
               poll_interval fuel query processor output_format C).
    destruct (poll_loop_ends json_loads c max_wait_time poll_interval
                run_id fuel 0 0%float) as (_ & _ & F & K & S').
    cbn [fst]. rewrite !count_app, !count_handler_lines by reflexivity.
    rewrite K.
    change (count is_create (header query processor run_id)) with 1%nat.
    change (count is_result (header query processor run_id)) with 0%nat.
    change (count is_sleep (header query processor run_id)) with 0%nat.
    change (count is_retrieve (header query processor run_id)) with 0%nat.
    lia.
Qed.

(** X11. An exception raised by the client or by the sleep is caught in
    [run_search]: the two error lines are printed and the function leaves
    through [sys.exit(1)]. This holds for the creation, for a status poll
    after [n] passes that slept and polled again, for the fetch of the
    result, and for a sleep that [time.sleep] refuses. *)
Theorem client_errors_end_in_exit_1 :
  forall json_loads c query processor output_format max_wait_time
         poll_interval,
  (forall e fuel,
     create_resp c (task_input query) processor = inl e ->
     let run := run_search json_loads fuel c query processor output_format
                           max_wait_time poll_interval in
     snd run = SysExit 1 /\ count is_retrieve (fst run) = 0%nat)
  /\
  (forall run_id n fuel,
     create_resp c (task_input query) processor = inr run_id ->
     pending_through c run_id max_wait_time poll_interval n = true ->
     (elapsed_after poll_interval n <? max_wait_time)%float = true ->
     let run := run_search json_loads (n + S fuel) c query processor
                           output_format max_wait_time poll_interval in
     let before := header query processor run_id
                   ++ pending_trace c run_id poll_interval 0 n in
     (forall e,
        retrieve_resp c n run_id = inl e ->
        run = (before ++ [EvRetrieve n run_id (inl e);
                          EvPrint (MsgError e); EvPrint (MsgTraceback e)],
               SysExit 1))
     /\
     (forall st e,
        retrieve_resp c n run_id = inr st -> status st = "completed" ->
        result_resp c run_id = inl e ->
        run = (before ++ [EvRetrieve n run_id (inr st); EvPrint MsgCompleted;
                          EvResult run_id (inl e);
                          EvPrint (MsgError e); EvPrint (MsgTraceback e)],
               SysExit 1))
     /\
     (forall st,
        retrieve_resp c n run_id = inr st ->
        is_pending (status st) = true ->
        sleep_ok poll_interval = false ->
        run = (before ++ [EvRetrieve n run_id (inr st);
                          EvPrint (MsgStatus (status st));
                          EvPrint (MsgError (sleep_error poll_interval));
                          EvPrint (MsgTraceback (sleep_error poll_interval))],
               SysExit 1))).
Proof.
  intros json_loads c query processor output_format max_wait_time
         poll_interval.
  split.
  - intros e fuel C run. subst run.
    rewrite (run_search_create_raises json_loads c max_wait_time
               poll_interval fuel query processor output_format e C).
    split; reflexivity.
  - intros run_id n fuel C Hp H run before. subst run before.
    rewrite (run_search_pending_through json_loads c run_id max_wait_time
               poll_interval n (S fuel) query processor output_format C Hp).
    split; [| split].
    + intros e R.
      rewrite (poll_loop_retrieve_raises _ _ _ _ _ _ _ _ _ H R).
      cbn [fst snd handler_lines handled app].
      rewrite <- app_assoc. reflexivity.
    + intros st e R Hs F.
      rewrite (poll_loop_completed _ _ _ _ _ _ _ _ _ H R Hs), F.
      cbn [fst snd handler_lines handled app].
      rewrite <- app_assoc. reflexivity.
    + intros st R P Sl.
      rewrite (poll_loop_sleep_raises _ _ _ _ _ _ _ _ _ H R P Sl).
      cbn [fst snd handler_lines handled app].
      rewrite <- app_assoc. reflexivity.
Qed.

Lemma client_errors_end_in_exit_1_witness :
  snd (run_search json_loads_table 5
         (Client (fun _ _ => inl (PyExn "AuthError" "bad key"))
                 (fun _ _ => inl (PyExn "unused" ""))
                 (fun _ => inl (PyExn "unused" "")))
         "black couch" "base" "pretty" 10 2) = SysExit 1
  /\ snd (run_search json_loads_table 2
            (scripted "run-1" [] "running" PNone)
            "black couch" "base" "pretty" 10 (-2)) = SysExit 1.
Proof.
  split.
  - exact (proj1 (proj1 (client_errors_end_in_exit_1 json_loads_table
             (Client (fun _ _ => inl (PyExn "AuthError" "bad key"))
                     (fun _ _ => inl (PyExn "unused" ""))
                     (fun _ => inl (PyExn "unused" "")))
             "black couch" "base" "pretty" 10 2)
           (PyExn "AuthError" "bad key") 5 eq_refl)).
  - exact (f_equal snd
          (proj2 (proj2 (proj2 (client_errors_end_in_exit_1 json_loads_table
             (scripted "run-1" [] "running" PNone)
             "black couch" "base" "pretty" 10 (-2))
           "run-1" 0%nat 1%nat eq_refl eq_refl eq_refl))
           (TaskStatus "running" None) eq_refl eq_refl eq_refl)).
Defined.

(** ** A bound on the polls, for whole seconds *)

Section WholeSeconds.

Variable json_loads : string -> pyexn + pyval.
Variable c : client.
Variable run_id : string.
Variables budget interval : Z.
Hypothesis budget_pos : (0 < budget)%Z.
Hypothesis interval_pos : (0 < interval)%Z.
Hypothesis sum_small : (budget + interval < 2 ^ 53)%Z.

Lemma bounded_polls_from k : forall fuel j,
  (Z.of_nat (k + j) = ceil_div budget interval)%Z -> (j < fuel)%nat ->
  let r := poll_loop json_loads fuel c run_id (secs budget) (secs interval)
                     k (elapsed_after (secs interval) k) in
  snd r <> OutOfFuel /\
  (count is_retrieve (fst r) <= j)%nat /\
  (count is_sleep (fst r) <= j)%nat.
Proof.
  intros fuel. revert k.
  induction fuel as [| fuel IH]; intros k j Hn Hj r; [lia |]. subst r.
  pose proof (ceil_div_spec budget interval interval_pos) as [Hlo Hhi].
  rewrite <- Hn in Hlo, Hhi.
  assert (He : elapsed_after (secs interval) k
               = secs (Z.of_nat k * interval)).
  { apply elapsed_after_secs; nia. }
  destruct (elapsed_after (secs interval) k <? secs budget)%float eqn:H.
  2:{ rewrite poll_loop_timeout by assumption. unfold count. cbn.
      split; [discriminate | lia]. }
  assert (Hk : (0 < j)%nat).
  { rewrite He, secs_ltb in H by nia. apply Z.ltb_lt in H.
    destruct j; [| lia]. rewrite Nat.add_0_r in Hhi. lia. }
  destruct (retrieve_resp c k run_id) as [e | st] eqn:R.
  { rewrite (poll_loop_retrieve_raises _ _ _ _ _ _ _ _ _ H R).
    unfold count. cbn. split; [discriminate | lia]. }
  destruct (status_cases (status st)) as [Hs | [Hs | [Hs | [Hs | Hs]]]].
  - rewrite (poll_loop_completed _ _ _ _ _ _ _ _ _ H R Hs).
    unfold count. cbn.
    split; [destruct (result_resp c run_id); discriminate | lia].
  - rewrite (poll_loop_failed _ _ _ _ _ _ _ _ _ H R Hs).
    unfold count. cbn. split; [discriminate | lia].
  - rewrite (poll_loop_cancelled _ _ _ _ _ _ _ _ _ H R (or_introl Hs)).
    unfold count. cbn. split; [discriminate | lia].
  - rewrite (poll_loop_cancelled _ _ _ _ _ _ _ _ _ H R (or_intror Hs)).
    unfold count. cbn. split; [discriminate | lia].
  - destruct (sleep_ok (secs interval)) eqn:Sl.
    + rewrite (poll_loop_pending _ _ _ _ _ _ _ _ _ H R Hs Sl).
      change (elapsed_after (secs interval) k + secs interval)%float
        with (elapsed_after (secs interval) (S k)).
      destruct j as [| j]; [lia |].
      destruct (IH (S k) j) as (N & B & B'); [lia | lia |].
      cbn [fst snd]. split; [exact N |].
      unfold count in *.
      cbn [filter is_retrieve is_sleep List.length]. lia.
    + rewrite (poll_loop_sleep_raises _ _ _ _ _ _ _ _ _ H R Hs Sl).
      unfold count. cbn. split; [discriminate | lia].
Qed.

End WholeSeconds.

(** X12. With a budget and an interval that are whole numbers of seconds,
    [0 < budget], [0 < interval], [budget + interval < 2^53], the poll loop
    of [run_search] comes to an end whatever the client answers: it makes at
    most [ceil(max_wait_time / poll_interval)] status polls and at most as
    many sleeps. *)
Theorem polls_are_bounded_for_whole_seconds :
  forall json_loads c query processor output_format budget interval fuel,
  (0 < budget)%Z -> (0 < interval)%Z -> (budget + interval < 2 ^ 53)%Z ->
  let n := Z.to_nat (ceil_ratio (secs budget) (secs interval)) in
  let run := run_search json_loads (S n + fuel) c query processor
                        output_format (secs budget) (secs interval) in
  snd run <> OutOfFuel /\
  (count is_retrieve (fst run) <= n)%nat /\
  (count is_sleep (fst run) <= n)%nat.
Proof.
  intros json_loads c query processor output_format budget interval fuel
         Hb Hi Hsum n run.
  pose proof (ceil_div_spec budget interval Hi) as [Hlo Hhi].
  assert (Hn : Z.of_nat n = ceil_div budget interval).
  { subst n. rewrite ceil_ratio_secs by lia. apply Z2Nat.id. nia. }
  subst run.
  destruct (create_resp c (task_input query) processor)
    as [e | run_id] eqn:C.
  - rewrite (run_search_create_raises json_loads c (secs budget)
               (secs interval) (S n + fuel) query processor
               output_format e C).
    unfold count. cbn. split; [discriminate | lia].
  - rewrite (run_search_created json_loads c run_id (secs budget)
               (secs interval) (S n + fuel) query processor
               output_format C).
    destruct (bounded_polls_from json_loads c run_id budget interval
                Hb Hi Hsum 0 (S n + fuel) n) as (N & B & B');
      [exact Hn | lia |].
    change (elapsed_after (secs interval) 0) with 0%float in N, B, B'.
    cbn [fst snd]. split; [| split].
    + destruct (snd (poll_loop json_loads (S n + fuel) c run_id
                       (secs budget) (secs interval) 0 0%float));
        cbn [handled]; congruence.
    + rewrite !count_app, count_handler_lines by reflexivity.
      change (count is_retrieve (header query processor run_id))
        with 0%nat.
      lia.
    + rewrite !count_app, count_handler_lines by reflexivity.
      change (count is_sleep (header query processor run_id)) with 0%nat.
      lia.
Qed.

Lemma polls_are_bounded_for_whole_seconds_witness :
  (count is_retrieve
     (fst (run_search json_loads_table 6
             (scripted "run-1" ["running"; "weird-state"] "running" PNone)
             "black couch" "base" "pretty" 10 2)) <= 5)%nat.
Proof.
  exact (proj1 (proj2 (polls_are_bounded_for_whole_seconds json_loads_table
                  (scripted "run-1" ["running"; "weird-state"] "running" PNone)
                  "black couch" "base" "pretty" 10 2 0
                  eq_refl eq_refl eq_refl))).
Defined.

End PwsSearchMore.

(* ================================================================== *)
(** * More properties of [ExaSearch.run_search] *)
(* ================================================================== *)

Module ExaSearchMore.

Import ExaSearch PyText ExaSearchFacts.
Open Scope string_scope.
Open Scope list_scope.
Open Scope py_scope.




(** What [run_search] does when the key is set. *)
Lemma run_search_with_key exa_api_key c query num_results output_format :
  truthy_str exa_api_key = true ->
  run_search exa_api_key c query num_results output_format =
    match search_and_contents c query num_results with
    | inl e =>
        ([EvPrint (MsgSearching query); EvSearch query num_results (inl e);
          EvPrint (MsgError e); EvPrint (MsgTraceback e)], SysExit 1)
    | inr response =>
        let results := collect 0 (results response) [] in
        ([EvPrint (MsgSearching query);
          EvSearch query num_results (inr response); EvPrint MsgCompleted],
         Val (SearchDict query
                (match results with first :: _ => first | [] => PNone end)
                results (Z.of_nat (List.length results))))
    end.
Proof.
  intros K. unfold run_search. rewrite K.
  destruct (search_and_contents c query num_results) as [e | response].
  - reflexivity.
  - cbn [negb call bind print emit try_except].
    destruct (collect 0 (results response) []) as [| first rest]; reflexivity.
Qed.





End ExaSearchMore.

(* ================================================================== *)
(** * Properties of the presentation in src/search/pws_search.py *)
(* ================================================================== *)

Module PwsPresentFacts.

Import PwsSearch PyText PwsPresent PwsSearchFacts PwsSearchMore.
Open Scope string_scope.
Open Scope list_scope.
Open Scope py_scope.

Section Present.

Variable py_str : pyval -> string.
Variable json_dumps : search_dict -> pyexn + string.

Lemma blanks_app (l1 l2 : list string) :
  blanks (l1 ++ l2) = (blanks l1 + blanks l2)%nat.
Proof. apply count_occ_app. Qed.

Lemma blanks_none (l : list string) :
  ~ In "" l -> blanks l = 0%nat.
Proof. intros H. apply count_occ_not_In. exact H. Qed.

(** One product that is a dictionary gives five lines that are not empty,
    and an empty one when it is not the last. *)
Lemma product_lines_dict n idx kv :
  exists lines,
    product_lines py_str n idx (PDict kv) = inr lines /\
    List.length lines = (5 + (if (idx <? n)%nat then 1 else 0))%nat /\
    blanks lines = (if (idx <? n)%nat then 1 else 0)%nat.
Proof.
  eexists. split; [reflexivity |].
  rewrite length_app, blanks_app. cbn [List.length].
  split.
  - destruct (idx <? n)%nat; reflexivity.
  - replace (blanks _) with 0%nat.
    + destruct (idx <? n)%nat; reflexivity.
    + symmetry. apply blanks_none.
      cbn [In]. intros [H | [H | [H | [H | [H | []]]]]]; discriminate H.
Qed.

Lemma product_lines_other n idx p :
  is_dict p = false -> product_lines py_str n idx p = inl no_attribute_get.
Proof.
  destruct p; cbn; intros H; try reflexivity. discriminate H.
Qed.

(** The loop over products that are all dictionaries, from position [idx]
    to the last position [n]. *)
Lemma products_lines_dicts n : forall items idx,
  forallb is_dict items = true ->
  (idx + List.length items = S n)%nat ->
  exists lines,
    products_lines py_str n idx items = inr lines /\
    List.length lines
    = (5 * List.length items + pred (List.length items))%nat /\
    blanks lines = pred (List.length items).
Proof.
  induction items as [| p items IH]; intros idx D L.
  - exists []. repeat split.
  - cbn [forallb] in D. apply andb_prop in D as [Dp D].
    destruct p; try discriminate Dp.
    destruct (product_lines_dict n idx kv) as (lines & E & Ll & Bl).
    cbn [List.length] in L.
    destruct (IH (S idx) D ltac:(lia)) as (more & E' & Lm & Bm).
    exists (lines ++ more).
    cbn [products_lines]. rewrite E, E'. split; [reflexivity |].
    rewrite length_app, blanks_app, Ll, Bl, Lm, Bm. cbn [List.length].
    destruct items as [| q items].
    + cbn [List.length] in *.
      replace (idx <? n)%nat with false
        by (symmetry; apply Nat.ltb_ge; lia).
      split; reflexivity.
    + cbn [List.length] in *.
      replace (idx <? n)%nat with true
        by (symmetry; apply Nat.ltb_lt; lia).
      split; cbn [pred]; lia.
Qed.

(** The loop stops with [AttributeError] at the first product that is not a
    dictionary. *)
Lemma products_lines_raises n : forall items idx,
  forallb is_dict items = false ->
  products_lines py_str n idx items = inl no_attribute_get.
Proof.
  induction items as [| p items IH]; intros idx D; [discriminate D |].
  cbn [forallb] in D. cbn [products_lines].
  destruct (is_dict p) eqn:Dp.
  - destruct p; try discriminate Dp.
    destruct (product_lines_dict n idx kv) as (lines & E & _).
    rewrite E, (IH (S idx) D). reflexivity.
  - rewrite (product_lines_other n idx p Dp). reflexivity.
Qed.

Lemma has_key_of_get kv key v :
  dict_get kv key = Some v -> has_key kv key = true.
Proof. unfold has_key. intros ->. reflexivity. Qed.

(** The pretty format when [matched_products] is there. *)
Lemma pretty_lines_structured result kv products :
  d_output result = PDict kv ->
  dict_get kv "matched_products" = Some products ->
  pretty_lines py_str result =
    match py_len products with
    | inl e => inl e
    | inr n =>
        match py_iter products with
        | inl e => inl e
        | inr items =>
            match products_lines py_str n 1 items with
            | inl e => inl e
            | inr blocks =>
                inr ([repeat_str "=" 70; "SEARCH RESULTS"; repeat_str "=" 70]
                     ++ [nls ++ "🔍 Query: "
                           ++ fmt py_str (match dict_get kv "query" with
                                          | Some q => q
                                          | None => PStr "N/A"
                                          end);
                         "📊 Found " ++ str_of_nat n ++ " product(s)";
                         nls ++ repeat_str "-" 70]%string
                     ++ blocks ++ [nls ++ repeat_str "=" 70]%string)
            end
        end
    end.
Proof.
  intros O G. unfold pretty_lines. rewrite O.
  rewrite (has_key_of_get _ _ _ G), G. reflexivity.
Qed.

(** ** The lines of a text *)

Lemma split_nonempty sep s : split sep s <> [].
Proof.
  destruct s as [| c s]; cbn [split]; [discriminate |].
  destruct (Ascii.eqb c sep); [discriminate |].
  destruct (split sep s); discriminate.
Qed.

(** A newline between two texts separates the lines of the one from the
    lines of the other. *)
Lemma split_newline a b :
  split nl (a ++ nls ++ b) = split nl a ++ split nl b.
Proof.
  induction a as [| c a IH].
  - cbn. reflexivity.
  - cbn [String.append split]. rewrite IH.
    destruct (Ascii.eqb c nl); [reflexivity |].
    pose proof (split_nonempty nl a) as N.
    destruct (split nl a) as [| field fields]; [contradiction |].
    reflexivity.
Qed.

(** The lines of the joined text are the lines of the entries, one entry
    after the other. *)
Lemma split_join entries :
  entries <> [] ->
  split nl (join nls entries) = flat_map (split nl) entries.
Proof.
  induction entries as [| e entries IH]; intros N; [contradiction |].
  destruct entries as [| e' entries].
  - cbn. rewrite app_nil_r. reflexivity.
  - unfold join in *.
    change (String.concat nls (e :: e' :: entries))
      with (e ++ nls ++ String.concat nls (e' :: entries))%string.
    rewrite split_newline, IH by discriminate. reflexivity.
Qed.

Lemma split_one_line s : one_line s = true -> split nl s = [s].
Proof.
  unfold one_line. induction s as [| c s IH]; intros H; [reflexivity |].
  cbn [list_ascii_of_string forallb] in H. apply andb_prop in H as [Hc H].
  cbn [split]. apply negb_true_iff in Hc. rewrite Hc, (IH H). reflexivity.
Qed.

Lemma split_led s : split nl (nls ++ s) = "" :: split nl s.
Proof. reflexivity. Qed.

Lemma one_line_app a b : one_line (a ++ b) = one_line a && one_line b.
Proof.
  unfold one_line. induction a as [| c a IH]; [reflexivity |].
  cbn [String.append list_ascii_of_string forallb].
  rewrite IH, andb_assoc. reflexivity.
Qed.

Lemma one_line_digits d : one_line (NilEmpty.string_of_uint d) = true.
Proof. induction d; cbn; try reflexivity; exact IHd. Qed.

Lemma one_line_str_of_nat n : one_line (str_of_nat n) = true.
Proof.
  unfold str_of_nat, NilZero.string_of_uint.
  destruct (Nat.to_uint n); try reflexivity; apply one_line_digits.
Qed.

Lemma blanks_empty l : blanks ("" :: l) = S (blanks l).
Proof.
  unfold blanks. cbn [count_occ].
  destruct (string_dec "" ""); [reflexivity | contradiction].
Qed.

Lemma blanks_skip c s l : blanks (String c s :: l) = blanks l.
Proof.
  unfold blanks. cbn [count_occ].
  destruct (string_dec (String c s) ""); [discriminate | reflexivity].
Qed.

(** The text lines of one product whose fields are shown on one line: an
    empty line, the heading, the four field lines, and one more empty line
    when it is not the last. *)
Lemma product_lines_text n idx kv :
  (forall field, In field (shown_fields py_str (PDict kv)) ->
                 one_line field = true) ->
  exists entries,
    product_lines py_str n idx (PDict kv) = inr entries /\
    List.length (flat_map (split nl) entries)
    = (6 + (if (idx <? n)%nat then 1 else 0))%nat /\
    blanks (flat_map (split nl) entries)
    = (1 + (if (idx <? n)%nat then 1 else 0))%nat.
Proof.
  intros F. eexists. split; [reflexivity |].
  cbn [shown_fields In] in F.
  rewrite flat_map_app. cbn [flat_map]. rewrite split_led.
  rewrite !split_one_line.
  2-5: rewrite ?one_line_app; cbn [one_line]; rewrite ?andb_true_iff;
       repeat split; try reflexivity; try (apply F; tauto);
       try apply one_line_str_of_nat.
  - rewrite app_nil_r. cbn [app List.length]. rewrite blanks_empty.
    cbn [String.append]. rewrite !blanks_skip.
    destruct (idx <? n)%nat; split; reflexivity.
  - rewrite !one_line_app, one_line_str_of_nat. reflexivity.
Qed.

Lemma products_lines_text n : forall items idx,
  forallb is_dict items = true ->
  (forall product field,
     In product items -> In field (shown_fields py_str product) ->
     one_line field = true) ->
  (idx + List.length items = S n)%nat ->
  exists entries,
    products_lines py_str n idx items = inr entries /\
    List.length (flat_map (split nl) entries)
    = (6 * List.length items + pred (List.length items))%nat /\
    blanks (flat_map (split nl) entries)
    = (List.length items + pred (List.length items))%nat.
Proof.
  induction items as [| p items IH]; intros idx D F L.
  - exists []. repeat split.
  - cbn [forallb] in D. apply andb_prop in D as [Dp D].
    destruct p; try discriminate Dp.
    destruct (product_lines_text n idx kv) as (entries & E & Ll & Bl).
    { intros field I. apply (F (PDict kv)); [left; reflexivity | exact I]. }
    cbn [List.length] in L.
    destruct (IH (S idx) D) as (more & E' & Lm & Bm).
    { intros product field I. apply F. right. exact I. }
    { lia. }
    exists (entries ++ more).
    cbn [products_lines]. rewrite E, E'. split; [reflexivity |].
    rewrite flat_map_app, length_app, blanks_app, Ll, Bl, Lm, Bm.
    cbn [List.length].
    destruct items as [| q items].
    + cbn [List.length] in *.
      replace (idx <? n)%nat with false
        by (symmetry; apply Nat.ltb_ge; lia).
      split; reflexivity.
    + cbn [List.length] in *.
      replace (idx <? n)%nat with true
        by (symmetry; apply Nat.ltb_lt; lia).
      split; cbn [pred]; lia.
Qed.

End Present.

(** X15. The text that the pretty format returns for a payload whose
    [matched_products] is a list of [n] dictionaries, when the query and the
    fields of the products are shown without a newline. Cut at its newlines
    the text has [10 + 6 n + (n - 1)] lines: three of heading, an empty one,
    the query, the number of products, an empty one, a rule, then for each
    product an empty line, its heading and its four field lines, one more
    empty line after each product but the last, and at the end an empty
    line and a rule. [3 + n + (n - 1)] of the lines are empty, and the
    sixth line gives the number [n] of products. *)
Theorem pretty_layout_of_listed_products :
  forall py_str json_dumps result kv items format_type,
  (format_type =? "json") = false ->
  d_output result = PDict kv ->
  dict_get kv "matched_products" = Some (PList items) ->
  forallb is_dict items = true ->
  one_line (shown_query py_str kv) = true ->
  (forall product field,
     In product items -> In field (shown_fields py_str product) ->
     one_line field = true) ->
  let n := List.length items in
  exists text,
    format_output py_str json_dumps result format_type = inr text /\
    List.length (split nl text) = (10 + 6 * n + pred n)%nat /\
    blanks (split nl text) = (3 + n + pred n)%nat /\
    nth_error (split nl text) 5
    = Some ("📊 Found " ++ str_of_nat n ++ " product(s)")%string.
Proof.
  intros py_str json_dumps result kv items format_type J O G D Q F n.
  subst n. unfold format_output. rewrite J.
  rewrite (pretty_lines_structured py_str result kv (PList items) O G).
  cbn [py_len py_iter].
  destruct (products_lines_text py_str (List.length items) items 1 D F
              eq_refl) as (blocks & E & L & B).
  rewrite E. eexists. split; [reflexivity |].
  rewrite split_join by discriminate.
  rewrite !flat_map_app. cbn [flat_map]. rewrite !split_led.
  fold (shown_query py_str kv).
  rewrite (split_one_line ("🔍 Query: " ++ shown_query py_str kv))
    by (rewrite one_line_app, Q; reflexivity).
  rewrite (split_one_line ("📊 Found " ++ str_of_nat (List.length items)
                             ++ " product(s)"))
    by (rewrite !one_line_app, one_line_str_of_nat; reflexivity).
  change (split nl (repeat_str "=" 70)) with [repeat_str "=" 70].
  change (split nl (repeat_str "-" 70)) with [repeat_str "-" 70].
  change (split nl "SEARCH RESULTS") with ["SEARCH RESULTS"].
  cbn [app]. split; [| split].
  - cbn [List.length]. rewrite !length_app, L. cbn [List.length]. lia.
  - change (repeat_str "=" 70) with (String "=" (repeat_str "=" 69)).
    change (repeat_str "-" 70) with (String "-" (repeat_str "-" 69)).
    cbn [String.append].
    repeat (rewrite blanks_skip || rewrite blanks_empty).
    rewrite blanks_app, B.
    repeat (rewrite blanks_skip || rewrite blanks_empty).
    change (blanks []) with 0%nat. lia.
  - reflexivity.
Qed.

Lemma pretty_layout_of_listed_products_witness :
  exists text,
    format_output (fun _ => "?") (fun _ => inr "{}")
      (SearchDict "run-1" "completed"
         (PDict [("query", PStr "couch");
                 ("matched_products",
                  PList [PDict [("id", PStr "a"); ("price", PInt 5)];
                         PDict [("title", PStr "Sofa")]])]))
      "pretty" = inr text /\
    List.length (split nl text) = 23%nat /\
    blanks (split nl text) = 6%nat.
Proof.
  destruct (pretty_layout_of_listed_products (fun _ => "?")
              (fun _ => inr "{}")
              (SearchDict "run-1" "completed"
                 (PDict [("query", PStr "couch");
                         ("matched_products",
                          PList [PDict [("id", PStr "a"); ("price", PInt 5)];
                                 PDict [("title", PStr "Sofa")]])]))
              _ _ "pretty" eq_refl eq_refl eq_refl eq_refl eq_refl)
    as (text & E & L & B & _).
  - intros product field [<- | [<- | []]] I; cbn in I;
      repeat (destruct I as [<- | I]; [reflexivity |]); destruct I.
  - exists text. split; [exact E | split; [exact L | exact B]].
Defined.

(** X16. When the payload is a dictionary with the key [matched_products],
    the pretty format raises or not by the value under that key: [None], a
    boolean and a number have no length ([TypeError]); a list is shown when
    all its entries are dictionaries and gives [AttributeError] otherwise;
    a string or a dictionary is shown as no product when empty, and gives
    [AttributeError] otherwise, its characters or keys being taken for
    products. *)
Theorem pretty_format_raises_by_the_products_value :
  forall py_str result kv products,
  d_output result = PDict kv ->
  dict_get kv "matched_products" = Some products ->
  let raises class :=
    exists e, pretty_lines py_str result = inl e /\ exn_class e = class in
  let shows n :=
    exists lines, pretty_lines py_str result = inr lines /\
                  List.length lines = (7 + 5 * n + pred n)%nat in
  match products with
  | PNone | PBool _ | PInt _ | PFloat _ => raises "TypeError"
  | PList items =>
      if forallb is_dict items then shows (List.length items)
      else raises "AttributeError"
  | PStr "" | PDict [] => shows 0%nat
  | PStr _ | PDict _ => raises "AttributeError"
  end.
Proof.
  intros py_str result kv products O G raises shows. subst raises shows.
  rewrite (pretty_lines_structured py_str result kv products O G).
  destruct products as [| b | z | f | s | items | items];
    try (eexists; split; reflexivity).
  - destruct s as [| a s]; eexists; split; reflexivity.
  - cbn [py_len py_iter].
    destruct (forallb is_dict items) eqn:D.
    + destruct (products_lines_dicts py_str (List.length items) items 1 D
                  eq_refl) as (blocks & E & L & _).
      rewrite E. eexists. split; [reflexivity |].
      rewrite !length_app, L. cbn [List.length]. lia.
    + rewrite (products_lines_raises py_str _ items 1 D).
      eexists. split; reflexivity.
  - destruct items as [| [k v] items]; eexists; split; reflexivity.
Qed.

Lemma pretty_format_raises_by_the_products_value_witness :
  exists e,
    pretty_lines (fun _ => "?")
      (SearchDict "run-1" "completed"
         (PDict [("matched_products", PStr "none")])) = inl e /\
    exn_class e = "AttributeError".
Proof.
  exact (pretty_format_raises_by_the_products_value (fun _ => "?")
           (SearchDict "run-1" "completed"
              (PDict [("matched_products", PStr "none")]))
           _ _ eq_refl eq_refl).
Defined.


(** How [run_search] ends: never by an exception. *)
Lemma run_search_outcome json_loads fuel c query processor output_format
    max_wait_time poll_interval :
  match snd (run_search json_loads fuel c query processor output_format
                        max_wait_time poll_interval) with
  | Val d =>
      d_status d = "completed" /\
      create_resp c (task_input query) processor = inr (d_run_id d)
  | Exc _ => False
  | SysExit code => code = 1%Z
  | OutOfFuel => True
  end.
Proof.
  destruct (create_resp c (task_input query) processor) as [e | run_id] eqn:C.
  - rewrite (run_search_create_raises json_loads c max_wait_time
               poll_interval fuel query processor output_format e C).
    reflexivity.
  - rewrite (run_search_created json_loads c run_id max_wait_time
               poll_interval fuel query processor output_format C).
    destruct (poll_loop_ends json_loads c max_wait_time poll_interval
                run_id fuel 0 0%float) as (V & X & _).
    cbn [fst snd].
    destruct (snd (poll_loop json_loads fuel c run_id max_wait_time
                     poll_interval 0 0%float)) as [d | e | code |];
      cbn [handled].
    + destruct (V d eq_refl) as (V1 & V2 & _). rewrite V2. split; auto.
    + reflexivity.
    + apply (X code eq_refl).
    + exact I.
Qed.



(** X18. The fallback block of the pretty format, for a dictionary that
    [run_search] returned and whose payload is no dictionary with the key
    [matched_products]: nine lines, in which the run id is the one that the
    creation gave, the status is always [completed], and the payload comes
    as [str] gives it, a string as it is. This is how a payload that
    [json.loads] rejected is shown. *)
Theorem fallback_block_reports_completed :
  forall py_str json_dumps json_loads fuel c query processor output_format
         max_wait_time poll_interval d format_type,
  snd (run_search json_loads fuel c query processor output_format
                  max_wait_time poll_interval) = Val d ->
  (format_type =? "json") = false ->
  (forall kv, d_output d = PDict kv ->
              has_key kv "matched_products" = false) ->
  exists run_id,
    create_resp c (task_input query) processor = inr run_id /\
    format_output py_str json_dumps d format_type
    = inr (join nls
             [repeat_str "=" 70; "SEARCH RESULTS"; repeat_str "=" 70;
              nls ++ "Run ID: " ++ run_id;
              "Status: completed";
              nls ++ repeat_str "-" 70;
              nls ++ "Output:";
              fmt py_str (d_output d);
              nls ++ repeat_str "=" 70]%string) /\
    forall raw, d_output d = PStr raw -> fmt py_str (d_output d) = raw.
Proof.
  intros py_str json_dumps json_loads fuel c query processor output_format
         max_wait_time poll_interval d format_type R F K.
  pose proof (run_search_outcome json_loads fuel c query processor
                output_format max_wait_time poll_interval) as O.
  rewrite R in O. destruct O as [S' C].
  exists (d_run_id d). split; [exact C |]. split.
  - unfold format_output. rewrite F. unfold pretty_lines. rewrite S'.
    destruct (d_output d) as [| b | z | f | s | l | kv] eqn:E;
      try reflexivity.
    rewrite (K kv eq_refl). reflexivity.
  - intros raw ->. reflexivity.
Qed.

Lemma fallback_block_reports_completed_witness :
  exists run_id,
    create_resp (scripted "run-1" [] "completed" (PStr "not json"))
                (task_input "couch") "base" = inr run_id /\
    run_id = "run-1".
Proof.
  destruct (fallback_block_reports_completed (fun _ => "?")
              (fun _ => inr "{}") json_loads_table 1
              (scripted "run-1" [] "completed" (PStr "not json"))
              "couch" "base" "pretty" 300%float 2%float _ "pretty"
              eq_refl eq_refl)
    as (run_id & C & _).
  - intros kv E. discriminate E.
  - exists run_id. split; [exact C |]. injection C as <-. reflexivity.
Defined.

End PwsPresentFacts.

(* ================================================================== *)
(** * Properties of the presentation in src/search/exa_search.py *)
(* ================================================================== *)

Module ExaPresentFacts.

Import ExaSearch PyText ExaPresent ExaSearchFacts ExaSearchMore.
Open Scope string_scope.
Open Scope list_scope.
Open Scope py_scope.

Section Present.

Variable py_str : pyval -> string.

Lemma take_take n m : forall s,
  (n <= m)%nat -> take n (take m s) = take n s.
Proof.
  unfold take. revert m.
  induction n as [| n IH]; intros m s L.
  - destruct (substring 0 m s), s; reflexivity.
  - destruct m as [| m]; [lia |].
    destruct s as [| c s]; [reflexivity |].
    cbn [substring]. rewrite IH by lia. reflexivity.
Qed.

(** The block of the top result, for the product made of the result [r]
    at the position [idx]: every key is there, so that no default of
    [format_output] is used, and the preview is the start of the text of
    the result. *)
Lemma matched_lines_product idx r :
  matched_lines py_str (product idx r)
  = inr (["Top Matched Result:";
          "Title: " ++ str_or (title r) "No title";
          "ID: " ++ str_or (id r) ("result-" ++ str_of_nat idx);
          "URL: " ++ str_or (url r) ""]%string
         ++ (if truthy (attr_or_none (score r))
             then ["   Score:    "
                     ++ fmt py_str (attr_or_none (score r))]%string
             else [])
         ++ (if truthy (attr_or_none (published_date r))
             then ["   Published: "
                     ++ fmt py_str (attr_or_none (published_date r))]%string
             else [])
         ++ match text r with
            | Some (Some (String a s)) =>
                [nls ++ "   Preview:  " ++ take 200 (String a s) ++ "..."]%string
            | _ => []
            end).
Proof.
  unfold product, matched_lines.
  cbn [truthy List.length Nat.eqb negb field dict_get String.eqb Ascii.eqb
       Bool.eqb fmt].
  destruct (text r) as [[[| a s] |] |]; cbn [text_preview];
    try (cbn [truthy py_slice String.length Nat.eqb negb fmt];
         rewrite ?app_nil_r; reflexivity).
  change (substring 0 500 (String a s)) with (String a (substring 0 499 s)).
  cbn [truthy py_slice String.length Nat.eqb negb fmt].
  change (String a (substring 0 499 s)) with (take 500 (String a s)).
  rewrite take_take by lia. reflexivity.
Qed.

(** The entries of the summary for the first [k] products that the loop of
    [run_search] made of the results [rs], numbered from [j]. *)
Lemma summary_entries_products k : forall rs i j,
  summary_entries py_str j
    (firstn k (map (fun ir => product (fst ir) (snd ir))
                   (combine (seq i (List.length rs)) rs)))
  = inr (flat_map
           (fun nr =>
              [nls ++ "   " ++ str_of_nat (fst nr) ++ ". "
                 ++ str_or (title (snd nr)) "No title";
               "      " ++ str_or (url (snd nr)) ""]%string)
           (combine (seq j k) rs)).
Proof.
  induction k as [| k IH]; intros rs i j; [reflexivity |].
  destruct rs as [| r rs]; [reflexivity |].
  cbn [List.length seq combine map firstn fst snd summary_entries].
  rewrite IH. reflexivity.
Qed.

End Present.

(** X19. The pretty format never raises on a dictionary that [run_search]
    returned, and its text is made of the results of the response as
    follows, the entries being joined by newlines. Two heading entries.
    When there is a result, the block of the first one: its title, id and
    url as [run_search] stored them ([No title], [result-0] and the empty
    string standing for missing ones, so that the defaults [N/A] of
    [format_output] are never shown), the score and the date when they are
    true values, and the first 200 characters of the text when the result
    has some. For two results or more, the summary: a rule, a heading, and
    for each of the first five results, numbered from 1, its title and its
    url. Last the closing rule. *)
Theorem exa_pretty_output_never_raises :
  forall py_str json_dumps exa_api_key c query num_results output_format d
         format_type,
  snd (run_search exa_api_key c query num_results output_format) = Val d ->
  (format_type =? "json") = false ->
  exists response,
    search_and_contents c query num_results = inr response /\
    let found := results response in
    let top :=
      match found with
      | [] => []
      | r :: _ =>
          ["Top Matched Result:";
           "Title: " ++ str_or (title r) "No title";
           "ID: " ++ str_or (id r) "result-0";
           "URL: " ++ str_or (url r) ""]%string
          ++ (if truthy (attr_or_none (score r))
              then ["   Score:    "
                      ++ fmt py_str (attr_or_none (score r))]%string
              else [])
          ++ (if truthy (attr_or_none (published_date r))
              then ["   Published: "
                      ++ fmt py_str (attr_or_none (published_date r))]%string
              else [])
          ++ match text r with
             | Some (Some (String a s)) =>
                 [nls ++ "   Preview:  " ++ take 200 (String a s)
                    ++ "..."]%string
             | _ => []
             end
      end in
    let summary :=
      if (1 <? List.length found)%nat then
        [nls ++ repeat_str "-" 70; nls ++ "All Results:"]%string
        ++ flat_map
             (fun nr =>
                [nls ++ "   " ++ str_of_nat (fst nr) ++ ". "
                   ++ str_or (title (snd nr)) "No title";
                 "      " ++ str_or (url (snd nr)) ""]%string)
             (combine (seq 1 5) found)
      else [] in
    format_output py_str json_dumps d format_type
    = inr (join nls ([repeat_str "=" 70; "SEARCH RESULTS (EXA)"]
                     ++ top ++ summary
                     ++ [nls ++ repeat_str "=" 70]%string)).
Proof.
  intros py_str json_dumps exa_api_key c query num_results output_format d
         format_type R F.
  destruct (truthy_str exa_api_key) eqn:K.
  2:{ unfold run_search in R. rewrite K in R. discriminate R. }
  rewrite (run_search_with_key _ c query num_results output_format K) in R.
  destruct (search_and_contents c query num_results) as [e | response];
    [discriminate R |].
  exists response. split; [reflexivity |].
  cbn in R. injection R as <-.
  unfold format_output, pretty_lines. rewrite F.
  cbn [d_matched_product d_all_results].
  assert (S' : summary_lines py_str (collect 0 (results response) [])
               = inr (if (1 <? List.length (results response))%nat then
                        [nls ++ repeat_str "-" 70; nls ++ "All Results:"]%string
                        ++ flat_map
                             (fun nr =>
                                [nls ++ "   " ++ str_of_nat (fst nr) ++ ". "
                                   ++ str_or (title (snd nr)) "No title";
                                 "      " ++ str_or (url (snd nr)) ""]%string)
                             (combine (seq 1 5) (results response))
                      else [])).
  { unfold summary_lines. rewrite collect_length. cbn [List.length Nat.add].
    destruct (1 <? List.length (results response))%nat; [| reflexivity].
    rewrite collect_app. cbn [app].
    rewrite summary_entries_products. reflexivity. }
  rewrite S'. clear S'.
  destruct (results response) as [| r rs] eqn:E.
  - reflexivity.
  - rewrite collect_app. cbn [app List.length seq combine map fst snd].
    rewrite matched_lines_product. reflexivity.
Qed.

Lemma exa_pretty_output_never_raises_witness :
  exists response,
    search_and_contents
      (Client (fun _ _ =>
         inr (SearchResponse
                [ExaResult None (Some "Sofa") None None None None
                           (Some (Some "A black couch")) None;
                 ExaResult (Some "p2") None (Some "https://e.x/2")
                           None None None None None])))
      "black couch" 10 = inr response /\
    List.length (results response) = 2%nat.
Proof.
  destruct (exa_pretty_output_never_raises (fun _ => "?") (fun _ => inr "{}")
              (Some "key")
              (Client (fun _ _ =>
                 inr (SearchResponse
                        [ExaResult None (Some "Sofa") None None None None
                                   (Some (Some "A black couch")) None;
                         ExaResult (Some "p2") None (Some "https://e.x/2")
                                   None None None None None])))
              "black couch" 10 "pretty" _ "pretty" eq_refl eq_refl)
    as (response & E & _).
  exists response. split; [exact E |].
  injection E as <-. reflexivity.
Defined.

End ExaPresentFacts.
